(** * GraphQL_Converter: introspection JSON to SDL

    A shallow embedding of the conversion core of [main.py]
    ([singularize], [convert_type], [convert_field],
    [convert_input_field], [generate_graphql_schema] and the conversion
    step of [main]) together with the properties the specification states
    about it.

    Modelling conventions.
    - The program works on the value returned by [json.load]; that value
      is the type [json] below.  JSON numbers are integers (documents
      with fractional numbers are outside the model).  An object is the
      Python dict after parsing: an association list in insertion order,
      looked up by its first binding.
    - A Python [str] is a Rocq [string]; [capitalize] maps the ASCII
      letters and leaves every other character alone, so the model is
      exact on ASCII text.
    - Python exceptions are values of [pyexc]; every function that can
      raise returns a [result].
    - A dict or a list is, in Python, an object that can be changed in
      place.  The functions on [json] treat them as values.  The module
      [Store] embeds the conversion a second time, on references into an
      explicit object store, with [type_map] and [schema_parts] as
      objects that are updated in place; the two embeddings are related
      by simulation ([convert_type_sim], [generate_graphql_schema_sim]).
    - [convert_type] recurses on a dict it builds itself when [ofType] is
      missing, so it is not structurally recursive.  It is defined with a
      recursion budget ([fuel]); an exhausted budget is the interpreter's
      [RecursionError]. *)

From Stdlib Require Import ZArith List String Ascii Bool Arith Lia.
From Stdlib Require Import Numbers.DecimalString.
Import ListNotations.

#[local] Set Warnings "-register-all".
Local Open Scope nat_scope.
Local Open Scope list_scope.
Local Open Scope string_scope.

(** ** Python exceptions and the error monad *)

Inductive pyexc : Type :=
| AttributeError
| KeyError
| TypeError
| RecursionError.

Inductive result (A : Type) : Type :=
| Ok (a : A)
| Err (e : pyexc).

Arguments Ok {A} a.
Arguments Err {A} e.

Definition bind {A B : Type} (m : result A) (k : A -> result B) : result B :=
  match m with
  | Ok a => k a
  | Err e => Err e
  end.

Declare Scope py_scope.
Delimit Scope py_scope with py.
Notation "x <- m ;; k" := (bind m (fun x => k))
  (at level 61, m at next level, right associativity) : py_scope.
Local Open Scope py_scope.

(** [mapM f xs]: evaluate [f] on the elements from left to right and stop
    at the first exception, as a generator expression does. *)
Fixpoint mapM {A B : Type} (f : A -> result B) (xs : list A) : result (list B) :=
  match xs with
  | [] => Ok []
  | x :: xs' =>
      y <- f x ;;
      ys <- mapM f xs' ;;
      Ok (y :: ys)
  end.

(** ** JSON values *)

Inductive json : Type :=
| JNull
| JBool (b : bool)
| JNum (n : Z)
| JStr (s : string)
| JArr (xs : list json)
| JObj (kvs : list (string * json)).

(** ** Characters and strings *)

Definition nl : string := String (ascii_of_nat 10) "".
Definition dquote : ascii := ascii_of_nat 34.
Definition squote : ascii := ascii_of_nat 39.
Definition backslash : ascii := ascii_of_nat 92.

Definition is_upper (c : ascii) : bool :=
  let n := nat_of_ascii c in ((65 <=? n) && (n <=? 90))%nat.

Definition is_lower (c : ascii) : bool :=
  let n := nat_of_ascii c in ((97 <=? n) && (n <=? 122))%nat.

Definition to_upper (c : ascii) : ascii :=
  if is_lower c then ascii_of_nat (nat_of_ascii c - 32) else c.

Definition to_lower (c : ascii) : ascii :=
  if is_upper c then ascii_of_nat (nat_of_ascii c + 32) else c.

Fixpoint lower (s : string) : string :=
  match s with
  | EmptyString => EmptyString
  | String c s' => String (to_lower c) (lower s')
  end.

(** [str.capitalize()]: first character upper-cased, the rest lower-cased.
    A [string] here is a sequence of 8-bit characters, and only the
    letters of ASCII change case: on ASCII text this is what Python
    computes.  Python also changes the case of letters outside ASCII, by
    the Unicode tables, which are not embedded; a property that depends on
    the case of such letters is stated for ASCII text ([is_ascii]). *)
Definition capitalize (s : string) : string :=
  match s with
  | EmptyString => EmptyString
  | String c s' => String (to_upper c) (lower s')
  end.

(** [s.startswith(p)] *)
Definition startswith (s p : string) : bool := prefix p s.

(** [s.endswith(p)] *)
Definition endswith (s p : string) : bool :=
  (length p <=? length s)%nat &&
  String.eqb (substring (length s - length p) (length p) s) p.

(** [s[:-n]] for a positive [n]. *)
Definition drop_last (n : nat) (s : string) : string :=
  substring 0 (length s - n) s.

(** [sep.join(parts)] *)
Definition join (sep : string) (parts : list string) : string :=
  String.concat sep parts.

Definition string_of_Z (n : Z) : string :=
  NilZero.string_of_int (Z.to_int n).

Fixpoint contains_char (c : ascii) (s : string) : bool :=
  match s with
  | EmptyString => false
  | String d s' => Ascii.eqb c d || contains_char c s'
  end.

Definition hex_digit (n : nat) : ascii :=
  if (n <? 10)%nat then ascii_of_nat (48 + n) else ascii_of_nat (87 + n).

Definition repr_char (quote c : ascii) : string :=
  let n := nat_of_ascii c in
  if Ascii.eqb c quote || Ascii.eqb c backslash then String backslash (String c "")
  else if (n =? 9)%nat then String backslash "t"
  else if (n =? 10)%nat then String backslash "n"
  else if (n =? 13)%nat then String backslash "r"
  else if ((n <? 32) || (n =? 127))%nat then
    String backslash (String "x" (String (hex_digit (n / 16)) (String (hex_digit (n mod 16)) "")))
  else String c "".

Fixpoint repr_body (quote : ascii) (s : string) : string :=
  match s with
  | EmptyString => EmptyString
  | String c s' => repr_char quote c ++ repr_body quote s'
  end.

(** [repr(s)] of a [str]: single quotes, unless the text has a single
    quote and no double quote. *)
Definition repr_str (s : string) : string :=
  let quote :=
    if contains_char squote s && negb (contains_char dquote s) then dquote else squote in
  String quote (repr_body quote s ++ String quote "").

(** [repr(j)] *)
Fixpoint py_repr (j : json) : string :=
  match j with
  | JNull => "None"
  | JBool true => "True"
  | JBool false => "False"
  | JNum n => string_of_Z n
  | JStr s => repr_str s
  | JArr xs => "[" ++ join ", " (map py_repr xs) ++ "]"
  | JObj kvs =>
      "{" ++ join ", " (map (fun kv => match kv with
                                       | (k, v) => repr_str k ++ ": " ++ py_repr v
                                       end) kvs) ++ "}"
  end.

(** [str(j)], which is what an f-string placeholder [{j}] inserts. *)
Definition py_str (j : json) : string :=
  match j with
  | JStr s => s
  | _ => py_repr j
  end.

(** ** Python operations on JSON values *)

(** Truth value of [j] in a condition. *)
Definition truthy (j : json) : bool :=
  match j with
  | JNull => false
  | JBool b => b
  | JNum n => negb (n =? 0)%Z
  | JStr s => negb (String.eqb s "")
  | JArr xs => match xs with [] => false | _ => true end
  | JObj kvs => match kvs with [] => false | _ => true end
  end.

Definition is_None (j : json) : bool :=
  match j with
  | JNull => true
  | _ => false
  end.

(** [j == lit] for a string literal [lit]. *)
Definition eq_str (j : json) (lit : string) : bool :=
  match j with
  | JStr s => String.eqb s lit
  | _ => false
  end.

Fixpoint assoc (k : string) (kvs : list (string * json)) : option json :=
  match kvs with
  | [] => None
  | (k', v) :: rest => if String.eqb k k' then Some v else assoc k rest
  end.

(** [j.get(k, d)]: only a dict has [get]. *)
Definition py_get_default (j : json) (k : string) (d : json) : result json :=
  match j with
  | JObj kvs => Ok (match assoc k kvs with Some v => v | None => d end)
  | _ => Err AttributeError
  end.

(** [j.get(k)] *)
Definition py_get (j : json) (k : string) : result json :=
  py_get_default j k JNull.

(** [j[k]] for a string key [k]. *)
Definition py_index (j : json) (k : string) : result json :=
  match j with
  | JObj kvs => match assoc k kvs with Some v => Ok v | None => Err KeyError end
  | _ => Err TypeError
  end.

Fixpoint chars (s : string) : list json :=
  match s with
  | EmptyString => []
  | String c s' => JStr (String c "") :: chars s'
  end.

(** The elements a [for] loop over [j] visits: the items of a list, the
    keys of a dict, the characters of a string. *)
Definition py_iter (j : json) : result (list json) :=
  match j with
  | JArr xs => Ok xs
  | JObj kvs => Ok (map (fun kv => JStr (fst kv)) kvs)
  | JStr s => Ok (chars s)
  | _ => Err TypeError
  end.

(** ** The type map: a dict keyed by type names *)

Inductive pykey : Type :=
| KNone
| KNum (n : Z)
| KStr (s : string).

(** [hash(j)]: lists and dicts are unhashable; [True] and [False] hash and
    compare as [1] and [0]. *)
Definition hashable (j : json) : result pykey :=
  match j with
  | JNull => Ok KNone
  | JBool b => Ok (KNum (if b then 1 else 0))
  | JNum n => Ok (KNum n)
  | JStr s => Ok (KStr s)
  | JArr _ | JObj _ => Err TypeError
  end.

Definition pykey_eqb (a b : pykey) : bool :=
  match a, b with
  | KNone, KNone => true
  | KNum m, KNum n => (m =? n)%Z
  | KStr s, KStr t => String.eqb s t
  | _, _ => false
  end.

Definition pydict : Type := list (pykey * json).

(** [d[k] = v]: overwrite the binding of [k], or add one at the end. *)
Fixpoint dict_set (k : pykey) (v : json) (d : pydict) : pydict :=
  match d with
  | [] => [(k, v)]
  | (k', v') :: rest =>
      if pykey_eqb k k' then (k', v) :: rest else (k', v') :: dict_set k v rest
  end.

Fixpoint dict_lookup (k : pykey) (d : pydict) : option json :=
  match d with
  | [] => None
  | (k', v) :: rest => if pykey_eqb k k' then Some v else dict_lookup k rest
  end.

(** [d.get(k, default)] *)
Definition dict_get (d : pydict) (k : pykey) (default : json) : json :=
  match dict_lookup k d with
  | Some v => v
  | None => default
  end.

(** Truth value of the [type_map] argument, whose default is [None]. *)
Definition truthy_map (type_map : option pydict) : bool :=
  match type_map with
  | Some (_ :: _) => true
  | _ => false
  end.

(** ** Utility functions of main.py *)

(** [singularize(name)] on a [str]. *)
Definition singularize (name : string) : string :=
  if endswith name "ies" then drop_last 3 name ++ "y"
  else if endswith name "s" then capitalize (drop_last 1 name)
  else capitalize name.

(** [singularize(name)] on an arbitrary value: [endswith] exists on [str]
    only. *)
Definition py_singularize (name : json) : result string :=
  match name with
  | JStr s => Ok (singularize s)
  | _ => Err AttributeError
  end.

(** The inner type the two wrapper branches of [convert_type] make up when
    [ofType] is missing. *)
Definition fallback_inner (fallback_field_name : json) (type_map : option pydict)
  : result json :=
  if truthy fallback_field_name && truthy_map type_map then
    candidate <- py_singularize fallback_field_name ;;
    kind <- py_get_default
              (dict_get (match type_map with Some d => d | None => [] end)
                        (KStr candidate) (JObj []))
              "kind" (JStr "OBJECT") ;;
    Ok (JObj [("kind", kind); ("name", JStr candidate); ("ofType", JNull)])
  else
    Ok (JObj [("kind", JStr "OBJECT"); ("name", JStr "UNKNOWN"); ("ofType", JNull)]).

(** [convert_type(graphql_type, fallback_field_name, type_map)] *)
Fixpoint convert_type (fuel : nat) (graphql_type fallback_field_name : json)
    (type_map : option pydict) : result json :=
  match fuel with
  | O => Err RecursionError
  | S fuel' =>
      if is_None graphql_type then Ok (JStr "UNKNOWN")
      else
        kind <- py_get graphql_type "kind" ;;
        if eq_str kind "NON_NULL" then
          inner <- py_get graphql_type "ofType" ;;
          inner <- (if is_None inner
                    then fallback_inner fallback_field_name type_map
                    else Ok inner) ;;
          r <- convert_type fuel' inner fallback_field_name type_map ;;
          Ok (JStr (py_str r ++ "!"))
        else if eq_str kind "LIST" then
          inner <- py_get graphql_type "ofType" ;;
          inner <- (if is_None inner
                    then fallback_inner fallback_field_name type_map
                    else Ok inner) ;;
          r <- convert_type fuel' inner fallback_field_name type_map ;;
          Ok (JStr ("[" ++ py_str r ++ "]"))
        else
          name <- py_get graphql_type "name" ;;
          Ok (if truthy name then name else JStr "UNKNOWN")
  end.

(** [convert_field(field, type_map)] *)
Definition convert_field (fuel : nat) (field : json) (type_map : option pydict)
  : result string :=
  name <- py_index field "name" ;;
  ty <- py_index field "type" ;;
  r <- convert_type fuel ty name type_map ;;
  Ok (py_str name ++ ": " ++ py_str r).

(** [convert_input_field(input_field, type_map)] *)
Definition convert_input_field (fuel : nat) (input_field : json)
    (type_map : option pydict) : result string :=
  base <- convert_field fuel input_field type_map ;;
  default <- py_get input_field "defaultValue" ;;
  if negb (is_None default) then Ok (base ++ " = " ++ py_str default)
  else Ok base.

(** ** SDL generation *)

(** [{t.get('name'): t for t in types if t.get('name')}], filling the dict
    [acc] from left to right. *)
Fixpoint build_type_map (types : list json) (acc : pydict) : result pydict :=
  match types with
  | [] => Ok acc
  | t :: rest =>
      name <- py_get t "name" ;;
      if truthy name then
        k <- hashable name ;;
        build_type_map rest (dict_set k t acc)
      else build_type_map rest acc
  end.

(** [name.startswith(p)]: a method of [str] only. *)
Definition py_startswith (name : json) (p : string) : result bool :=
  match name with
  | JStr s => Ok (startswith s p)
  | _ => Err AttributeError
  end.

(** An item handed to [str.join] has to be a [str]. *)
Definition join_item (j : json) : result string :=
  match j with
  | JStr s => Ok s
  | _ => Err TypeError
  end.

(** [parts.append(s)] *)
Definition append (parts : list string) (s : string) : list string :=
  (parts ++ [s])%list.

Definition block (keyword name body : string) : string :=
  keyword ++ " " ++ name ++ " {" ++ nl ++ "  " ++ body ++ nl ++ "}".

(** One iteration of the loop [for t in types] of
    [generate_graphql_schema]: the new value of [schema_parts]. *)
Definition schema_step (fuel : nat) (type_map : option pydict)
    (schema_parts : list string) (t : json) : result (list string) :=
  name <- py_get t "name" ;;
  skip <- (if negb (truthy name) then Ok true else py_startswith name "__") ;;
  if skip then Ok schema_parts
  else
    fields <- py_get t "fields" ;;
    if negb (is_None fields) then
      fields <- py_index t "fields" ;;
      if negb (truthy fields) then Ok schema_parts
      else
        fs <- py_iter fields ;;
        lines <- mapM (fun f => convert_field fuel f type_map)
                      (filter (fun f => negb (is_None f)) fs) ;;
        Ok (append schema_parts (block "type" (py_str name) (join (nl ++ "  ") lines)))
    else
      input_fields <- py_get t "inputFields" ;;
      if negb (is_None input_fields) then
        input_fields <- py_get_default t "inputFields" (JArr []) ;;
        fs <- py_iter input_fields ;;
        lines <- mapM (fun f => convert_input_field fuel f type_map) fs ;;
        Ok (append schema_parts (block "input" (py_str name) (join (nl ++ "  ") lines)))
      else
        enum_values <- py_get t "enumValues" ;;
        if negb (is_None enum_values) then
          enum_values <- py_index t "enumValues" ;;
          if negb (truthy enum_values) then Ok schema_parts
          else
            enum_values <- py_get_default t "enumValues" (JArr []) ;;
            evs <- py_iter enum_values ;;
            names <- mapM (fun ev => py_index ev "name") evs ;;
            vals <- mapM join_item names ;;
            Ok (append schema_parts (block "enum" (py_str name) (join (nl ++ "  ") vals)))
        else
          Ok (append schema_parts ("scalar " ++ py_str name)).

(** The loop [for t in types], threading [schema_parts]. *)
Fixpoint schema_loop (fuel : nat) (type_map : option pydict)
    (types : list json) (schema_parts : list string) : result (list string) :=
  match types with
  | [] => Ok schema_parts
  | t :: rest =>
      schema_parts <- schema_step fuel type_map schema_parts t ;;
      schema_loop fuel type_map rest schema_parts
  end.

(** [generate_graphql_schema(introspection_data)] *)
Definition generate_graphql_schema (fuel : nat) (introspection_data : json)
  : result string :=
  data <- py_index introspection_data "data" ;;
  schema <- py_index data "__schema" ;;
  types <- py_index schema "types" ;;
  ts <- py_iter types ;;
  type_map <- build_type_map ts [] ;;
  schema_parts <- schema_loop fuel (Some type_map) ts [] ;;
  Ok (join (nl ++ nl) schema_parts ++ nl).

(** ** The conversion step of [main] *)

(** What [main] does with the parsed document: an exception of
    [generate_graphql_schema] ends the process through [sys.exit] before
    the output file is opened; otherwise the SDL text is written. *)
Inductive outcome : Type :=
| Exited (message : string) (e : pyexc)
| Written (sdl : string).

Definition main_convert (fuel : nat) (introspection_data : json) : outcome :=
  match generate_graphql_schema fuel introspection_data with
  | Err e => Exited "Error generating GraphQL schema: " e
  | Ok graphql_schema => Written graphql_schema
  end.

(** ** Helpers of the diagram *)

(** [get_base_type_name(graphql_type)] *)
Fixpoint get_base_type_name (fuel : nat) (graphql_type : json) : result json :=
  match fuel with
  | O => Err RecursionError
  | S fuel' =>
      if is_None graphql_type then Ok JNull
      else
        of_type <- py_get graphql_type "ofType" ;;
        if truthy of_type then
          inner <- py_index graphql_type "ofType" ;;
          get_base_type_name fuel' inner
        else py_get graphql_type "name"
  end.

(** [is_list_type(graphql_type)] *)
Fixpoint is_list_type (fuel : nat) (graphql_type : json) : result bool :=
  match fuel with
  | O => Err RecursionError
  | S fuel' =>
      if is_None graphql_type then Ok false
      else
        kind <- py_get graphql_type "kind" ;;
        if eq_str kind "LIST" then Ok true
        else
          of_type <- py_get graphql_type "ofType" ;;
          if truthy of_type then
            inner <- py_index graphql_type "ofType" ;;
            is_list_type fuel' inner
          else Ok false
  end.

(** ** The diagram

    The [graphviz.Digraph] is represented by the calls it receives, in
    order: [dot.node(name, label=...)] and
    [dot.edge(tail, head, label=...)].  Its constant attributes (the
    graph name, the format, the node shape) are left out. *)

Record digraph : Type := {
  graph_nodes : list (string * string);
  graph_edges : list (string * json * string)
}.

(** A loop that threads a value and stops at the first exception. *)
Fixpoint foldM {A S : Type} (step : S -> A -> result S) (xs : list A) (s : S)
  : result S :=
  match xs with
  | [] => Ok s
  | x :: xs' =>
      s' <- step s x ;;
      foldM step xs' s'
  end.

(** [len(j)] *)
Definition py_len (j : json) : result nat :=
  match j with
  | JArr xs => Ok (List.length xs)
  | JObj kvs => Ok (List.length kvs)
  | JStr s => Ok (String.length s)
  | _ => Err TypeError
  end.

(** The elements a loop over [j[:n]] visits.  A dict cannot be sliced: the
    slice is not hashable ([TypeError]; from Python 3.12 on a slice is
    hashable and the exception is [KeyError]). *)
Definition py_take (n : nat) (j : json) : result (list json) :=
  match j with
  | JArr xs => Ok (firstn n xs)
  | JStr s => Ok (chars (substring 0 n s))
  | _ => Err TypeError
  end.

Definition string_of_nat (n : nat) : string := string_of_Z (Z.of_nat n).

Definition BUILT_IN_SCALARS : list pykey :=
  [KStr "ID"; KStr "String"; KStr "Int"; KStr "Float"; KStr "Boolean"; KStr "Date"].

(** [k in d] for a dict [d] *)
Definition dict_mem (k : pykey) (d : pydict) : bool :=
  match dict_lookup k d with
  | Some _ => true
  | None => false
  end.

(** The category of a type and the list its label is made from. *)
Definition node_category (t : json) : result (string * json) :=
  fields <- py_get t "fields" ;;
  if negb (is_None fields) then
    fields <- py_get_default t "fields" (JArr []) ;;
    Ok ("object", fields)
  else
    input_fields <- py_get t "inputFields" ;;
    if negb (is_None input_fields) then
      fields <- py_get_default t "inputFields" (JArr []) ;;
      Ok ("input", fields)
    else
      enum_values <- py_get t "enumValues" ;;
      if negb (is_None enum_values) then
        fields <- py_get_default t "enumValues" (JArr []) ;;
        Ok ("enum", fields)
      else Ok ("scalar", JArr []).

Definition color_of (category : string) : string :=
  if String.eqb category "object" then "lightblue"
  else if String.eqb category "input" then "lightgreen"
  else if String.eqb category "enum" then "gold"
  else "lightgray".

Definition dq : string := String dquote "".

Definition table_open : string :=
  "<TABLE BORDER=" ++ dq ++ "0" ++ dq ++ " CELLBORDER=" ++ dq ++ "1" ++ dq
  ++ " CELLSPACING=" ++ dq ++ "0" ++ dq ++ ">".

Definition header_row (color name : string) : string :=
  "<TR><TD BGCOLOR=" ++ dq ++ color ++ dq ++ "><B>" ++ name ++ "</B></TD></TR>".

Definition left_row (text : string) : string :=
  "<TR><TD ALIGN='LEFT'>" ++ text ++ "</TD></TR>".

(** The rows of the label of one type: [label_lines] before the join.  The
    field label is the expression of [convert_field], written out a second
    time in the source. *)
Definition node_label_lines (fuel : nat) (type_map : option pydict) (t : json)
    (name : string) : result (list string) :=
  cf <- node_category t ;;
  let category := fst cf in
  let fields := snd cf in
  let label_lines := [table_open; header_row (color_of category) name] in
  label_lines <-
    (if String.eqb category "object" || String.eqb category "input" then
       count <- py_len fields ;;
       fs <- py_take 5 fields ;;
       rows <- mapM (fun f =>
                       field_label <- convert_field fuel f type_map ;;
                       Ok (left_row field_label)) fs ;;
       let label_lines := (label_lines ++ rows)%list in
       if (5 <? count)%nat then
         let more := left_row ("... (" ++ string_of_nat (count - 5) ++ " more)") in
         Ok (label_lines ++ [more])%list
       else Ok label_lines
     else if String.eqb category "enum" then
       evs <- py_iter fields ;;
       enum_names <- mapM (fun ev => py_index ev "name") evs ;;
       enum_text <-
         (if (10 <? List.length enum_names)%nat then
            vals <- mapM join_item (firstn 10 enum_names) ;;
            Ok (join ", " vals ++ ", ... ("
                ++ string_of_nat (List.length enum_names - 10) ++ " more)")
          else
            vals <- mapM join_item enum_names ;;
            Ok (join ", " vals)) ;;
       let values := left_row ("Values: " ++ enum_text) in
       Ok (label_lines ++ [values])%list
     else Ok label_lines) ;;
  Ok (label_lines ++ ["</TABLE>"])%list.

(** One iteration of the loop that creates the nodes. *)
Definition node_step (fuel : nat) (type_map : option pydict)
    (nodes : list (string * string)) (t : json) : result (list (string * string)) :=
  name <- py_get t "name" ;;
  skip <- (if negb (truthy name) then Ok true else py_startswith name "__") ;;
  if skip then Ok nodes
  else
    label_lines <- node_label_lines fuel type_map t (py_str name) ;;
    let html_label := join "" label_lines in
    let label := "<" ++ html_label ++ ">" in
    Ok (nodes ++ [(py_str name, label)])%list.

(** One iteration of the loop over the fields of a type, in the loop that
    creates the edges. *)
Definition edge_field_step (fuel : nat) (type_map : pydict) (src_name : string)
    (edges : list (string * json * string)) (f : json)
  : result (list (string * json * string)) :=
  ty <- py_index f "type" ;;
  base <- get_base_type_name fuel ty ;;
  draw <- (if truthy base then
             k <- hashable base ;;
             Ok (negb (existsb (pykey_eqb k) BUILT_IN_SCALARS)
                 && dict_mem k type_map
                 && negb (pykey_eqb k (KStr src_name)))
           else Ok false) ;;
  if draw then
    ty <- py_index f "type" ;;
    is_list <- is_list_type fuel ty ;;
    let multiplicity := if is_list then "[*]" else "[1]" in
    name <- py_index f "name" ;;
    let edge_label := py_str name ++ " " ++ multiplicity in
    Ok (edges ++ [(src_name, base, edge_label)])%list
  else Ok edges.

(** One iteration of the loop that creates the edges. *)
Definition edge_step (fuel : nat) (type_map : pydict)
    (edges : list (string * json * string)) (t : json)
  : result (list (string * json * string)) :=
  src_name <- py_get t "name" ;;
  skip <- (if negb (truthy src_name) then Ok true
           else py_startswith src_name "__") ;;
  if skip then Ok edges
  else
    fields <- py_get t "fields" ;;
    fields <- (if truthy fields then Ok fields else py_get t "inputFields") ;;
    if truthy fields then
      fs <- py_iter fields ;;
      foldM (edge_field_step fuel type_map (py_str src_name)) fs edges
    else Ok edges.

(** [generate_graphviz_diagram(introspection_data)] *)
Definition generate_graphviz_diagram (fuel : nat) (introspection_data : json)
  : result digraph :=
  data <- py_index introspection_data "data" ;;
  schema <- py_index data "__schema" ;;
  types <- py_index schema "types" ;;
  ts <- py_iter types ;;
  type_map <- build_type_map ts [] ;;
  nodes <- foldM (node_step fuel (Some type_map)) ts [] ;;
  edges <- foldM (edge_step fuel type_map) ts [] ;;
  Ok {| graph_nodes := nodes; graph_edges := edges |}.

(** * Specification

    The notions the properties are stated with. *)

(** ** Recursion budget

    A run [completes] when it ends with a value or with an exception of
    the program, that is, when the budget was not exhausted.  A
    computation is [stable] when a run that completes is not changed by a
    larger budget. *)

Definition completes {A : Type} (r : result A) : Prop :=
  r <> Err RecursionError.

Definition stable {A : Type} (f : nat -> result A) : Prop :=
  forall n m, n <= m -> completes (f n) -> f m = f n.

(** ** TypeRef chains *)

(** A TypeRef as the specification's data model has it: a named leaf whose
    name may be absent, or a wrapper around an inner TypeRef. *)
Inductive TypeRef : Type :=
| Named (name : option string)
| NonNull (ofType : TypeRef)
| ListOf (ofType : TypeRef).

(** The structural mapping, in the specification's words: a wrapper adds
    its decoration to the resolution of what it wraps, a leaf yields its
    name, or [UNKNOWN] when it has none. *)
Fixpoint resolve (t : TypeRef) : string :=
  match t with
  | Named (Some name) => name
  | Named None => "UNKNOWN"
  | NonNull x => resolve x ++ "!"
  | ListOf x => "[" ++ resolve x ++ "]"
  end.

(** The [typeRef] argument itself may be absent. *)
Definition resolve_arg (typeRef : option TypeRef) : string :=
  match typeRef with
  | Some t => resolve t
  | None => "UNKNOWN"
  end.

Fixpoint depth (t : TypeRef) : nat :=
  match t with
  | Named _ => 0
  | NonNull x | ListOf x => S (depth x)
  end.

Definition depth_arg (typeRef : option TypeRef) : nat :=
  match typeRef with
  | Some t => depth t
  | None => 0
  end.

Definition name_value (name : option string) : json :=
  match name with
  | Some s => JStr s
  | None => JNull
  end.

Definition is_wrapper_kind (kind : json) : bool :=
  eq_str kind "NON_NULL" || eq_str kind "LIST".

(** [represents t j]: the JSON value [j] is a well-formed chain, with the
    shape [t].  A wrapper has its [ofType]; a leaf has a kind that is not
    a wrapper kind and either no name ([null] or no such key) or a name,
    which as a GraphQL name is not empty. *)
Inductive represents : TypeRef -> json -> Prop :=
| rep_named kvs kind name :
    py_get (JObj kvs) "kind" = Ok kind ->
    is_wrapper_kind kind = false ->
    py_get (JObj kvs) "name" = Ok (name_value name) ->
    name <> Some "" ->
    represents (Named name) (JObj kvs)
| rep_non_null kvs inner t :
    py_get (JObj kvs) "kind" = Ok (JStr "NON_NULL") ->
    py_get (JObj kvs) "ofType" = Ok inner ->
    represents t inner ->
    represents (NonNull t) (JObj kvs)
| rep_list kvs inner t :
    py_get (JObj kvs) "kind" = Ok (JStr "LIST") ->
    py_get (JObj kvs) "ofType" = Ok inner ->
    represents t inner ->
    represents (ListOf t) (JObj kvs).

Inductive represents_arg : option TypeRef -> json -> Prop :=
| rep_absent : represents_arg None JNull
| rep_present t j : represents t j -> represents_arg (Some t) j.

(** The number of [ofType] links below [j]. *)
Fixpoint chain_depth (j : json) : nat :=
  match j with
  | JObj kvs =>
      (fix along (kvs : list (string * json)) : nat :=
         match kvs with
         | [] => 0
         | (k, v) :: rest =>
             if String.eqb "ofType" k then S (chain_depth v) else along rest
         end) kvs
  | _ => 0
  end.

(** ** The fallback for a wrapper without [ofType] *)

(** The dict the fallback makes up. *)
Definition made_up (kind : json) (name : string) : json :=
  JObj [("kind", kind); ("name", JStr name); ("ofType", JNull)].

(** What a made-up leaf resolves to. *)
Definition leaf_text (name : string) : string :=
  if String.eqb name "" then "UNKNOWN" else name.

(** A type map whose values are all dicts with a kind that is not a
    wrapper kind: named types, as an introspection result lists them. *)
Definition is_named_type (t : json) : bool :=
  match py_get t "kind" with
  | Ok kind => negb (is_wrapper_kind kind)
  | Err _ => false
  end.

Definition named_types_only (type_map : option pydict) : bool :=
  match type_map with
  | Some d => forallb (fun kv => is_named_type (snd kv)) d
  | None => true
  end.

(** No value of the type map is a dict whose kind is a wrapper kind. *)
Definition not_wrapper (t : json) : bool :=
  match py_get t "kind" with
  | Ok kind => negb (is_wrapper_kind kind)
  | Err _ => true
  end.

Definition no_wrapper_kinds (type_map : option pydict) : bool :=
  match type_map with
  | Some d => forallb (fun kv => not_wrapper (snd kv)) d
  | None => true
  end.

(** The candidate the name heuristic proposes, when a guess is possible:
    a non-empty field name and a non-empty type map. *)
Definition candidate_of (fallback_field_name : json) (type_map : option pydict)
  : option string :=
  match fallback_field_name with
  | JStr s =>
      if negb (String.eqb s "") && truthy_map type_map then Some (singularize s)
      else None
  | _ => None
  end.

(** [NON_NULL] appends [!], [LIST] puts brackets around. *)
Definition decorate (kind text : string) : string :=
  if String.eqb kind "NON_NULL" then text ++ "!" else "[" ++ text ++ "]".

(** ** Documents and declarations *)

(** The value at a path of keys, when every step is an object that has
    the key. *)
Fixpoint lookup_path (path : list string) (doc : json) : option json :=
  match path with
  | [] => Some doc
  | k :: rest =>
      match doc with
      | JObj kvs =>
          match assoc k kvs with
          | Some v => lookup_path rest v
          | None => None
          end
      | _ => None
      end
  end.

(** The text [b] is a declaration of the type [name]. *)
Definition declares (b name : string) : Prop :=
  exists keyword rest,
    In keyword ["type"; "input"; "enum"; "scalar"]
    /\ b = keyword ++ " " ++ name ++ rest.

(** The text [b] is a declaration of [t], an element of the [types] array
    with a name that is not internal. *)
Definition declaration_of (t : json) (b : string) : Prop :=
  exists name,
    py_get t "name" = Ok (JStr name)
    /\ name <> ""
    /\ startswith name "__" = false
    /\ declares b name.

(** What one element of [types] contributes by itself: the body of the
    loop run on it with an empty [schema_parts] yields nothing, or one
    declaration of this element. *)
Definition own_blocks (fuel : nat) (type_map : pydict) (t : json)
    (bs : list string) : Prop :=
  schema_step fuel (Some type_map) [] t = Ok bs
  /\ (bs = [] \/ exists b, bs = [b] /\ declaration_of t b).

(** ** Names *)

Definition is_letter (c : ascii) : bool := is_upper c || is_lower c.

Definition starts_upper (s : string) : bool :=
  match s with
  | String c _ => is_upper c
  | EmptyString => false
  end.

(** ** Example data *)

Definition doc_of_types (types : list json) : json :=
  JObj [("data", JObj [("__schema", JObj [("types", JArr types)])])].

(** A wrapper without [ofType], and two type maps. *)
Definition non_null_cut : json := JObj [("kind", JStr "NON_NULL"); ("ofType", JNull)].
Definition list_cut : json := JObj [("kind", JStr "LIST"); ("ofType", JNull)].
Definition user_type : json := JObj [("name", JStr "User"); ("kind", JStr "OBJECT")].
Definition user_map : pydict := [(KStr "User", user_type)].
Definition list_named_post : json := JObj [("name", JStr "Post"); ("kind", JStr "LIST")].
Definition looping_map : pydict := [(KStr "Post", list_named_post)].

Definition query_type : json :=
  JObj [("name", JStr "Query");
        ("fields", JArr [JObj [("name", JStr "posts"); ("type", list_cut)]])].
Definition looping_doc : json := doc_of_types [list_named_post; query_type].

Definition nested_cut : json :=
  JObj [("kind", JStr "NON_NULL");
        ("ofType", JObj [("kind", JStr "LIST"); ("ofType", non_null_cut)])].

(** A non-null list of non-null [Post]. *)
Definition post_list_ref : json :=
  JObj [("kind", JStr "NON_NULL");
        ("ofType",
         JObj [("kind", JStr "LIST");
               ("ofType",
                JObj [("kind", JStr "NON_NULL");
                      ("ofType", JObj [("kind", JStr "OBJECT");
                                       ("name", JStr "Post")])])])].

(** The end-to-end scenario of the specification: one object type [Post]
    with a field [id] of type [ID!]. *)
Definition post_doc : json :=
  doc_of_types
    [JObj [("name", JStr "Post");
           ("fields",
            JArr [JObj [("name", JStr "id");
                        ("type", JObj [("kind", JStr "NON_NULL");
                                       ("ofType", JObj [("kind", JStr "SCALAR");
                                                        ("name", JStr "ID")])])]])]].

Definition empty_input_doc : json :=
  doc_of_types [JObj [("name", JStr "Empty"); ("inputFields", JArr [])]].

Definition empty_object_doc : json :=
  doc_of_types [JObj [("name", JStr "Empty"); ("fields", JArr [])]].

Definition empty_enum_doc : json :=
  doc_of_types [JObj [("name", JStr "Empty"); ("enumValues", JArr [])]].

(** A document with an internal type, an object type, an object type
    without fields, an enum type and a scalar type. *)
Definition blog_doc : json :=
  doc_of_types
    [JObj [("name", JStr "__Schema"); ("fields", JArr [])];
     JObj [("name", JStr "Post");
           ("fields",
            JArr [JObj [("name", JStr "tags");
                        ("type", JObj [("kind", JStr "LIST"); ("ofType", JNull)])]])];
     JObj [("name", JStr "Empty"); ("fields", JArr [])];
     JObj [("name", JStr "Role");
           ("enumValues", JArr [JObj [("name", JStr "ADMIN")];
                                JObj [("name", JStr "USER")]])];
     JObj [("name", JStr "Tag")]].

Definition blog_sdl : string :=
  "type Post {" ++ nl ++ "  tags: [Tag]" ++ nl ++ "}" ++ nl ++ nl ++
  "enum Role {" ++ nl ++ "  ADMIN" ++ nl ++ "  USER" ++ nl ++ "}" ++ nl ++ nl ++
  "scalar Tag" ++ nl.

(** ** Chains as an introspection result has them *)

(** [introspected t j]: a well-formed chain whose leaf has a kind and no
    [ofType] of its own. *)
Inductive introspected : TypeRef -> json -> Prop :=
| intro_named kvs kind name v :
    py_get (JObj kvs) "kind" = Ok (JStr kind) ->
    is_wrapper_kind (JStr kind) = false ->
    py_get (JObj kvs) "name" = Ok (name_value name) ->
    name <> Some "" ->
    py_get (JObj kvs) "ofType" = Ok v ->
    truthy v = false ->
    introspected (Named name) (JObj kvs)
| intro_non_null kvs inner t :
    py_get (JObj kvs) "kind" = Ok (JStr "NON_NULL") ->
    py_get (JObj kvs) "ofType" = Ok inner ->
    introspected t inner ->
    introspected (NonNull t) (JObj kvs)
| intro_list kvs inner t :
    py_get (JObj kvs) "kind" = Ok (JStr "LIST") ->
    py_get (JObj kvs) "ofType" = Ok inner ->
    introspected t inner ->
    introspected (ListOf t) (JObj kvs).

(** The name of the innermost type. *)
Fixpoint leaf_name (t : TypeRef) : option string :=
  match t with
  | Named name => name
  | NonNull x | ListOf x => leaf_name x
  end.

(** Whether a [LIST] wrapper occurs. *)
Fixpoint has_list (t : TypeRef) : bool :=
  match t with
  | Named _ => false
  | NonNull x => has_list x
  | ListOf _ => true
  end.

(** The decorations of a chain around a text: [!] for [NON_NULL],
    brackets for [LIST]. *)
Fixpoint decorations (t : TypeRef) (text : string) : string :=
  match t with
  | Named _ => text
  | NonNull x => decorations x text ++ "!"
  | ListOf x => "[" ++ decorations x text ++ "]"
  end.

(** What the SDL shows for a base type name. *)
Definition base_text (base : json) : string :=
  if truthy base then py_str base else "UNKNOWN".

(** ** More example data *)

(** The chain of [[User!]!]. *)
Definition user_list_ref : json :=
  JObj [("kind", JStr "NON_NULL"); ("name", JNull);
        ("ofType",
         JObj [("kind", JStr "LIST"); ("name", JNull);
               ("ofType",
                JObj [("kind", JStr "NON_NULL"); ("name", JNull);
                      ("ofType", JObj [("kind", JStr "OBJECT");
                                       ("name", JStr "User");
                                       ("ofType", JNull)])])])].

Definition user_list_shape : TypeRef :=
  NonNull (ListOf (NonNull (Named (Some "User")))).


(** ** More on names *)

(** Whether an upper-case ASCII letter occurs. *)
(** Text whose characters are all in ASCII (code below 128). *)
Fixpoint is_ascii (s : string) : bool :=
  match s with
  | EmptyString => true
  | String c s' => (nat_of_ascii c <? 128)%nat && is_ascii s'
  end.

Fixpoint has_upper (s : string) : bool :=
  match s with
  | EmptyString => false
  | String c s' => is_upper c || has_upper s'
  end.

(** The last element of [types] named [name], which is what a dict
    comprehension keeps of several. *)
Fixpoint last_named (name : string) (types : list json) : option json :=
  match types with
  | [] => None
  | t :: rest =>
      match last_named name rest with
      | Some t' => Some t'
      | None =>
          match py_get t "name" with
          | Ok (JStr s) =>
              if String.eqb s name && negb (String.eqb s "") then Some t else None
          | _ => None
          end
      end
  end.


(** ** Classification of the types *)

(** Whether [t] has the attribute [k] with a value that is not null. *)
Definition present (t : json) (k : string) : bool :=
  match py_get t k with
  | Ok v => negb (is_None v)
  | Err _ => false
  end.

Definition value_of (t : json) (k : string) : json :=
  match py_get t k with
  | Ok v => v
  | Err _ => JNull
  end.

(** The name of a type, when it is a string that is neither empty nor
    internal. *)
Definition proper_name (t : json) : option string :=
  match py_get t "name" with
  | Ok (JStr s) => if String.eqb s "" || startswith s "__" then None else Some s
  | _ => None
  end.

Definition proper_names (types : list json) : list string :=
  flat_map (fun t => match proper_name t with
                     | Some name => [name]
                     | None => []
                     end) types.

(** The keyword of a declaration: [fields] before [inputFields] before
    [enumValues]. *)
Definition sdl_keyword (t : json) : string :=
  if present t "fields" then "type"
  else if present t "inputFields" then "input"
  else if present t "enumValues" then "enum"
  else "scalar".

(** The types that get a declaration. *)
Definition emitted (t : json) : bool :=
  match proper_name t with
  | None => false
  | Some _ =>
      if present t "fields" then truthy (value_of t "fields")
      else if present t "inputFields" then true
      else if present t "enumValues" then truthy (value_of t "enumValues")
      else true
  end.

(** The text [b] is a declaration of [t] in the form of its category: the
    line [scalar Name], or a block with the keyword of the category. *)
Definition declared_as (t : json) (b : string) : Prop :=
  exists name,
    proper_name t = Some name
    /\ if String.eqb (sdl_keyword t) "scalar"
       then b = "scalar " ++ name
       else exists body, b = block (sdl_keyword t) name body.

(** The declaration [t] yields by itself: what the body of the loop
    appends to an empty [schema_parts]. *)
Definition own_declaration (fuel : nat) (type_map : pydict) (t : json)
    (b : string) : Prop :=
  schema_step fuel (Some type_map) [] t = Ok [b] /\ declared_as t b.


(** A document whose types are one of each category, an empty object type
    and an internal type. *)
Definition shop_types : list json :=
  [JObj [("name", JStr "__Type"); ("fields", JArr [])];
   JObj [("name", JStr "Item");
         ("fields",
          JArr [JObj [("name", JStr "owner");
                      ("type", JObj [("kind", JStr "OBJECT");
                                     ("name", JStr "User")])];
                JObj [("name", JStr "tags");
                      ("type",
                       JObj [("kind", JStr "LIST");
                             ("ofType", JObj [("kind", JStr "SCALAR");
                                              ("name", JStr "String")])])]])];
   JObj [("name", JStr "User"); ("fields", JArr [])];
   JObj [("name", JStr "ItemInput");
         ("inputFields",
          JArr [JObj [("name", JStr "count");
                      ("type", JObj [("kind", JStr "SCALAR"); ("name", JStr "Int")]);
                      ("defaultValue", JStr "1")]])];
   JObj [("name", JStr "Size");
         ("enumValues", JArr [JObj [("name", JStr "S")]; JObj [("name", JStr "L")]])];
   JObj [("name", JStr "Date")]].

Definition shop_doc : json := doc_of_types shop_types.

Definition shop_sdl : string :=
  "type Item {" ++ nl ++ "  owner: User" ++ nl ++ "  tags: [String]" ++ nl ++ "}"
  ++ nl ++ nl ++
  "input ItemInput {" ++ nl ++ "  count: Int = 1" ++ nl ++ "}" ++ nl ++ nl ++
  "enum Size {" ++ nl ++ "  S" ++ nl ++ "  L" ++ nl ++ "}" ++ nl ++ nl ++
  "scalar Date" ++ nl.


(** ** Edges of the diagram *)

(** What holds of an edge: its tail is a type of the array with a proper
    name; its head is the name of a type of the array, is not a built-in
    scalar and is not the tail; its label ends in a multiplicity. *)
Definition edge_ok (types : list json) (e : string * json * string) : Prop :=
  match e with
  | (tail, head, label) =>
      (exists t, In t types /\ proper_name t = Some tail)
      /\ (exists b t',
             head = JStr b
             /\ In t' types
             /\ py_get t' "name" = Ok (JStr b)
             /\ b <> tail
             /\ ~ In (KStr b) BUILT_IN_SCALARS)
      /\ (exists field_name,
             label = field_name ++ " [1]" \/ label = field_name ++ " [*]")
  end.

(** The same before the keys of the type map are known to be strings. *)
Definition edge_drawn (type_map : pydict) (e : string * json * string) : Prop :=
  match e with
  | (tail, head, label) =>
      (exists k,
          hashable head = Ok k
          /\ existsb (pykey_eqb k) BUILT_IN_SCALARS = false
          /\ dict_mem k type_map = true
          /\ pykey_eqb k (KStr tail) = false)
      /\ (exists field_name,
             label = field_name ++ " [1]" \/ label = field_name ++ " [*]")
  end.

Definition keys_are_strings (d : pydict) : Prop :=
  Forall (fun kv => exists s, fst kv = KStr s) d.

(** An object type with seven fields. *)
Definition wide_type : json :=
  JObj [("name", JStr "Wide");
        ("fields",
         JArr (map (fun n =>
                      JObj [("name", JStr n);
                            ("type", JObj [("kind", JStr "SCALAR");
                                           ("name", JStr "Int")])])
                   ["a"; "b"; "c"; "d"; "e"; "f"; "g"]))].


(** The diagram of [shop_doc]. *)
Definition shop_graph : digraph :=
  Eval vm_compute in
    match generate_graphviz_diagram 3 shop_doc with
    | Ok g => g
    | Err _ => {| graph_nodes := []; graph_edges := [] |}
    end.

(** ** Well-formed documents *)

(** A field whose name is there and whose type is a well-formed chain of
    depth below [d]. *)
Definition field_ok (d : nat) (f : json) : Prop :=
  exists name ty t,
    py_index f "name" = Ok name
    /\ py_index f "type" = Ok ty
    /\ represents t ty
    /\ depth t < d.

Definition enum_value_ok (ev : json) : Prop :=
  exists s, py_index ev "name" = Ok (JStr s).

Definition name_ok (t : json) : Prop :=
  py_get t "name" = Ok JNull \/ exists s, py_get t "name" = Ok (JStr s).

(** A type of one of the four categories, with a name that is a string or
    null and lists that hold what the category asks for.  An object type
    may have null entries among its fields. *)
Inductive type_ok (d : nat) : json -> Prop :=
| ok_object t fs :
    name_ok t ->
    py_get t "fields" = Ok (JArr fs) ->
    Forall (fun f => f = JNull \/ field_ok d f) fs ->
    type_ok d t
| ok_input t fs :
    name_ok t ->
    py_get t "fields" = Ok JNull ->
    py_get t "inputFields" = Ok (JArr fs) ->
    Forall (field_ok d) fs ->
    type_ok d t
| ok_enum t evs :
    name_ok t ->
    py_get t "fields" = Ok JNull ->
    py_get t "inputFields" = Ok JNull ->
    py_get t "enumValues" = Ok (JArr evs) ->
    Forall enum_value_ok evs ->
    type_ok d t
| ok_scalar t :
    name_ok t ->
    py_get t "fields" = Ok JNull ->
    py_get t "inputFields" = Ok JNull ->
    py_get t "enumValues" = Ok JNull ->
    type_ok d t.

(** * The object store

    The functions above compute on JSON values.  In Python a dict or a
    list is an object of the heap and a value of such a type is a
    reference to it: [d[k] = v] and [xs.append(v)] change the object for
    everyone who holds a reference, and a call can leave the objects of
    its caller changed.  To state what a run changes, the conversion is
    embedded a second time in this module, on references into an explicit
    store.  A function that creates or updates an object is a state
    transformer ([M]); an operation that only reads is a function of the
    store.  The functions of the conversion do no input or output and use
    no global variable (files and the command line are the part of
    [main]), so the objects are all the state there is.  The functions
    have the names they have in [main.py]. *)

Module Store.

Definition loc : Type := nat.

(** A Python value: [None], a [bool], an [int], a [str], or a reference
    to an object of the store. *)
Inductive value : Type :=
| VNone
| VBool (b : bool)
| VNum (n : Z)
| VStr (s : string)
| VRef (l : loc).

(** The mutable objects: a dict, with its entries in insertion order, and
    a list. *)
Inductive object : Type :=
| ODict (entries : list (pykey * value))
| OList (items : list value).

(** The store: the object at location [l] is the [l]-th element.  A
    location that holds no object stands for an object of another type:
    it is true in a condition and has none of the methods used here. *)
Definition store : Type := list object.

(** ** Computations that change the store *)

Definition M (A : Type) : Type := store -> store * result A.

Definition ret {A : Type} (a : A) : M A := fun s => (s, Ok a).

Definition raise {A : Type} (e : pyexc) : M A := fun s => (s, Err e).

(** An operation that reads the store and leaves it as it is. *)
Definition read {A : Type} (f : store -> result A) : M A := fun s => (s, f s).

Definition bindM {A B : Type} (m : M A) (k : A -> M B) : M B :=
  fun s =>
    match m s with
    | (s', Ok a) => k a s'
    | (s', Err e) => (s', Err e)
    end.

Declare Scope store_scope.
Delimit Scope store_scope with store.
Notation "x <- m ;; k" := (bindM m (fun x => k))
  (at level 61, m at next level, right associativity) : store_scope.
Local Open Scope store_scope.

Fixpoint traverse {A B : Type} (f : A -> M B) (xs : list A) : M (list B) :=
  match xs with
  | [] => ret []
  | x :: xs' =>
      y <- f x ;;
      ys <- traverse f xs' ;;
      ret (y :: ys)
  end.

(** A new object, at the first free location. *)
Definition alloc (o : object) : M value :=
  fun s => ((s ++ [o])%list, Ok (VRef (List.length s))).

(** The store with [o] in the place of the object at [l]. *)
Fixpoint update (l : loc) (o : object) (s : store) : store :=
  match s, l with
  | [], _ => []
  | _ :: rest, O => o :: rest
  | o' :: rest, S l' => o' :: update l' o rest
  end.

(** ** Operations on values *)

Definition deref (v : value) (s : store) : option object :=
  match v with
  | VRef l => nth_error s l
  | _ => None
  end.

Fixpoint lookup (k : pykey) (entries : list (pykey * value)) : option value :=
  match entries with
  | [] => None
  | (k', v) :: rest => if pykey_eqb k k' then Some v else lookup k rest
  end.

(** The entries after [d[k] = v]: the binding of [k] overwritten, or a
    new one at the end. *)
Fixpoint set_entry (k : pykey) (v : value) (entries : list (pykey * value))
  : list (pykey * value) :=
  match entries with
  | [] => [(k, v)]
  | (k', v') :: rest =>
      if pykey_eqb k k' then (k', v) :: rest else (k', v') :: set_entry k v rest
  end.

(** Truth value of [v] in a condition. *)
Definition truthy (v : value) (s : store) : bool :=
  match v with
  | VNone => false
  | VBool b => b
  | VNum n => negb (n =? 0)%Z
  | VStr x => negb (String.eqb x "")
  | VRef _ =>
      match deref v s with
      | Some (ODict []) | Some (OList []) => false
      | _ => true
      end
  end.

Definition test (v : value) : M bool := fun s => (s, Ok (truthy v s)).

Definition is_None (v : value) : bool :=
  match v with
  | VNone => true
  | _ => false
  end.

(** [v == lit] for a string literal [lit]. *)
Definition eq_str (v : value) (lit : string) : bool :=
  match v with
  | VStr x => String.eqb x lit
  | _ => false
  end.

(** [v.get(k, d)]: only a dict has [get]. *)
Definition get_default (v : value) (k : string) (d : value) (s : store)
  : result value :=
  match deref v s with
  | Some (ODict entries) =>
      Ok (match lookup (KStr k) entries with Some x => x | None => d end)
  | _ => Err AttributeError
  end.

(** [v.get(k)] *)
Definition get (v : value) (k : string) (s : store) : result value :=
  get_default v k VNone s.

(** [v[k]] for a string key [k]. *)
Definition index (v : value) (k : string) (s : store) : result value :=
  match deref v s with
  | Some (ODict entries) =>
      match lookup (KStr k) entries with
      | Some x => Ok x
      | None => Err KeyError
      end
  | _ => Err TypeError
  end.

Fixpoint chars (x : string) : list value :=
  match x with
  | EmptyString => []
  | String c x' => VStr (String c "") :: chars x'
  end.

Definition key_value (k : pykey) : value :=
  match k with
  | KNone => VNone
  | KNum n => VNum n
  | KStr x => VStr x
  end.

(** The elements a [for] loop over [v] visits: the items of a list, the
    keys of a dict, the characters of a string. *)
Definition iter (v : value) (s : store) : result (list value) :=
  match v with
  | VStr x => Ok (chars x)
  | _ =>
      match deref v s with
      | Some (OList items) => Ok items
      | Some (ODict entries) => Ok (map (fun e => key_value (fst e)) entries)
      | None => Err TypeError
      end
  end.

(** [hash(v)]: lists and dicts are unhashable. *)
Definition hashable (v : value) : result pykey :=
  match v with
  | VNone => Ok KNone
  | VBool b => Ok (KNum (if b then 1 else 0))
  | VNum n => Ok (KNum n)
  | VStr x => Ok (KStr x)
  | VRef _ => Err TypeError
  end.

(** [repr] of a key.  A key [True] or [False] is the number it equals
    ([hashable]) and is printed as this number; only [type_map] can have
    such a key, and [type_map] is never printed. *)
Definition repr_key (k : pykey) : string :=
  match k with
  | KNone => "None"
  | KNum n => string_of_Z n
  | KStr x => repr_str x
  end.

(** [repr(v)], which follows the references under [v]; [limit] is the
    depth at which the interpreter gives up with [RecursionError]. *)
Fixpoint repr (limit : nat) (s : store) (v : value) : result string :=
  match v with
  | VNone => Ok "None"
  | VBool true => Ok "True"
  | VBool false => Ok "False"
  | VNum n => Ok (string_of_Z n)
  | VStr x => Ok (repr_str x)
  | VRef l =>
      match limit with
      | O => Err RecursionError
      | S limit' =>
          match nth_error s l with
          | Some (OList items) =>
              (parts <- mapM (repr limit' s) items ;;
               Ok ("[" ++ join ", " parts ++ "]"))%py
          | Some (ODict entries) =>
              (parts <- mapM (fun e =>
                                (r <- repr limit' s (snd e) ;;
                                 Ok (repr_key (fst e) ++ ": " ++ r))%py)
                             entries ;;
               Ok ("{" ++ join ", " parts ++ "}"))%py
          | None => Ok "<object>"
          end
      end
  end.

(** [str(v)], which is what an f-string placeholder [{v}] inserts. *)
Definition str (limit : nat) (v : value) (s : store) : result string :=
  match v with
  | VStr x => Ok x
  | _ => repr limit s v
  end.

(** [xs.append(x)]: the list object is changed in place. *)
Definition list_append (xs x : value) : M unit :=
  fun s =>
    match deref xs s, xs with
    | Some (OList items), VRef l =>
        (update l (OList (items ++ [x])%list) s, Ok tt)
    | _, _ => (s, Err AttributeError)
    end.

(** [d[k] = x]: the dict object is changed in place. *)
Definition setitem (d : value) (k : pykey) (x : value) : M unit :=
  fun s =>
    match deref d s, d with
    | Some (ODict entries), VRef l =>
        (update l (ODict (set_entry k x entries)) s, Ok tt)
    | _, _ => (s, Err TypeError)
    end.

(** [name.endswith], [name.capitalize]: methods of [str] only. *)
Definition py_singularize (name : value) : result string :=
  match name with
  | VStr x => Ok (singularize x)
  | _ => Err AttributeError
  end.

(** [name.startswith(p)]: a method of [str] only. *)
Definition py_startswith (name : value) (p : string) : result bool :=
  match name with
  | VStr x => Ok (startswith x p)
  | _ => Err AttributeError
  end.

(** An item handed to [str.join] has to be a [str]. *)
Definition join_item (v : value) : result string :=
  match v with
  | VStr x => Ok x
  | _ => Err TypeError
  end.

(** ** The functions of main.py *)

Section Program.

(** The depth at which [repr] gives up. *)
Variable limit : nat.

(** The inner type the two wrapper branches of [convert_type] make up when
    [ofType] is missing: a new dict; the default [{}] of [type_map.get] is
    a new dict as well. *)
Definition fallback_inner (fallback_field_name type_map : value) : M value :=
  named <- test fallback_field_name ;;
  mapped <- test type_map ;;
  if named && mapped then
    candidate <- read (fun _ => py_singularize fallback_field_name) ;;
    empty <- alloc (ODict []) ;;
    entry <- read (get_default type_map candidate empty) ;;
    kind <- read (get_default entry "kind" (VStr "OBJECT")) ;;
    alloc (ODict [(KStr "kind", kind); (KStr "name", VStr candidate);
                  (KStr "ofType", VNone)])
  else
    alloc (ODict [(KStr "kind", VStr "OBJECT"); (KStr "name", VStr "UNKNOWN");
                  (KStr "ofType", VNone)]).

(** [convert_type(graphql_type, fallback_field_name, type_map)] *)
Fixpoint convert_type (fuel : nat)
    (graphql_type fallback_field_name type_map : value) : M value :=
  match fuel with
  | O => raise RecursionError
  | S fuel' =>
      if is_None graphql_type then ret (VStr "UNKNOWN")
      else
        kind <- read (get graphql_type "kind") ;;
        if eq_str kind "NON_NULL" then
          inner <- read (get graphql_type "ofType") ;;
          inner <- (if is_None inner
                    then fallback_inner fallback_field_name type_map
                    else ret inner) ;;
          r <- convert_type fuel' inner fallback_field_name type_map ;;
          text <- read (str limit r) ;;
          ret (VStr (text ++ "!"))
        else if eq_str kind "LIST" then
          inner <- read (get graphql_type "ofType") ;;
          inner <- (if is_None inner
                    then fallback_inner fallback_field_name type_map
                    else ret inner) ;;
          r <- convert_type fuel' inner fallback_field_name type_map ;;
          text <- read (str limit r) ;;
          ret (VStr ("[" ++ text ++ "]"))
        else
          name <- read (get graphql_type "name") ;;
          named <- test name ;;
          ret (if named then name else VStr "UNKNOWN")
  end.

(** [convert_field(field, type_map)] *)
Definition convert_field (fuel : nat) (field type_map : value) : M string :=
  name <- read (index field "name") ;;
  name_text <- read (str limit name) ;;
  ty <- read (index field "type") ;;
  name <- read (index field "name") ;;
  r <- convert_type fuel ty name type_map ;;
  text <- read (str limit r) ;;
  ret (name_text ++ ": " ++ text).

(** [convert_input_field(input_field, type_map)] *)
Definition convert_input_field (fuel : nat) (input_field type_map : value)
  : M string :=
  name <- read (index input_field "name") ;;
  name_text <- read (str limit name) ;;
  ty <- read (index input_field "type") ;;
  name <- read (index input_field "name") ;;
  r <- convert_type fuel ty name type_map ;;
  text <- read (str limit r) ;;
  let base := name_text ++ ": " ++ text in
  default <- read (get input_field "defaultValue") ;;
  if negb (is_None default) then
    default_text <- read (str limit default) ;;
    ret (base ++ " = " ++ default_text)
  else ret base.

(** [{t.get('name'): t for t in types if t.get('name')}]: the entries
    are put into the dict [type_map], one after the other; a value of the
    dict is the reference [t] itself. *)
Fixpoint build_type_map (types : list value) (type_map : value) : M unit :=
  match types with
  | [] => ret tt
  | t :: rest =>
      name <- read (get t "name") ;;
      named <- test name ;;
      if named then
        key <- read (get t "name") ;;
        k <- read (fun _ => hashable key) ;;
        _ <- setitem type_map k t ;;
        build_type_map rest type_map
      else build_type_map rest type_map
  end.

(** One iteration of the loop [for t in types] of
    [generate_graphql_schema]. *)
Definition schema_step (fuel : nat) (type_map schema_parts t : value)
  : M unit :=
  name <- read (get t "name") ;;
  named <- test name ;;
  skip <- (if negb named then ret true
           else read (fun _ => py_startswith name "__")) ;;
  if skip then ret tt
  else
    fields <- read (get t "fields") ;;
    if negb (is_None fields) then
      fields <- read (index t "fields") ;;
      filled <- test fields ;;
      if negb filled then ret tt
      else
        fields <- read (index t "fields") ;;
        fs <- read (iter fields) ;;
        lines <- traverse (fun f => convert_field fuel f type_map)
                          (filter (fun f => negb (is_None f)) fs) ;;
        name_text <- read (str limit name) ;;
        list_append schema_parts
          (VStr (block "type" name_text (join (nl ++ "  ") lines)))
    else
      input_fields <- read (get t "inputFields") ;;
      if negb (is_None input_fields) then
        empty <- alloc (OList []) ;;
        input_fields <- read (get_default t "inputFields" empty) ;;
        fs <- read (iter input_fields) ;;
        lines <- traverse (fun f => convert_input_field fuel f type_map) fs ;;
        name_text <- read (str limit name) ;;
        list_append schema_parts
          (VStr (block "input" name_text (join (nl ++ "  ") lines)))
      else
        enum_values <- read (get t "enumValues") ;;
        if negb (is_None enum_values) then
          enum_values <- read (index t "enumValues") ;;
          filled <- test enum_values ;;
          if negb filled then ret tt
          else
            empty <- alloc (OList []) ;;
            enum_values <- read (get_default t "enumValues" empty) ;;
            evs <- read (iter enum_values) ;;
            names <- read (fun s => mapM (fun ev => index ev "name" s) evs) ;;
            vals <- read (fun _ => mapM join_item names) ;;
            name_text <- read (str limit name) ;;
            list_append schema_parts
              (VStr (block "enum" name_text (join (nl ++ "  ") vals)))
        else
          name_text <- read (str limit name) ;;
          list_append schema_parts (VStr ("scalar " ++ name_text)).

(** The loop [for t in types]. *)
Fixpoint schema_loop (fuel : nat) (type_map schema_parts : value)
    (types : list value) : M unit :=
  match types with
  | [] => ret tt
  | t :: rest =>
      _ <- schema_step fuel type_map schema_parts t ;;
      schema_loop fuel type_map schema_parts rest
  end.

(** [generate_graphql_schema(introspection_data)]: [type_map] and
    [schema_parts] are new objects. *)
Definition generate_graphql_schema (fuel : nat) (introspection_data : value)
  : M string :=
  data <- read (index introspection_data "data") ;;
  schema <- read (index data "__schema") ;;
  types <- read (index schema "types") ;;
  ts <- read (iter types) ;;
  type_map <- alloc (ODict []) ;;
  _ <- build_type_map ts type_map ;;
  schema_parts <- alloc (OList []) ;;
  ts <- read (iter types) ;;
  _ <- schema_loop fuel type_map schema_parts ts ;;
  parts <- read (iter schema_parts) ;;
  items <- read (fun _ => mapM join_item parts) ;;
  ret (join (nl ++ nl) items ++ nl).

End Program.

(** ** What a store holds *)

Fixpoint mapO {A B : Type} (f : A -> option B) (xs : list A) : option (list B) :=
  match xs with
  | [] => Some []
  | x :: xs' =>
      match f x, mapO f xs' with
      | Some y, Some ys => Some (y :: ys)
      | _, _ => None
      end
  end.

Definition key_str (k : pykey) : option string :=
  match k with
  | KStr x => Some x
  | _ => None
  end.

(** [decode n s v]: the JSON value that [v] stands for in [s], when the
    objects under [v] are lists and dicts with string keys, nested at
    most [n] deep. *)
Fixpoint decode (n : nat) (s : store) (v : value) : option json :=
  match v with
  | VNone => Some JNull
  | VBool b => Some (JBool b)
  | VNum z => Some (JNum z)
  | VStr x => Some (JStr x)
  | VRef l =>
      match n with
      | O => None
      | S n' =>
          match nth_error s l with
          | Some (OList items) => option_map JArr (mapO (decode n' s) items)
          | Some (ODict entries) =>
              option_map JObj
                (mapO (fun e =>
                         match key_str (fst e), decode n' s (snd e) with
                         | Some k, Some j => Some (k, j)
                         | _, _ => None
                         end) entries)
          | None => None
          end
      end
  end.

(** The [type_map] argument [v] stands for [type_map]: [None], or a dict
    whose values stand for the JSON values of [type_map]. *)
Definition decodes_map (n : nat) (s : store) (v : value)
    (type_map : option pydict) : Prop :=
  match type_map with
  | None => v = VNone
  | Some d =>
      exists entries,
        deref v s = Some (ODict entries)
        /\ Forall2 (fun e b => fst e = fst b /\ decode n s (snd e) = Some (snd b))
                   entries d
  end.

(** [json.load]: the objects of a parsed document are put into the store,
    the parts of a list or dict before the list or dict itself. *)
Fixpoint load_all {A B : Type} (f : A -> store -> store * B) (xs : list A)
    (s : store) : store * list B :=
  match xs with
  | [] => (s, [])
  | x :: rest =>
      let '(s1, v) := f x s in
      let '(s2, vs) := load_all f rest s1 in
      (s2, v :: vs)
  end.

Fixpoint load (j : json) (s : store) : store * value :=
  match j with
  | JNull => (s, VNone)
  | JBool b => (s, VBool b)
  | JNum n => (s, VNum n)
  | JStr x => (s, VStr x)
  | JArr xs =>
      let '(s', items) := load_all load xs s in
      ((s' ++ [OList items])%list, VRef (List.length s'))
  | JObj kvs =>
      let '(s', entries) :=
        load_all (fun kv s => let '(s1, v) := load (snd kv) s in
                              (s1, (KStr (fst kv), v))) kvs s in
      ((s' ++ [ODict entries])%list, VRef (List.length s'))
  end.

(** The nesting depth of lists and dicts in a JSON value. *)
Fixpoint height (j : json) : nat :=
  match j with
  | JArr xs => S (fold_right (fun x n => Nat.max (height x) n) 0 xs)
  | JObj kvs => S (fold_right (fun kv n => Nat.max (height (snd kv)) n) 0 kvs)
  | _ => 0
  end.

(** The text an f-string makes of the outcome [r] of [convert_type], which
    is what its callers do with it. *)
Definition rendered (limit : nat) (r : result value) (s : store)
  : result string :=
  match r with
  | Ok v => str limit v s
  | Err e => Err e
  end.

(** What [decode] has found when it succeeds, one level deep. *)
Inductive decoded (n : nat) (s : store) : value -> json -> Prop :=
| decoded_none : decoded n s VNone JNull
| decoded_bool b : decoded n s (VBool b) (JBool b)
| decoded_num z : decoded n s (VNum z) (JNum z)
| decoded_str x : decoded n s (VStr x) (JStr x)
| decoded_list l items js :
    nth_error s l = Some (OList items) ->
    Forall2 (fun v j => decode n s v = Some j) items js ->
    decoded n s (VRef l) (JArr js)
| decoded_dict l entries kvs :
    nth_error s l = Some (ODict entries) ->
    Forall2 (fun e kv => fst e = KStr (fst kv)
                         /\ decode n s (snd e) = Some (snd kv))
            entries kvs ->
    decoded n s (VRef l) (JObj kvs).

(** Two outcomes agree: the same exception, or values related by [R]. *)
Definition agree {A B : Type} (R : A -> B -> Prop) (r : result A)
    (p : result B) : Prop :=
  match r, p with
  | Ok a, Ok b => R a b
  | Err e, Err e' => e = e'
  | _, _ => False
  end.

(** The outcome [r] of a run that ends in [s] stands for the outcome [p]
    on JSON values. *)
Definition reads (n : nat) (s : store) (r : result value) (p : result json)
  : Prop :=
  agree (fun v j => decode n s v = Some j) r p.

(** Every object of [s] is in [s'], at its location and as it was. *)
Definition unchanged (s s' : store) : Prop :=
  forall l o, nth_error s l = Some o -> nth_error s' l = Some o.

(** Between [s] and [s'] no object but the one at [l] has changed. *)
Definition writes_only (l : loc) (s s' : store) : Prop :=
  forall l' o, l' <> l -> nth_error s l' = Some o -> nth_error s' l' = Some o.

(** The run of [m] from [s] goes along the outcome [p] on JSON values:
    the store it leaves is related to [s] by [T], and its outcome agrees
    with [p] up to [R]. *)
Definition sim {A B : Type} (T : store -> store -> Prop)
    (R : store -> A -> B -> Prop) (s : store) (m : M A) (p : result B)
  : Prop :=
  T s (fst (m s)) /\ agree (R (fst (m s))) (snd (m s)) p.

End Store.

(** A store with a document, a TypeRef and a type map in it. *)
Definition heap_doc : json :=
  JArr [blog_doc; nested_cut;
        JObj [("Post", JObj [("name", JStr "Post"); ("kind", JStr "ENUM")])]].

Definition heap : Store.store := fst (Store.load heap_doc []).

(** The JSON values the type map of [heap_doc] stands for. *)
Definition heap_types : pydict :=
  [(KStr "Post", JObj [("name", JStr "Post"); ("kind", JStr "ENUM")])].

(** * Properties *)

(** ** The recursion budget does not change a completed run *)

Lemma completes_Ok {A : Type} (a : A) : completes (Ok a).
Proof. discriminate. Qed.

Lemma completes_bind {A B : Type} (m : result A) (k : A -> result B) :
  completes (bind m k) -> completes m.
Proof.
  unfold completes. destruct m as [a|e]; simpl.
  - intros _. discriminate.
  - intros H Heq. apply H. inversion Heq. reflexivity.
Qed.

Lemma stable_const {A : Type} (r : result A) : stable (fun _ => r).
Proof. intros n m _ _. reflexivity. Qed.

Lemma stable_bind {A B : Type} (f : nat -> result A) (g : A -> nat -> result B) :
  stable f -> (forall a, stable (g a)) ->
  stable (fun n => bind (f n) (fun a => g a n)).
Proof.
  intros Hf Hg n m Hle Hc.
  rewrite (Hf n m Hle (completes_bind _ _ Hc)).
  destruct (f n) as [a|e]; simpl in *; [apply Hg; assumption | reflexivity].
Qed.

Lemma stable_mapM {A B : Type} (f : nat -> A -> result B) (xs : list A) :
  (forall x, stable (fun n => f n x)) -> stable (fun n => mapM (f n) xs).
Proof.
  intros Hf. induction xs as [|x xs IH]; simpl.
  - apply stable_const.
  - apply (stable_bind (fun n => f n x)); [apply Hf|].
    intros y. apply (stable_bind (fun n => mapM (f n) xs)); [exact IH|].
    intros ys. apply stable_const.
Qed.

Lemma convert_type_stable (graphql_type fallback_field_name : json)
    (type_map : option pydict) :
  stable (fun fuel => convert_type fuel graphql_type fallback_field_name type_map).
Proof.
  intros n. revert graphql_type.
  induction n as [|n IH]; intros ty m Hle Hc.
  - exfalso. apply Hc. reflexivity.
  - destruct m as [|m]; [lia|]. assert (Hnm : n <= m) by lia.
    cbn [convert_type] in *.
    destruct (is_None ty); [reflexivity|].
    destruct (py_get ty "kind") as [kind|e]; simpl in *; [|reflexivity].
    destruct (eq_str kind "NON_NULL"); [|destruct (eq_str kind "LIST")].
    + destruct (py_get ty "ofType") as [inner|e]; simpl in *; [|reflexivity].
      destruct (if is_None inner then _ else _) as [inner'|e]; simpl in *;
        [|reflexivity].
      rewrite (IH inner' m Hnm (completes_bind _ _ Hc)). reflexivity.
    + destruct (py_get ty "ofType") as [inner|e]; simpl in *; [|reflexivity].
      destruct (if is_None inner then _ else _) as [inner'|e]; simpl in *;
        [|reflexivity].
      rewrite (IH inner' m Hnm (completes_bind _ _ Hc)). reflexivity.
    + reflexivity.
Qed.

Lemma convert_field_stable (field : json) (type_map : option pydict) :
  stable (fun fuel => convert_field fuel field type_map).
Proof.
  unfold convert_field.
  apply (stable_bind (fun _ => py_index field "name")); [apply stable_const|].
  intros name.
  apply (stable_bind (fun _ => py_index field "type")); [apply stable_const|].
  intros ty.
  apply (stable_bind (fun fuel => convert_type fuel ty name type_map));
    [apply convert_type_stable|].
  intros r. apply stable_const.
Qed.

Lemma convert_input_field_stable (input_field : json) (type_map : option pydict) :
  stable (fun fuel => convert_input_field fuel input_field type_map).
Proof.
  unfold convert_input_field.
  apply (stable_bind (fun fuel => convert_field fuel input_field type_map));
    [apply convert_field_stable|].
  intros base. apply stable_const.
Qed.

(** Budget stability is compositional: the tactic follows the shape of a
    monadic definition. *)
Ltac stable_step :=
  match goal with
  | |- stable (fun fuel => convert_type fuel _ _ _) => apply convert_type_stable
  | |- stable (fun fuel => convert_field fuel _ _) => apply convert_field_stable
  | |- stable (fun fuel => convert_input_field fuel _ _) =>
      apply convert_input_field_stable
  | |- stable (fun fuel => mapM _ _) => apply stable_mapM; intros ?
  | |- stable (fun fuel => bind (@?f fuel) (fun a => @?g a fuel)) =>
      apply (stable_bind f g); [|intros ?]
  | |- stable (fun fuel => if ?b then _ else _) => destruct b
  | |- stable (fun _ => _) => apply stable_const
  end.

Lemma schema_step_stable (type_map : option pydict) (schema_parts : list string)
    (t : json) :
  stable (fun fuel => schema_step fuel type_map schema_parts t).
Proof. unfold schema_step. repeat stable_step. Qed.

Lemma schema_loop_stable (type_map : option pydict) (types : list json) :
  forall schema_parts,
    stable (fun fuel => schema_loop fuel type_map types schema_parts).
Proof.
  induction types as [|t rest IH]; intros schema_parts; simpl.
  - apply stable_const.
  - apply (stable_bind (fun fuel => schema_step fuel type_map schema_parts t)).
    + apply schema_step_stable.
    + intros parts. apply IH.
Qed.

Lemma generate_graphql_schema_stable (introspection_data : json) :
  stable (fun fuel => generate_graphql_schema fuel introspection_data).
Proof.
  unfold generate_graphql_schema. repeat stable_step.
  apply schema_loop_stable.
Qed.

(** ** The type resolver on well-formed chains *)

Lemma represents_not_None (t : TypeRef) (j : json) :
  represents t j -> is_None j = false.
Proof. intros H. destruct H; reflexivity. Qed.

Lemma convert_type_represents (t : TypeRef) :
  forall j fallback_field_name type_map fuel,
    represents t j ->
    depth t < fuel ->
    convert_type fuel j fallback_field_name type_map = Ok (JStr (resolve t)).
Proof.
  induction t as [name|t IH|t IH]; intros j fb tm fuel Hrep Hfuel;
    inversion Hrep; subst; clear Hrep;
    (destruct fuel as [|fuel]; [lia|]); cbn [convert_type is_None].
  - match goal with H : py_get _ "kind" = _ |- _ => rewrite H end.
    cbn [bind].
    match goal with H : is_wrapper_kind _ = false |- _ =>
      apply orb_false_elim in H; destruct H as [Hn Hl] end.
    rewrite Hn, Hl.
    match goal with H : py_get _ "name" = _ |- _ => rewrite H end.
    cbn [bind]. destruct name as [s|]; simpl.
    + destruct (String.eqb_spec s ""); [subst; congruence|reflexivity].
    + reflexivity.
  - match goal with H : py_get _ "kind" = _ |- _ => rewrite H end.
    cbn [bind eq_str]. rewrite String.eqb_refl.
    match goal with H : py_get _ "ofType" = _ |- _ => rewrite H end.
    cbn [bind].
    match goal with H : represents _ _ |- _ =>
      rewrite (represents_not_None _ _ H);
      cbn [bind]; rewrite (IH _ fb tm fuel H) by (simpl in Hfuel; lia) end.
    reflexivity.
  - match goal with H : py_get _ "kind" = _ |- _ => rewrite H end.
    cbn [bind eq_str].
    replace ("LIST" =? "NON_NULL") with false by reflexivity.
    rewrite String.eqb_refl.
    match goal with H : py_get _ "ofType" = _ |- _ => rewrite H end.
    cbn [bind].
    match goal with H : represents _ _ |- _ =>
      rewrite (represents_not_None _ _ H);
      cbn [bind]; rewrite (IH _ fb tm fuel H) by (simpl in Hfuel; lia) end.
    reflexivity.
Qed.

(** C4.  On a well-formed TypeRef chain (every wrapper has its [ofType])
    [convert_type] is the structural mapping [resolve]:
    [NON_NULL(X)] gives [resolve X ++ "!"], [LIST(X)] gives
    ["[" ++ resolve X ++ "]"], a named leaf gives its name, a leaf without
    a name gives [UNKNOWN], and an absent TypeRef gives [UNKNOWN];
    whatever the fallback name and the type map are, and for every budget
    above the depth of the chain. *)
Theorem convert_type_structural_mapping :
  forall (typeRef : option TypeRef) (j fallback_field_name : json)
         (type_map : option pydict) (fuel : nat),
    represents_arg typeRef j ->
    depth_arg typeRef < fuel ->
    convert_type fuel j fallback_field_name type_map
    = Ok (JStr (resolve_arg typeRef)).
Proof.
  intros typeRef j fb tm fuel Hrep Hfuel.
  destruct Hrep as [|t j Hrep]; simpl in *.
  - destruct fuel as [|fuel]; [lia|]. reflexivity.
  - apply convert_type_represents; assumption.
Qed.

Lemma post_list_ref_represents :
  represents_arg (Some (NonNull (ListOf (NonNull (Named (Some "Post"))))))
                 post_list_ref.
Proof.
  apply rep_present.
  eapply rep_non_null; [reflexivity | reflexivity |].
  eapply rep_list; [reflexivity | reflexivity |].
  eapply rep_non_null; [reflexivity | reflexivity |].
  eapply rep_named with (kind := JStr "OBJECT");
    [reflexivity | reflexivity | reflexivity | discriminate].
Defined.

Lemma convert_type_structural_mapping_witness :
  depth_arg (Some (NonNull (ListOf (NonNull (Named (Some "Post")))))) < 4
  /\ convert_type 4 post_list_ref (JStr "posts") None = Ok (JStr "[Post!]!").
Proof.
  split; [simpl; lia|].
  apply (convert_type_structural_mapping
           (Some (NonNull (ListOf (NonNull (Named (Some "Post"))))))
           post_list_ref (JStr "posts") None 4 post_list_ref_represents).
  simpl; lia.
Defined.

(** C10.  A leaf TypeRef (kind neither [LIST] nor [NON_NULL]) whose name is
    present but is the empty string resolves to [UNKNOWN], as a leaf
    without a name does. *)
Theorem convert_type_empty_name :
  forall (fuel : nat) (kvs : list (string * json)) (kind fallback_field_name : json)
         (type_map : option pydict),
    py_get (JObj kvs) "kind" = Ok kind ->
    is_wrapper_kind kind = false ->
    py_get (JObj kvs) "name" = Ok (JStr "") ->
    convert_type (S fuel) (JObj kvs) fallback_field_name type_map
    = Ok (JStr "UNKNOWN").
Proof.
  intros fuel kvs kind fb tm Hkind Hleaf Hname.
  cbn [convert_type is_None]. rewrite Hkind. cbn [bind].
  apply orb_false_elim in Hleaf. destruct Hleaf as [Hn Hl].
  rewrite Hn, Hl, Hname. reflexivity.
Qed.

Lemma convert_type_empty_name_witness :
  let leaf := [("kind", JStr "OBJECT"); ("name", JStr "")] in
  py_get (JObj leaf) "kind" = Ok (JStr "OBJECT")
  /\ convert_type 1 (JObj leaf) (JStr "posts") None = Ok (JStr "UNKNOWN").
Proof.
  split; [reflexivity|].
  apply (convert_type_empty_name 0 _ (JStr "OBJECT")); reflexivity.
Defined.

(** ** The fallback for a wrapper without [ofType] *)

Lemma dict_lookup_nonempty (k : pykey) (d : pydict) (v : json) :
  dict_lookup k d = Some v -> truthy_map (Some d) = true.
Proof. destruct d; [discriminate|reflexivity]. Qed.

(** C5.  A [NON_NULL] TypeRef whose [ofType] is null, resolved with the
    fallback field name [posts] and a type map that has a type named
    [Post] of kind [OBJECT], gives exactly [Post!]. *)
Theorem convert_type_fallback_posts :
  forall (fuel : nat) (kvs : list (string * json)) (d : pydict) (post : json),
    py_get (JObj kvs) "kind" = Ok (JStr "NON_NULL") ->
    py_get (JObj kvs) "ofType" = Ok JNull ->
    dict_lookup (KStr "Post") d = Some post ->
    py_get post "kind" = Ok (JStr "OBJECT") ->
    2 <= fuel ->
    convert_type fuel (JObj kvs) (JStr "posts") (Some d) = Ok (JStr "Post!").
Proof.
  intros fuel kvs d post Hkind Hof Hpost Hobj Hfuel.
  destruct fuel as [|[|fuel]]; try lia.
  cbn [convert_type is_None]. rewrite Hkind. cbn [bind eq_str].
  rewrite String.eqb_refl, Hof. cbn [bind is_None].
  unfold fallback_inner.
  rewrite (dict_lookup_nonempty _ _ _ Hpost).
  change (truthy (JStr "posts")) with true.
  change (py_singularize (JStr "posts")) with (@Ok string "Post").
  cbn [andb bind]. unfold dict_get. rewrite Hpost.
  destruct post as [| | | | |pkvs]; try discriminate.
  unfold py_get, py_get_default in *.
  destruct (assoc "kind" pkvs) as [k|]; [|discriminate].
  injection Hobj as ->. reflexivity.
Qed.

Lemma convert_type_fallback_posts_witness :
  let ref := [("kind", JStr "NON_NULL"); ("ofType", JNull)] in
  let post := JObj [("name", JStr "Post"); ("kind", JStr "OBJECT")] in
  let d := [(KStr "User", JObj [("name", JStr "User")]); (KStr "Post", post)] in
  dict_lookup (KStr "Post") d = Some post
  /\ convert_type 2 (JObj ref) (JStr "posts") (Some d) = Ok (JStr "Post!").
Proof.
  split; [reflexivity|].
  apply (convert_type_fallback_posts 2 _ _
           (JObj [("name", JStr "Post"); ("kind", JStr "OBJECT")]));
    try reflexivity; lia.
Defined.

Lemma convert_type_made_up (fuel : nat) (kind : json) (name : string)
    (fallback_field_name : json) (type_map : option pydict) :
  is_wrapper_kind kind = false ->
  convert_type (S fuel) (made_up kind name) fallback_field_name type_map
  = Ok (JStr (leaf_text name)).
Proof.
  intros Hleaf. apply orb_false_elim in Hleaf. destruct Hleaf as [Hn Hl].
  unfold made_up, leaf_text. cbn [convert_type is_None].
  change (py_get (JObj [("kind", kind); ("name", JStr name); ("ofType", JNull)]) "kind")
    with (Ok kind).
  cbn [bind]. rewrite Hn, Hl.
  change (py_get (JObj [("kind", kind); ("name", JStr name); ("ofType", JNull)]) "name")
    with (Ok (JStr name)).
  cbn [bind truthy]. destruct (String.eqb name ""); reflexivity.
Qed.

Lemma dict_lookup_forallb (P : json -> bool) (k : pykey) (d : pydict) (v : json) :
  forallb (fun kv => P (snd kv)) d = true ->
  dict_lookup k d = Some v ->
  P v = true.
Proof.
  induction d as [|[k' v'] d IH]; simpl; [discriminate|].
  intros Hall Hlook. apply andb_prop in Hall. destruct Hall as [Hv Hd].
  destruct (pykey_eqb k k').
  - injection Hlook as <-. exact Hv.
  - apply IH; assumption.
Qed.

Lemma fallback_inner_no_guess (fallback_field_name : json)
    (type_map : option pydict) :
  truthy fallback_field_name && truthy_map type_map = false ->
  fallback_inner fallback_field_name type_map
  = Ok (made_up (JStr "OBJECT") "UNKNOWN").
Proof. intros H. unfold fallback_inner. rewrite H. reflexivity. Qed.

Lemma fallback_inner_guess (s : string) (d : pydict) :
  negb (String.eqb s "") && truthy_map (Some d) = true ->
  named_types_only (Some d) = true ->
  exists kind,
    fallback_inner (JStr s) (Some d) = Ok (made_up kind (singularize s))
    /\ is_wrapper_kind kind = false
    /\ (dict_lookup (KStr (singularize s)) d = None -> kind = JStr "OBJECT").
Proof.
  intros Hguess Hnamed. unfold fallback_inner. cbn [truthy].
  rewrite Hguess. cbn [py_singularize bind]. unfold dict_get.
  destruct (dict_lookup (KStr (singularize s)) d) as [t|] eqn:Hlook.
  - pose proof (dict_lookup_forallb is_named_type _ _ _ Hnamed Hlook) as Ht.
    unfold is_named_type in Ht.
    destruct t as [| | | | |tkvs]; try discriminate.
    unfold py_get, py_get_default in *.
    destruct (assoc "kind" tkvs) as [kind|].
    + exists kind. repeat split.
      * apply negb_true_iff. exact Ht.
      * discriminate.
    + exists (JStr "OBJECT"). repeat split.
  - exists (JStr "OBJECT"). repeat split.
Qed.

(** C3, as the code has it.  Let a [NON_NULL] or [LIST] TypeRef lack its
    [ofType], let the fallback field name be a string or absent, and let
    the type map hold named types only.  Then [convert_type] does not
    fail.  When no guess is possible (no field name, or an empty one, or
    no type map, or an empty one) the inner type defaults to kind [OBJECT]
    and name [UNKNOWN].  Otherwise the inner type is named by the
    singularized field name, also when the type map has no such type; what
    defaults to [OBJECT] in that case is the kind alone.  The result is
    the inner name (or [UNKNOWN] if it is empty) with the wrapper's
    decoration. *)
Theorem convert_type_missing_ofType :
  forall (fuel : nat) (kvs : list (string * json)) (kind : string)
         (fallback_field_name : json) (type_map : option pydict),
    kind = "NON_NULL" \/ kind = "LIST" ->
    py_get (JObj kvs) "kind" = Ok (JStr kind) ->
    py_get (JObj kvs) "ofType" = Ok JNull ->
    fallback_field_name = JNull \/ (exists s, fallback_field_name = JStr s) ->
    named_types_only type_map = true ->
    2 <= fuel ->
    match candidate_of fallback_field_name type_map with
    | None =>
        fallback_inner fallback_field_name type_map
        = Ok (made_up (JStr "OBJECT") "UNKNOWN")
        /\ convert_type fuel (JObj kvs) fallback_field_name type_map
           = Ok (JStr (decorate kind "UNKNOWN"))
    | Some candidate =>
        (exists inner_kind,
            fallback_inner fallback_field_name type_map
            = Ok (made_up inner_kind candidate)
            /\ (forall d, type_map = Some d ->
                          dict_lookup (KStr candidate) d = None ->
                          inner_kind = JStr "OBJECT"))
        /\ convert_type fuel (JObj kvs) fallback_field_name type_map
           = Ok (JStr (decorate kind (leaf_text candidate)))
    end.
Proof.
  intros fuel kvs kind fb tm Hwrap Hkind Hof Hfb Hnamed Hfuel.
  destruct fuel as [|fuel]; [lia|].
  assert (Hstep : forall inner_kind name,
             fallback_inner fb tm = Ok (made_up inner_kind name) ->
             is_wrapper_kind inner_kind = false ->
             convert_type (S fuel) (JObj kvs) fb tm
             = Ok (JStr (decorate kind (leaf_text name)))).
  { intros inner_kind name Hinner Hleaf.
    cbn [convert_type is_None]. rewrite Hkind. cbn [bind eq_str].
    destruct fuel as [|fuel]; [lia|].
    destruct Hwrap as [-> | ->].
    - rewrite String.eqb_refl, Hof. cbn [bind is_None]. rewrite Hinner.
      cbn [bind]. rewrite (convert_type_made_up fuel _ _ _ _ Hleaf).
      reflexivity.
    - replace ("LIST" =? "NON_NULL") with false by reflexivity.
      rewrite String.eqb_refl, Hof. cbn [bind is_None]. rewrite Hinner.
      cbn [bind]. rewrite (convert_type_made_up fuel _ _ _ _ Hleaf).
      reflexivity. }
  destruct (candidate_of fb tm) as [candidate|] eqn:Hcand.
  - destruct fb as [| | |s| |]; try discriminate. simpl in Hcand.
    destruct (negb (String.eqb s "") && truthy_map tm) eqn:Hguess;
      [|discriminate].
    injection Hcand as <-.
    destruct tm as [d|]; [|rewrite andb_false_r in Hguess; discriminate].
    destruct (fallback_inner_guess s d Hguess Hnamed)
      as (inner_kind & Hinner & Hleaf & Hdefault).
    split.
    + exists inner_kind. split; [exact Hinner|].
      intros d' Hd'. injection Hd' as <-. exact Hdefault.
    + apply (Hstep inner_kind _ Hinner Hleaf).
  - assert (Hno : truthy fb && truthy_map tm = false).
    { destruct Hfb as [-> | [s ->]]; [reflexivity|].
      simpl in Hcand. cbn [truthy].
      destruct (negb (String.eqb s "") && truthy_map tm); [discriminate|reflexivity]. }
    pose proof (fallback_inner_no_guess fb tm Hno) as Hinner.
    split; [exact Hinner|].
    apply (Hstep (JStr "OBJECT") "UNKNOWN" Hinner). reflexivity.
Qed.

Lemma convert_type_missing_ofType_witness :
  named_types_only (Some user_map) = true
  /\ convert_type 2 list_cut (JStr "posts") (Some user_map) = Ok (JStr "[Post]").
Proof.
  split; [reflexivity|].
  pose proof (convert_type_missing_ofType 2
                [("kind", JStr "LIST"); ("ofType", JNull)] "LIST"
                (JStr "posts") (Some user_map)
                (or_intror eq_refl) eq_refl eq_refl
                (or_intror (ex_intro _ "posts" eq_refl)) eq_refl (le_n 2)) as H.
  simpl in H. exact (proj2 H).
Defined.

(** C3 as stated fails: the type map has no type named [Post], and still
    the inner type is named [Post], not [UNKNOWN]. *)
Lemma convert_type_missing_ofType_counterexample :
  dict_lookup (KStr (singularize "posts")) user_map = None
  /\ convert_type 2 non_null_cut (JStr "posts") (Some user_map) = Ok (JStr "Post!")
  /\ convert_type 2 non_null_cut (JStr "posts") (Some user_map)
     <> Ok (JStr "UNKNOWN!").
Proof. repeat split. discriminate. Qed.

(** ** Termination *)

Lemma chain_depth_ofType (kvs : list (string * json)) (inner : json) :
  assoc "ofType" kvs = Some inner ->
  chain_depth (JObj kvs) = S (chain_depth inner).
Proof.
  induction kvs as [|[k v] kvs IH]; [discriminate|].
  cbn [assoc chain_depth]. destruct (String.eqb "ofType" k).
  - intros H. injection H as ->. reflexivity.
  - exact IH.
Qed.

Lemma completes_bind_intro {A B : Type} (m : result A) (k : A -> result B) :
  completes m -> (forall a, completes (k a)) -> completes (bind m k).
Proof.
  intros Hm Hk. destruct m as [a|e]; simpl; [apply Hk|].
  intros Heq. apply Hm. inversion Heq. reflexivity.
Qed.

Lemma completes_Err {A : Type} (e : pyexc) :
  e <> RecursionError -> completes (@Err A e).
Proof. intros He Heq. apply He. inversion Heq. reflexivity. Qed.

Lemma py_get_completes (j : json) (k : string) : completes (py_get j k).
Proof. destruct j; discriminate. Qed.

(** The fallback either raises ([singularize] of a non-string, [get] of a
    non-dict) or makes up a dict; over a type map without wrapper kinds
    the dict is a leaf. *)
Section SafeTypeMap.

Variable fallback_field_name : json.
Variable type_map : option pydict.
Hypothesis Hsafe : no_wrapper_kinds type_map = true.

Lemma fallback_inner_leaf :
  (exists e, e <> RecursionError
             /\ fallback_inner fallback_field_name type_map = Err e)
  \/ (exists kind name,
         fallback_inner fallback_field_name type_map = Ok (made_up kind name)
         /\ is_wrapper_kind kind = false).
Proof.
  unfold fallback_inner.
  destruct (truthy fallback_field_name && truthy_map type_map) eqn:Hguess.
  - destruct fallback_field_name as [| | |s| |];
      try (left; exists AttributeError; split; [discriminate|reflexivity]).
    cbn [py_singularize bind].
    destruct type_map as [d|]; [|rewrite andb_false_r in Hguess; discriminate].
    unfold dict_get.
    destruct (dict_lookup (KStr (singularize s)) d) as [t|] eqn:Hlook.
    + pose proof (dict_lookup_forallb not_wrapper _ _ _ Hsafe Hlook) as Ht.
      unfold not_wrapper in Ht.
      destruct t as [| | | | |tkvs];
        try (left; exists AttributeError; split; [discriminate|reflexivity]).
      right. unfold py_get, py_get_default in *.
      destruct (assoc "kind" tkvs) as [kind|].
      * exists kind, (singularize s). split; [reflexivity|].
        apply negb_true_iff. exact Ht.
      * exists (JStr "OBJECT"), (singularize s). split; reflexivity.
    + right. exists (JStr "OBJECT"), (singularize s). split; reflexivity.
  - right. exists (JStr "OBJECT"), "UNKNOWN". split; reflexivity.
Qed.

Lemma convert_type_completes :
  forall fuel graphql_type,
    chain_depth graphql_type + 2 <= fuel ->
    completes (convert_type fuel graphql_type fallback_field_name type_map).
Proof.
  intros fuel.
  induction fuel as [|fuel IH]; intros ty Hfuel; [lia|].
  cbn [convert_type].
  destruct (is_None ty) eqn:HNone; [apply completes_Ok|].
  apply completes_bind_intro; [apply py_get_completes|]. intros kind.
  assert (Hwrapper :
            forall (k : json -> result json), (forall r, completes (k r)) ->
            completes
              (inner <- py_get ty "ofType" ;;
               inner <- (if is_None inner
                         then fallback_inner fallback_field_name type_map
                         else Ok inner) ;;
               r <- convert_type fuel inner fallback_field_name type_map ;;
               k r)).
  { intros k Hk.
    destruct ty as [| | | | |kvs]; try (apply completes_Err; discriminate).
    unfold py_get, py_get_default. cbn [bind].
    destruct (assoc "ofType" kvs) as [inner|] eqn:Hof.
    - destruct (is_None inner) eqn:Hinner.
      + destruct fallback_inner_leaf
          as [(e & He & ->) | (k' & name & -> & Hleaf)].
        * apply completes_Err. exact He.
        * cbn [bind]. destruct fuel as [|fuel']; [lia|].
          rewrite (convert_type_made_up fuel' _ _ _ _ Hleaf). apply Hk.
      + cbn [bind]. apply completes_bind_intro; [|exact Hk].
        apply IH. rewrite (chain_depth_ofType _ _ Hof) in Hfuel. lia.
    - cbn [is_None].
      destruct fallback_inner_leaf
        as [(e & He & ->) | (k' & name & -> & Hleaf)].
      + apply completes_Err. exact He.
      + cbn [bind]. destruct fuel as [|fuel']; [lia|].
        rewrite (convert_type_made_up fuel' _ _ _ _ Hleaf). apply Hk. }
  destruct (eq_str kind "NON_NULL"); [|destruct (eq_str kind "LIST")].
  - apply Hwrapper. intros r. apply completes_Ok.
  - apply Hwrapper. intros r. apply completes_Ok.
  - apply completes_bind_intro; [apply py_get_completes|].
    intros name. apply completes_Ok.
Qed.

End SafeTypeMap.

(** C9, as the code has it.  Over a type map none of whose types has the
    kind [LIST] or [NON_NULL], [convert_type] terminates on every TypeRef,
    of any nesting depth and with or without its innermost [ofType]: a
    budget of two more calls than the chain has [ofType] links is enough,
    and every such budget gives the same outcome, a value or an exception
    of the program.  (The extra calls are the leaf and the dict made up
    for a missing [ofType]; that last call is not on a part of the
    input.) *)
Theorem convert_type_terminates :
  forall (graphql_type fallback_field_name : json) (type_map : option pydict),
    no_wrapper_kinds type_map = true ->
    exists r,
      completes r
      /\ forall fuel,
          chain_depth graphql_type + 2 <= fuel ->
          convert_type fuel graphql_type fallback_field_name type_map = r.
Proof.
  intros ty fb tm Hsafe.
  exists (convert_type (chain_depth ty + 2) ty fb tm).
  assert (Hc : completes (convert_type (chain_depth ty + 2) ty fb tm))
    by (apply convert_type_completes; [exact Hsafe | lia]).
  split; [exact Hc|].
  intros fuel Hfuel.
  apply (convert_type_stable ty fb tm _ _ Hfuel Hc).
Qed.

Lemma convert_type_terminates_witness :
  no_wrapper_kinds (Some user_map) = true
  /\ exists r,
      completes r
      /\ forall fuel,
          chain_depth nested_cut + 2 <= fuel ->
          convert_type fuel nested_cut (JStr "posts") (Some user_map) = r.
Proof.
  split; [reflexivity|].
  apply (convert_type_terminates nested_cut (JStr "posts") (Some user_map)).
  reflexivity.
Defined.

Lemma convert_type_list_cut (fuel : nat) (graphql_type fallback_field_name : json)
    (type_map : option pydict) (inner : json) :
  is_None graphql_type = false ->
  py_get graphql_type "kind" = Ok (JStr "LIST") ->
  py_get graphql_type "ofType" = Ok JNull ->
  fallback_inner fallback_field_name type_map = Ok inner ->
  convert_type (S fuel) graphql_type fallback_field_name type_map
  = (r <- convert_type fuel inner fallback_field_name type_map ;;
     Ok (JStr ("[" ++ py_str r ++ "]"))).
Proof.
  intros HNone Hkind Hof Hinner.
  cbn [convert_type]. rewrite HNone, Hkind. cbn [bind eq_str].
  replace ("LIST" =? "NON_NULL") with false by reflexivity.
  rewrite String.eqb_refl, Hof. cbn [bind is_None]. rewrite Hinner.
  reflexivity.
Qed.

(** When the dict made up for a missing [ofType] is itself a [LIST]
    without [ofType], resolving it makes it up again. *)
Lemma convert_type_loops (fallback_field_name : json) (type_map : option pydict)
    (inner : json) :
  is_None inner = false ->
  py_get inner "kind" = Ok (JStr "LIST") ->
  py_get inner "ofType" = Ok JNull ->
  fallback_inner fallback_field_name type_map = Ok inner ->
  forall fuel,
    convert_type fuel inner fallback_field_name type_map = Err RecursionError.
Proof.
  intros HNone Hkind Hof Hinner fuel.
  induction fuel as [|fuel IH]; [reflexivity|].
  rewrite (convert_type_list_cut fuel _ _ _ inner HNone Hkind Hof Hinner).
  rewrite IH. reflexivity.
Qed.

(** C9 as stated fails: the TypeRef is a [LIST] without [ofType], the
    field is [posts], and the type map has a type named [Post] whose kind
    is [LIST].  The dict made up for the missing [ofType] is again a
    [LIST] without [ofType], and no budget is enough. *)
Lemma convert_type_terminates_counterexample :
  ~ exists fuel,
      completes (convert_type fuel list_cut (JStr "posts") (Some looping_map)).
Proof.
  intros [fuel Hc]. apply Hc.
  destruct fuel as [|fuel]; [reflexivity|].
  rewrite (convert_type_list_cut fuel _ _ _ (made_up (JStr "LIST") "Post"));
    try reflexivity.
  rewrite (convert_type_loops (JStr "posts") (Some looping_map)
             (made_up (JStr "LIST") "Post")); reflexivity.
Qed.

(** The same through [generate_graphql_schema]: [main] exits with the
    interpreter's [RecursionError]. *)
Example generate_graphql_schema_looping_doc :
  forall fuel,
    generate_graphql_schema fuel looping_doc = Err RecursionError.
Proof.
  intros fuel.
  assert (Hloop :
            convert_type fuel list_cut (JStr "posts")
              (Some [(KStr "Post", list_named_post);
                     (KStr "Query", query_type)])
            = Err RecursionError).
  { destruct fuel as [|fuel]; [reflexivity|].
    rewrite (convert_type_list_cut fuel _ _ _ (made_up (JStr "LIST") "Post"));
      try reflexivity.
    rewrite (convert_type_loops (JStr "posts") _ (made_up (JStr "LIST") "Post"));
      reflexivity. }
  unfold generate_graphql_schema, looping_doc, doc_of_types.
  cbn [py_index assoc String.eqb Ascii.eqb Bool.eqb bind py_iter].
  change (build_type_map [list_named_post; query_type] [])
    with (Ok [(KStr "Post", list_named_post); (KStr "Query", query_type)]).
  cbn [bind schema_loop].
  unfold schema_step, convert_field.
  set (resolver := convert_type fuel) in *. clearbody resolver.
  cbv in Hloop. cbv. rewrite Hloop. reflexivity.
Qed.

(** ** Determinism *)

Example generate_graphql_schema_post :
  generate_graphql_schema 2 post_doc
  = Ok ("type Post {" ++ nl ++ "  id: ID!" ++ nl ++ "}" ++ nl).
Proof. reflexivity. Qed.

(** *** Stores and what they hold *)

Lemma mapO_impl {A B : Type} (f g : A -> option B) (xs : list A) :
  forall ys,
    (forall x y, In x xs -> f x = Some y -> g x = Some y) ->
    Store.mapO f xs = Some ys -> Store.mapO g xs = Some ys.
Proof.
  induction xs as [|x xs IH]; intros ys Hfg H; simpl in *; [exact H|].
  destruct (f x) as [y|] eqn:Hx; [|discriminate H].
  destruct (Store.mapO f xs) as [ys'|] eqn:Hxs; [|discriminate H].
  rewrite (Hfg x y (or_introl eq_refl) Hx).
  rewrite (IH ys' (fun x' y' Hin => Hfg x' y' (or_intror Hin)) eq_refl).
  exact H.
Qed.

Lemma mapO_Forall2 {A B : Type} (f : A -> option B) (xs : list A) :
  forall ys, Store.mapO f xs = Some ys <-> Forall2 (fun x y => f x = Some y) xs ys.
Proof.
  induction xs as [|x xs IH]; intros ys; simpl.
  - split; intros H; [injection H as <-; constructor | inversion H; reflexivity].
  - split; intros H.
    + destruct (f x) as [y|] eqn:Hx; [|discriminate H].
      destruct (Store.mapO f xs) as [ys'|] eqn:Hxs; [|discriminate H].
      injection H as <-. constructor; [exact Hx | apply IH; reflexivity].
    + inversion H as [|x' y xs' ys' Hx Hrest]; subst.
      rewrite Hx. apply IH in Hrest. rewrite Hrest. reflexivity.
Qed.

Lemma decode_VRef (n : nat) (s : Store.store) (l : Store.loc) :
  Store.decode (S n) s (Store.VRef l)
  = match nth_error s l with
    | Some (Store.OList items) =>
        option_map JArr (Store.mapO (Store.decode n s) items)
    | Some (Store.ODict entries) =>
        option_map JObj
          (Store.mapO (fun e =>
                         match Store.key_str (fst e), Store.decode n s (snd e) with
                         | Some k, Some j => Some (k, j)
                         | _, _ => None
                         end) entries)
    | None => None
    end.
Proof. reflexivity. Qed.

Lemma decode_S (n : nat) (s : Store.store) :
  forall v j, Store.decode n s v = Some j -> Store.decode (S n) s v = Some j.
Proof.
  induction n as [|n IH]; intros v j H.
  - destruct v; try exact H. discriminate H.
  - destruct v as [| | | |l]; try exact H.
    rewrite decode_VRef in H |- *.
    destruct (nth_error s l) as [[entries|items]|]; [| |discriminate H].
    + destruct (Store.mapO _ entries) as [kvs|] eqn:Hm; [|discriminate H].
      erewrite mapO_impl; [exact H| |exact Hm].
      intros e kv _ He. cbv beta in He |- *.
      destruct (Store.key_str (fst e)); [|discriminate He].
      destruct (Store.decode n s (snd e)) as [j'|] eqn:Hd; [|discriminate He].
      rewrite (IH _ _ Hd). exact He.
    + destruct (Store.mapO _ items) as [js|] eqn:Hm; [|discriminate H].
      erewrite mapO_impl; [exact H| |exact Hm].
      intros x y _ Hx. apply IH. exact Hx.
Qed.

Lemma decode_le (s : Store.store) (v : Store.value) (j : json) (n m : nat) :
  n <= m -> Store.decode n s v = Some j -> Store.decode m s v = Some j.
Proof.
  induction 1 as [|m _ IH]; intros H; [exact H|].
  apply decode_S, IH, H.
Qed.

Lemma unchanged_refl (s : Store.store) : Store.unchanged s s.
Proof. intros l o H. exact H. Qed.

Lemma unchanged_trans (s1 s2 s3 : Store.store) :
  Store.unchanged s1 s2 -> Store.unchanged s2 s3 -> Store.unchanged s1 s3.
Proof. intros H1 H2 l o H. apply H2, H1, H. Qed.

Lemma unchanged_alloc (s : Store.store) (o : Store.object) :
  Store.unchanged s (s ++ [o])%list.
Proof.
  intros l o' H. rewrite nth_error_app1; [exact H|].
  apply nth_error_Some. rewrite H. discriminate.
Qed.

Lemma decode_unchanged (s s' : Store.store) (n : nat) :
  Store.unchanged s s' ->
  forall v j, Store.decode n s v = Some j -> Store.decode n s' v = Some j.
Proof.
  intros Hu. induction n as [|n IH]; intros v j H.
  - destruct v; exact H.
  - destruct v as [| | | |l]; try exact H.
    rewrite decode_VRef in H |- *.
    destruct (nth_error s l) as [o|] eqn:Hl; [|discriminate H].
    rewrite (Hu _ _ Hl). destruct o as [entries|items].
    + destruct (Store.mapO _ entries) as [kvs|] eqn:Hm; [|discriminate H].
      erewrite mapO_impl; [exact H| |exact Hm].
      intros e kv _ He. cbv beta in He |- *.
      destruct (Store.key_str (fst e)); [|discriminate He].
      destruct (Store.decode n s (snd e)) as [j'|] eqn:Hd; [|discriminate He].
      rewrite (IH _ _ Hd). exact He.
    + destruct (Store.mapO _ items) as [js|] eqn:Hm; [|discriminate H].
      erewrite mapO_impl; [exact H| |exact Hm].
      intros x y _ Hx. apply IH. exact Hx.
Qed.

Lemma deref_unchanged (s s' : Store.store) (v : Store.value) (o : Store.object) :
  Store.unchanged s s' -> Store.deref v s = Some o -> Store.deref v s' = Some o.
Proof.
  intros Hu H. destruct v; try discriminate H. apply Hu, H.
Qed.

Lemma decode_decoded (n : nat) (s : Store.store) (v : Store.value) (j : json) :
  Store.decode n s v = Some j -> Store.decoded n s v j.
Proof.
  intros H.
  destruct v as [|b|z|x|l];
    try (destruct n; simpl in H; injection H as <-; constructor).
  destruct n as [|n]; [simpl in H; discriminate H|]. rewrite decode_VRef in H.
  destruct (nth_error s l) as [[entries|items]|] eqn:Hl; [| |discriminate H].
  - destruct (Store.mapO _ entries) as [kvs|] eqn:Hm; [|discriminate H].
    injection H as <-. eapply Store.decoded_dict; [exact Hl|]. clear Hl.
    apply mapO_Forall2 in Hm.
    induction Hm as [|e kv es kvs' He _ IH]; [constructor|].
    constructor; [|exact IH].
    destruct e as [k v]; cbn [fst snd] in *.
    destruct k; try discriminate He. cbn [Store.key_str] in He.
    destruct (Store.decode n s v) as [j'|] eqn:Hd; [|discriminate He].
    injection He as <-. cbn [fst snd]. split; [reflexivity|].
    apply decode_S, Hd.
  - destruct (Store.mapO _ items) as [js|] eqn:Hm; [|discriminate H].
    injection H as <-. eapply Store.decoded_list; [exact Hl|]. clear Hl.
    apply mapO_Forall2 in Hm.
    induction Hm as [|v j' vs js' Hv _ IH]; [constructor|].
    constructor; [|exact IH].
    apply decode_S, Hv.
Qed.

(** *** The operations read what the JSON operations read *)

Lemma is_None_decode (n : nat) (s : Store.store) (v : Store.value) (j : json) :
  Store.decode n s v = Some j -> Store.is_None v = is_None j.
Proof.
  intros H. apply decode_decoded in H. destruct H; reflexivity.
Qed.

Lemma eq_str_decode (n : nat) (s : Store.store) (v : Store.value) (j : json)
    (lit : string) :
  Store.decode n s v = Some j -> Store.eq_str v lit = eq_str j lit.
Proof.
  intros H. apply decode_decoded in H. destruct H; reflexivity.
Qed.

Lemma truthy_decode (n : nat) (s : Store.store) (v : Store.value) (j : json) :
  Store.decode n s v = Some j -> Store.truthy v s = truthy j.
Proof.
  intros H. apply decode_decoded in H.
  destruct H as [| | | |l items js Hl Hall|l entries kvs Hl Hall];
    try reflexivity;
    unfold Store.truthy, Store.deref; rewrite Hl;
    destruct Hall; reflexivity.
Qed.

Lemma hashable_decode (n : nat) (s : Store.store) (v : Store.value) (j : json) :
  Store.decode n s v = Some j -> Store.hashable v = hashable j.
Proof.
  intros H. apply decode_decoded in H. destruct H; reflexivity.
Qed.

Lemma py_singularize_decode (n : nat) (s : Store.store) (v : Store.value)
    (j : json) :
  Store.decode n s v = Some j -> Store.py_singularize v = py_singularize j.
Proof.
  intros H. apply decode_decoded in H. destruct H; reflexivity.
Qed.

Lemma py_startswith_decode (n : nat) (s : Store.store) (v : Store.value)
    (j : json) (p : string) :
  Store.decode n s v = Some j -> Store.py_startswith v p = py_startswith j p.
Proof.
  intros H. apply decode_decoded in H. destruct H; reflexivity.
Qed.

Lemma join_item_decode (n : nat) (s : Store.store) (v : Store.value) (j : json) :
  Store.decode n s v = Some j -> Store.join_item v = join_item j.
Proof.
  intros H. apply decode_decoded in H. destruct H; reflexivity.
Qed.

Lemma lookup_assoc (n : nat) (s : Store.store)
    (entries : list (pykey * Store.value)) (kvs : list (string * json))
    (k : string) :
  Forall2 (fun e kv => fst e = KStr (fst kv)
                       /\ Store.decode n s (snd e) = Some (snd kv))
          entries kvs ->
  match Store.lookup (KStr k) entries, assoc k kvs with
  | Some x, Some y => Store.decode n s x = Some y
  | None, None => True
  | _, _ => False
  end.
Proof.
  induction 1 as [|[k1 v] [k2 j] es kvs' [Hk Hv] _ IH]; [exact I|].
  cbn [fst snd] in Hk, Hv. subst k1.
  cbn [Store.lookup assoc pykey_eqb].
  destruct (String.eqb k k2); [exact Hv | exact IH].
Qed.

Lemma get_default_decode (n : nat) (s : Store.store) (v d : Store.value)
    (j dj : json) (k : string) :
  Store.decode n s v = Some j ->
  Store.decode n s d = Some dj ->
  Store.reads n s (Store.get_default v k d s) (py_get_default j k dj).
Proof.
  intros H Hd. apply decode_decoded in H.
  destruct H as [| | | |l items js Hl Hall|l entries kvs Hl Hall];
    try reflexivity;
    unfold Store.get_default, Store.deref; rewrite Hl; [reflexivity|].
  cbn [py_get_default Store.reads Store.agree].
  pose proof (lookup_assoc n s entries kvs k Hall) as Hk.
  destruct (Store.lookup (KStr k) entries), (assoc k kvs);
    try contradiction; assumption.
Qed.

Lemma get_decode (n : nat) (s : Store.store) (v : Store.value) (j : json)
    (k : string) :
  Store.decode n s v = Some j ->
  Store.reads n s (Store.get v k s) (py_get j k).
Proof.
  intros H. apply (get_default_decode n s v Store.VNone j JNull k H).
  destruct n; reflexivity.
Qed.

Lemma index_decode (n : nat) (s : Store.store) (v : Store.value) (j : json)
    (k : string) :
  Store.decode n s v = Some j ->
  Store.reads n s (Store.index v k s) (py_index j k).
Proof.
  intros H. apply decode_decoded in H.
  destruct H as [| | | |l items js Hl Hall|l entries kvs Hl Hall];
    try reflexivity;
    unfold Store.index, Store.deref; rewrite Hl; [reflexivity|].
  cbn [py_index].
  pose proof (lookup_assoc n s entries kvs k Hall) as Hk.
  destruct (Store.lookup (KStr k) entries), (assoc k kvs);
    try contradiction; [exact Hk | reflexivity].
Qed.

Lemma chars_decode (n : nat) (s : Store.store) (x : string) :
  Forall2 (fun v j => Store.decode n s v = Some j) (Store.chars x) (chars x).
Proof.
  induction x as [|c x IH]; simpl; constructor; [|exact IH].
  destruct n; reflexivity.
Qed.

Lemma iter_decode (n : nat) (s : Store.store) (v : Store.value) (j : json) :
  Store.decode n s v = Some j ->
  Store.agree (Forall2 (fun v j => Store.decode n s v = Some j))
              (Store.iter v s) (py_iter j).
Proof.
  intros H. apply decode_decoded in H.
  destruct H as [| | |x|l items js Hl Hall|l entries kvs Hl Hall];
    try reflexivity.
  - apply chars_decode.
  - unfold Store.iter, Store.deref. rewrite Hl. exact Hall.
  - unfold Store.iter, Store.deref. rewrite Hl. cbn [py_iter Store.agree].
    clear Hl. induction Hall as [|[k1 v] [k2 j] es kvs' [Hk _] _ IH];
      [constructor|].
    cbn [fst] in Hk. subst k1. cbn [map fst]. constructor; [|exact IH].
    destruct n; reflexivity.
Qed.

Lemma mapM_Forall2 {A B C : Type} (f : A -> result C) (g : B -> C)
    (xs : list A) (ys : list B) :
  Forall2 (fun x y => f x = Ok (g y)) xs ys -> mapM f xs = Ok (map g ys).
Proof.
  induction 1 as [|x y xs ys Hx _ IH]; [reflexivity|].
  cbn [mapM map]. rewrite Hx, IH. reflexivity.
Qed.

Lemma repr_decode (n : nat) (s : Store.store) :
  forall v j, Store.decode n s v = Some j -> Store.repr n s v = Ok (py_repr j).
Proof.
  induction n as [|n IH]; intros v j H.
  - destruct v as [|[|]| | |]; simpl in H; try discriminate H;
      injection H as <-; reflexivity.
  - destruct v as [|[|]| | |l];
      try (simpl in H; injection H as <-; reflexivity).
    rewrite decode_VRef in H. cbn [Store.repr].
    destruct (nth_error s l) as [[entries|items]|]; [| |discriminate H].
    + destruct (Store.mapO _ entries) as [kvs|] eqn:Hm; [|discriminate H].
      injection H as <-. apply mapO_Forall2 in Hm.
      erewrite (mapM_Forall2 _ (fun kv => match kv with
                                          | (k, v) => repr_str k ++ ": " ++ py_repr v
                                          end)).
      * reflexivity.
      * induction Hm as [|[k1 v] [k2 j] es kvs' He _ IHm]; [constructor|].
        constructor; [|exact IHm]. cbn [fst snd] in *.
        destruct k1; try discriminate He. cbn [Store.key_str] in He.
        destruct (Store.decode n s v) as [j'|] eqn:Hd; [|discriminate He].
        injection He as <- <-. rewrite (IH _ _ Hd). reflexivity.
    + destruct (Store.mapO _ items) as [js|] eqn:Hm; [|discriminate H].
      injection H as <-. apply mapO_Forall2 in Hm.
      erewrite (mapM_Forall2 _ py_repr).
      * reflexivity.
      * induction Hm as [|v j es js' He _ IHm]; [constructor|].
        constructor; [|exact IHm]. apply IH, He.
Qed.

Lemma str_decode (n : nat) (s : Store.store) (v : Store.value) (j : json) :
  Store.decode n s v = Some j -> Store.str n v s = Ok (py_str j).
Proof.
  intros H. pose proof (repr_decode n s v j H) as Hr.
  apply decode_decoded in H. destruct H; try exact Hr; reflexivity.
Qed.

(** *** Runs *)

Lemma sim_ret {A B : Type} (T : Store.store -> Store.store -> Prop)
    (R : Store.store -> A -> B -> Prop) (s : Store.store) (a : A) (b : B) :
  T s s -> R s a b -> Store.sim T R s (Store.ret a) (Ok b).
Proof. intros HT HR. split; [exact HT | exact HR]. Qed.

Lemma sim_raise {A B : Type} (T : Store.store -> Store.store -> Prop)
    (R : Store.store -> A -> B -> Prop) (s : Store.store) (e : pyexc) :
  T s s -> Store.sim T R s (Store.raise e) (Err e).
Proof. intros HT. split; [exact HT | reflexivity]. Qed.

(** A step that reads: the store stays, the outcomes agree. *)
Lemma sim_read {A B C D : Type} (T : Store.store -> Store.store -> Prop)
    (Q : A -> B -> Prop) (R : Store.store -> C -> D -> Prop)
    (s : Store.store) (f : Store.store -> result A) (p : result B)
    (k : A -> Store.M C) (k' : B -> result D) :
  Store.agree Q (f s) p ->
  T s s ->
  (forall a b, f s = Ok a -> p = Ok b -> Q a b -> Store.sim T R s (k a) (k' b)) ->
  Store.sim T R s (Store.bindM (Store.read f) k) (bind p k').
Proof.
  intros Hag HT Hk. unfold Store.sim, Store.bindM, Store.read.
  destruct (f s) as [a|e], p as [b|e']; try contradiction.
  - apply (Hk a b eq_refl eq_refl Hag).
  - split; [exact HT | exact Hag].
Qed.

(** A step that reads and has no counterpart on JSON values. *)
Lemma sim_read_ok {A C D : Type} (T : Store.store -> Store.store -> Prop)
    (R : Store.store -> C -> D -> Prop)
    (s : Store.store) (f : Store.store -> result A) (a : A)
    (k : A -> Store.M C) (p : result D) :
  f s = Ok a ->
  Store.sim T R s (k a) p ->
  Store.sim T R s (Store.bindM (Store.read f) k) p.
Proof.
  intros Hf Hk. unfold Store.sim, Store.bindM, Store.read. rewrite Hf.
  exact Hk.
Qed.

Lemma sim_test {C D : Type} (T : Store.store -> Store.store -> Prop)
    (R : Store.store -> C -> D -> Prop)
    (s : Store.store) (v : Store.value) (k : bool -> Store.M C) (p : result D) :
  Store.sim T R s (k (Store.truthy v s)) p ->
  Store.sim T R s (Store.bindM (Store.test v) k) p.
Proof. intros H. exact H. Qed.

Lemma sim_alloc {C D : Type} (T : Store.store -> Store.store -> Prop)
    (R : Store.store -> C -> D -> Prop)
    (s : Store.store) (o : Store.object) (k : Store.value -> Store.M C)
    (p : result D) :
  (forall s', T (s ++ [o])%list s' -> T s s') ->
  Store.sim T R (s ++ [o])%list (k (Store.VRef (List.length s))) p ->
  Store.sim T R s (Store.bindM (Store.alloc o) k) p.
Proof.
  intros HT [H1 H2]. split; [apply HT, H1 | exact H2].
Qed.

Lemma sim_bind {A B C D : Type}
    (T1 T2 : Store.store -> Store.store -> Prop)
    (Q : Store.store -> A -> B -> Prop) (R : Store.store -> C -> D -> Prop)
    (s : Store.store) (m : Store.M A) (p : result B)
    (k : A -> Store.M C) (k' : B -> result D) :
  Store.sim T1 Q s m p ->
  (forall s', T1 s s' -> T2 s s') ->
  (forall s' s'', T1 s s' -> T2 s' s'' -> T2 s s'') ->
  (forall s' a b, T1 s s' -> Q s' a b -> Store.sim T2 R s' (k a) (k' b)) ->
  Store.sim T2 R s (Store.bindM m k) (bind p k').
Proof.
  intros [HT Hag] Hsub Hcomp Hk. unfold Store.sim, Store.bindM in *.
  destruct (m s) as [s' [a|e]]; cbn [fst snd] in *;
    destruct p as [b|e']; try contradiction.
  - destruct (Hk s' a b HT Hag) as [HT2 Hag2]. split; [|exact Hag2].
    apply (Hcomp s' _ HT HT2).
  - split; [apply Hsub, HT | exact Hag].
Qed.

Lemma sim_bind_unchanged {A B C D : Type}
    (Q : Store.store -> A -> B -> Prop) (R : Store.store -> C -> D -> Prop)
    (s : Store.store) (m : Store.M A) (p : result B)
    (k : A -> Store.M C) (k' : B -> result D) :
  Store.sim Store.unchanged Q s m p ->
  (forall s' a b, Store.unchanged s s' -> Q s' a b ->
                  Store.sim Store.unchanged R s' (k a) (k' b)) ->
  Store.sim Store.unchanged R s (Store.bindM m k) (bind p k').
Proof.
  intros Hm Hk. apply (sim_bind Store.unchanged Store.unchanged Q R s m p k k' Hm).
  - intros s' H. exact H.
  - intros s' s'' H1 H2. apply (unchanged_trans _ _ _ H1 H2).
  - exact Hk.
Qed.

Lemma sim_alloc_unchanged {C D : Type}
    (R : Store.store -> C -> D -> Prop)
    (s : Store.store) (o : Store.object) (k : Store.value -> Store.M C)
    (p : result D) :
  Store.sim Store.unchanged R (s ++ [o])%list (k (Store.VRef (List.length s))) p ->
  Store.sim Store.unchanged R s (Store.bindM (Store.alloc o) k) p.
Proof.
  apply sim_alloc. intros s' H.
  apply (unchanged_trans _ _ _ (unchanged_alloc s o) H).
Qed.

Lemma nth_error_alloc (s : Store.store) (o : Store.object) :
  nth_error (s ++ [o])%list (List.length s) = Some o.
Proof.
  rewrite nth_error_app2, Nat.sub_diag; [reflexivity | apply Nat.le_refl].
Qed.

(** *** The type map *)

Lemma decodes_map_unchanged (n : nat) (s s' : Store.store) (v : Store.value)
    (type_map : option pydict) :
  Store.unchanged s s' ->
  Store.decodes_map n s v type_map -> Store.decodes_map n s' v type_map.
Proof.
  intros Hu H. destruct type_map as [d|]; [|exact H].
  destruct H as (entries & Hd & Hall). exists entries. split.
  - apply (deref_unchanged _ _ _ _ Hu Hd).
  - eapply Forall2_impl; [|exact Hall].
    intros e b [Hk Hv]. split; [exact Hk|].
    apply (decode_unchanged _ _ _ Hu _ _ Hv).
Qed.

Lemma truthy_map_decode (n : nat) (s : Store.store) (v : Store.value)
    (type_map : option pydict) :
  Store.decodes_map n s v type_map -> Store.truthy v s = truthy_map type_map.
Proof.
  intros H. destruct type_map as [d|]; [|rewrite H; reflexivity].
  destruct H as (entries & Hd & Hall).
  destruct v; try discriminate Hd. unfold Store.truthy. rewrite Hd.
  destruct Hall; reflexivity.
Qed.

Lemma lookup_dict_lookup (n : nat) (s : Store.store)
    (entries : list (pykey * Store.value)) (d : pydict) (k : pykey) :
  Forall2 (fun e b => fst e = fst b /\ Store.decode n s (snd e) = Some (snd b))
          entries d ->
  match Store.lookup k entries, dict_lookup k d with
  | Some x, Some y => Store.decode n s x = Some y
  | None, None => True
  | _, _ => False
  end.
Proof.
  induction 1 as [|[k1 v] [k2 j] es d' [Hk Hv] _ IH]; [exact I|].
  cbn [fst snd] in Hk, Hv. subst k1.
  cbn [Store.lookup dict_lookup].
  destruct (pykey_eqb k k2); [exact Hv | exact IH].
Qed.

(** *** [convert_type] *)

Lemma fallback_inner_sim (limit d : nat) (s : Store.store)
    (fb tm : Store.value) (fbj : json) (tmj : option pydict) :
  S d <= limit ->
  Store.decode limit s fb = Some fbj ->
  Store.decodes_map d s tm tmj ->
  Store.sim Store.unchanged (fun s' v j => Store.decode limit s' v = Some j) s
            (Store.fallback_inner fb tm) (fallback_inner fbj tmj).
Proof.
  intros Hlim Hfb Htm. destruct limit as [|limit]; [lia|].
  assert (Hd : d <= limit) by lia. clear Hlim.
  unfold Store.fallback_inner, fallback_inner.
  apply sim_test. apply sim_test.
  rewrite (truthy_decode _ _ _ _ Hfb), (truthy_map_decode _ _ _ _ Htm).
  destruct (truthy fbj && truthy_map tmj) eqn:Hc.
  - apply andb_prop in Hc. destruct Hc as [_ Hmap].
    destruct tmj as [[|b0 dict]|]; try discriminate Hmap. clear Hmap.
    destruct Htm as (entries & Hderef & Hall).
    eapply (sim_read _ eq).
    + rewrite (py_singularize_decode _ _ _ _ Hfb).
      destruct (py_singularize fbj); reflexivity.
    + apply unchanged_refl.
    + intros candidate c' _ _ <-.
      apply sim_alloc_unchanged.
      set (s1 := (s ++ [Store.ODict []])%list).
      assert (Hu : Store.unchanged s s1) by apply unchanged_alloc.
      unfold Store.get_default at 2.
      eapply sim_read_ok.
      { unfold Store.get_default. rewrite (deref_unchanged _ _ _ _ Hu Hderef).
        reflexivity. }
      unfold dict_get.
      pose proof (lookup_dict_lookup d s entries (b0 :: dict) (KStr candidate) Hall)
        as Hl.
      assert (Hkind :
        Store.reads d s1
          (Store.get_default
             (match Store.lookup (KStr candidate) entries with
              | Some x => x
              | None => Store.VRef (List.length s)
              end) "kind" (Store.VStr "OBJECT") s1)
          (py_get_default
             (match dict_lookup (KStr candidate) (b0 :: dict) with
              | Some v => v
              | None => JObj []
              end) "kind" (JStr "OBJECT"))).
      { destruct (Store.lookup (KStr candidate) entries) as [x|],
                 (dict_lookup (KStr candidate) (b0 :: dict)) as [y|];
          try contradiction.
        - apply get_default_decode.
          + apply (decode_unchanged _ _ _ Hu _ _ Hl).
          + destruct d; reflexivity.
        - unfold Store.get_default, Store.deref, s1.
          rewrite nth_error_alloc. destruct d; reflexivity. }
      eapply (sim_read _ (fun v j => Store.decode d s1 v = Some j)).
      * exact Hkind.
      * apply unchanged_refl.
      * intros kind kindj _ _ Hk.
        split; [apply unchanged_alloc|].
        cbn [Store.alloc fst snd Store.agree].
        rewrite decode_VRef, nth_error_alloc.
        cbn [Store.mapO fst snd Store.key_str].
        rewrite (decode_unchanged _ _ _ (unchanged_alloc s1 _) _ _
                   (decode_le _ _ _ _ _ Hd Hk)).
        destruct limit; reflexivity.
  - split; [apply unchanged_alloc|].
    cbn [Store.alloc fst snd Store.agree].
    rewrite decode_VRef, nth_error_alloc. destruct limit; reflexivity.
Qed.

Lemma convert_type_sim (limit d : nat) (tmj : option pydict) (fuel : nat) :
  S d <= limit ->
  forall (s : Store.store) (gt fb tm : Store.value) (j fbj : json),
    Store.decode limit s gt = Some j ->
    Store.decode limit s fb = Some fbj ->
    Store.decodes_map d s tm tmj ->
    Store.sim Store.unchanged (fun s' v j' => Store.decode limit s' v = Some j') s
              (Store.convert_type limit fuel gt fb tm)
              (convert_type fuel j fbj tmj).
Proof.
  intros Hlim.
  induction fuel as [|fuel IH]; intros s gt fb tm j fbj Hgt Hfb Htm.
  - apply sim_raise, unchanged_refl.
  - cbn [Store.convert_type convert_type].
    rewrite (is_None_decode _ _ _ _ Hgt).
    destruct (is_None j).
    { apply sim_ret; [apply unchanged_refl | destruct limit; reflexivity]. }
    assert (Hwrap :
      forall (wrap : string -> string),
        Store.sim Store.unchanged
          (fun s' v j' => Store.decode limit s' v = Some j') s
          (Store.bindM (Store.read (Store.get gt "ofType")) (fun inner =>
           Store.bindM (if Store.is_None inner
                        then Store.fallback_inner fb tm
                        else Store.ret inner) (fun inner =>
           Store.bindM (Store.convert_type limit fuel inner fb tm) (fun r =>
           Store.bindM (Store.read (Store.str limit r)) (fun text =>
           Store.ret (Store.VStr (wrap text)))))))
          (inner <- py_get j "ofType" ;;
           inner <- (if is_None inner then fallback_inner fbj tmj else Ok inner) ;;
           r <- convert_type fuel inner fbj tmj ;;
           Ok (JStr (wrap (py_str r))))).
    { intros wrap.
      eapply sim_read;
        [apply (get_decode _ _ _ _ "ofType" Hgt) | apply unchanged_refl |].
      intros inner innerj _ _ Hinner. cbv beta in Hinner.
      eapply sim_bind_unchanged.
      - rewrite (is_None_decode _ _ _ _ Hinner). destruct (is_None innerj).
        + apply (fallback_inner_sim limit d s fb tm fbj tmj Hlim Hfb Htm).
        + apply sim_ret; [apply unchanged_refl | exact Hinner].
      - intros s1 inner1 innerj1 Hu1 Hinner1. cbv beta in Hinner1.
        eapply sim_bind_unchanged.
        + apply (IH s1 inner1 fb tm innerj1 fbj Hinner1).
          * apply (decode_unchanged _ _ _ Hu1 _ _ Hfb).
          * apply (decodes_map_unchanged _ _ _ _ _ Hu1 Htm).
        + intros s2 r rj _ Hr. cbv beta in Hr.
          eapply sim_read_ok; [apply (str_decode _ _ _ _ Hr)|].
          apply sim_ret; [apply unchanged_refl | destruct limit; reflexivity]. }
    eapply sim_read;
      [apply (get_decode _ _ _ _ "kind" Hgt) | apply unchanged_refl |].
    intros kind kindj _ _ Hkind. cbv beta in Hkind.
    rewrite !(eq_str_decode _ _ _ _ _ Hkind).
    destruct (eq_str kindj "NON_NULL"); [apply (Hwrap (fun x => x ++ "!"))|].
    destruct (eq_str kindj "LIST");
      [apply (Hwrap (fun x => "[" ++ x ++ "]"))|].
    eapply sim_read;
      [apply (get_decode _ _ _ _ "name" Hgt) | apply unchanged_refl |].
    intros name namej _ _ Hname. cbv beta in Hname.
    apply sim_test. rewrite (truthy_decode _ _ _ _ Hname).
    apply sim_ret; [apply unchanged_refl|].
    destruct (truthy namej); [exact Hname | destruct limit; reflexivity].
Qed.

(** *** Fields *)

Lemma bind_assoc {A B C : Type} (m : result A) (f : A -> result B)
    (g : B -> result C) :
  bind (bind m f) g = bind m (fun x => bind (f x) g).
Proof. destruct m; reflexivity. Qed.

Lemma convert_field_sim (limit d fuel : nat) (tmj : option pydict)
    (s : Store.store) (field tm : Store.value) (fieldj : json) :
  S d <= limit ->
  Store.decode limit s field = Some fieldj ->
  Store.decodes_map d s tm tmj ->
  Store.sim Store.unchanged (fun _ a b => a = b) s
            (Store.convert_field limit fuel field tm)
            (convert_field fuel fieldj tmj).
Proof.
  intros Hlim Hf Htm. unfold Store.convert_field, convert_field.
  eapply sim_read;
    [apply (index_decode _ _ _ _ "name" Hf) | apply unchanged_refl |].
  intros name namej Hname_eq _ Hname. cbv beta in Hname.
  eapply sim_read_ok; [apply (str_decode _ _ _ _ Hname)|].
  eapply sim_read;
    [apply (index_decode _ _ _ _ "type" Hf) | apply unchanged_refl |].
  intros ty tyj _ _ Hty. cbv beta in Hty.
  eapply sim_read_ok; [exact Hname_eq|].
  eapply sim_bind_unchanged.
  - apply (convert_type_sim limit d tmj fuel Hlim s ty name tm tyj namej
             Hty Hname Htm).
  - intros s1 r rj _ Hr. cbv beta in Hr.
    eapply sim_read_ok; [apply (str_decode _ _ _ _ Hr)|].
    apply sim_ret; [apply unchanged_refl | reflexivity].
Qed.

Lemma convert_input_field_sim (limit d fuel : nat) (tmj : option pydict)
    (s : Store.store) (field tm : Store.value) (fieldj : json) :
  S d <= limit ->
  Store.decode limit s field = Some fieldj ->
  Store.decodes_map d s tm tmj ->
  Store.sim Store.unchanged (fun _ a b => a = b) s
            (Store.convert_input_field limit fuel field tm)
            (convert_input_field fuel fieldj tmj).
Proof.
  intros Hlim Hf Htm.
  unfold Store.convert_input_field, convert_input_field, convert_field.
  rewrite bind_assoc.
  eapply sim_read;
    [apply (index_decode _ _ _ _ "name" Hf) | apply unchanged_refl |].
  intros name namej Hname_eq _ Hname. cbv beta in Hname.
  eapply sim_read_ok; [apply (str_decode _ _ _ _ Hname)|].
  rewrite bind_assoc.
  eapply sim_read;
    [apply (index_decode _ _ _ _ "type" Hf) | apply unchanged_refl |].
  intros ty tyj _ _ Hty. cbv beta in Hty.
  eapply sim_read_ok; [exact Hname_eq|].
  rewrite bind_assoc.
  eapply sim_bind_unchanged.
  - apply (convert_type_sim limit d tmj fuel Hlim s ty name tm tyj namej
             Hty Hname Htm).
  - intros s1 r rj Hu1 Hr. cbv beta in Hr.
    eapply sim_read_ok; [apply (str_decode _ _ _ _ Hr)|].
    cbn [bind].
    pose proof (decode_unchanged _ _ _ Hu1 _ _ Hf) as Hf1.
    eapply sim_read;
      [apply (get_decode _ _ _ _ "defaultValue" Hf1) | apply unchanged_refl |].
    intros default defaultj _ _ Hdef. cbv beta in Hdef.
    rewrite (is_None_decode _ _ _ _ Hdef).
    destruct (is_None defaultj); cbn [negb].
    + apply sim_ret; [apply unchanged_refl | reflexivity].
    + eapply sim_read_ok; [apply (str_decode _ _ _ _ Hdef)|].
      apply sim_ret; [apply unchanged_refl | reflexivity].
Qed.

Lemma traverse_sim (limit d : nat) (tmj : option pydict) (tm : Store.value)
    (F : Store.value -> Store.M string) (G : json -> result string) :
  (forall s v j,
      Store.decode limit s v = Some j ->
      Store.decodes_map d s tm tmj ->
      Store.sim Store.unchanged (fun _ a b => a = b) s (F v) (G j)) ->
  forall (vs : list Store.value) (js : list json) (s : Store.store),
    Forall2 (fun v j => Store.decode limit s v = Some j) vs js ->
    Store.decodes_map d s tm tmj ->
    Store.sim Store.unchanged (fun _ a b => a = b) s
              (Store.traverse F vs) (mapM G js).
Proof.
  intros HF vs. induction vs as [|v vs IH]; intros js s Hall Htm.
  - inversion Hall; subst. apply sim_ret; [apply unchanged_refl | reflexivity].
  - inversion Hall as [|v' j vs' js' Hv Hrest]; subst.
    cbn [Store.traverse mapM].
    eapply sim_bind_unchanged; [apply (HF s v j Hv Htm)|].
    intros s1 y y' Hu1 <-.
    eapply sim_bind_unchanged.
    + apply IH; [|apply (decodes_map_unchanged _ _ _ _ _ Hu1 Htm)].
      eapply Forall2_impl; [|exact Hrest].
      intros a b Hab. apply (decode_unchanged _ _ _ Hu1 _ _ Hab).
    + intros s2 ys ys' _ <-.
      apply sim_ret; [apply unchanged_refl | reflexivity].
Qed.

(** *** Updates *)

Lemma update_same (s : Store.store) (l : Store.loc) (o o' : Store.object) :
  nth_error s l = Some o' -> nth_error (Store.update l o s) l = Some o.
Proof.
  revert l. induction s as [|x s IH]; intros [|l] H; try discriminate H.
  - reflexivity.
  - apply (IH l H).
Qed.

Lemma update_other (s : Store.store) (l l' : Store.loc) (o : Store.object) :
  l' <> l -> nth_error (Store.update l o s) l' = nth_error s l'.
Proof.
  revert l l'. induction s as [|x s IH]; intros [|l] [|l'] H;
    try reflexivity.
  - contradiction.
  - cbn [Store.update nth_error]. apply IH. intros ->. apply H. reflexivity.
Qed.

Lemma writes_only_refl (l : Store.loc) (s : Store.store) :
  Store.writes_only l s s.
Proof. intros l' o _ H. exact H. Qed.

Lemma unchanged_writes_only (l : Store.loc) (s s' s'' : Store.store) :
  Store.unchanged s s' -> Store.writes_only l s' s'' ->
  Store.writes_only l s s''.
Proof. intros H1 H2 l' o Hne H. apply (H2 _ _ Hne), H1, H. Qed.

Lemma writes_only_update (l : Store.loc) (o : Store.object) (s : Store.store) :
  Store.writes_only l s (Store.update l o s).
Proof. intros l' o' Hne H. rewrite (update_other _ _ _ _ Hne). exact H. Qed.

Lemma writes_only_fresh (l : Store.loc) (s0 s s' : Store.store) :
  nth_error s0 l = None ->
  Store.unchanged s0 s -> Store.writes_only l s s' -> Store.unchanged s0 s'.
Proof.
  intros Hfresh Hu Hw l' o H. apply Hw; [|apply Hu, H].
  intros ->. rewrite Hfresh in H. discriminate H.
Qed.

Lemma sim_alloc_writes {C D : Type} (l : Store.loc)
    (R : Store.store -> C -> D -> Prop)
    (s : Store.store) (o : Store.object) (k : Store.value -> Store.M C)
    (p : result D) :
  Store.sim (Store.writes_only l) R (s ++ [o])%list
            (k (Store.VRef (List.length s))) p ->
  Store.sim (Store.writes_only l) R s (Store.bindM (Store.alloc o) k) p.
Proof.
  apply sim_alloc. intros s' H.
  apply (unchanged_writes_only _ _ _ _ (unchanged_alloc s o) H).
Qed.

Lemma sim_bind_writes {A B C D : Type} (l : Store.loc)
    (Q : Store.store -> A -> B -> Prop) (R : Store.store -> C -> D -> Prop)
    (s : Store.store) (m : Store.M A) (p : result B)
    (k : A -> Store.M C) (k' : B -> result D) :
  Store.sim Store.unchanged Q s m p ->
  (forall s' a b, Store.unchanged s s' -> Q s' a b ->
                  Store.sim (Store.writes_only l) R s' (k a) (k' b)) ->
  Store.sim (Store.writes_only l) R s (Store.bindM m k) (bind p k').
Proof.
  intros Hm Hk.
  apply (sim_bind Store.unchanged (Store.writes_only l) Q R s m p k k' Hm).
  - intros s' H l' o _ Hl. apply H, Hl.
  - intros s' s'' H1 H2. apply (unchanged_writes_only _ _ _ _ H1 H2).
  - exact Hk.
Qed.

(** [schema_parts.append(text)] *)
Lemma sim_append (lp : Store.loc) (s : Store.store) (parts : list string)
    (text : string) :
  nth_error s lp = Some (Store.OList (map Store.VStr parts)) ->
  Store.sim (Store.writes_only lp)
    (fun s' (_ : unit) parts' =>
       nth_error s' lp = Some (Store.OList (map Store.VStr parts')))
    s (Store.list_append (Store.VRef lp) (Store.VStr text))
    (Ok (append parts text)).
Proof.
  intros H. unfold Store.sim, Store.list_append, Store.deref. rewrite H.
  cbn [fst snd Store.agree]. split; [apply writes_only_update|].
  rewrite (update_same _ _ _ _ H). unfold append. rewrite map_app.
  reflexivity.
Qed.

Lemma agree_eq {A : Type} (r : result A) : Store.agree eq r r.
Proof. destruct r; reflexivity. Qed.

Lemma filter_decode (n : nat) (s : Store.store) (vs : list Store.value)
    (js : list json) :
  Forall2 (fun v j => Store.decode n s v = Some j) vs js ->
  Forall2 (fun v j => Store.decode n s v = Some j)
          (filter (fun f => negb (Store.is_None f)) vs)
          (filter (fun f => negb (is_None f)) js).
Proof.
  induction 1 as [|v j vs js Hv _ IH]; [constructor|].
  cbn [filter]. rewrite (is_None_decode _ _ _ _ Hv).
  destruct (is_None j); cbn [negb]; [exact IH|].
  constructor; [exact Hv | exact IH].
Qed.

Lemma mapM_index_decode (n : nat) (s : Store.store) (k : string)
    (vs : list Store.value) (js : list json) :
  Forall2 (fun v j => Store.decode n s v = Some j) vs js ->
  Store.agree (Forall2 (fun v j => Store.decode n s v = Some j))
              (mapM (fun ev => Store.index ev k s) vs)
              (mapM (fun ev => py_index ev k) js).
Proof.
  induction 1 as [|v j vs js Hv _ IH]; [constructor|].
  cbn [mapM]. pose proof (index_decode _ _ _ _ k Hv) as Hi.
  unfold Store.reads in Hi.
  destruct (Store.index v k s) as [x|e], (py_index j k) as [y|e'];
    try contradiction; cbn [bind Store.agree] in *; [|exact Hi].
  destruct (mapM (fun ev => Store.index ev k s) vs) as [xs|e],
           (mapM (fun ev => py_index ev k) js) as [ys|e'];
    try contradiction; cbn [bind Store.agree] in *; [|exact IH].
  constructor; [exact Hi | exact IH].
Qed.

Lemma mapM_join_item_decode (n : nat) (s : Store.store)
    (vs : list Store.value) (js : list json) :
  Forall2 (fun v j => Store.decode n s v = Some j) vs js ->
  mapM Store.join_item vs = mapM join_item js.
Proof.
  induction 1 as [|v j vs js Hv _ IH]; [reflexivity|].
  cbn [mapM]. rewrite (join_item_decode _ _ _ _ Hv), IH. reflexivity.
Qed.

Lemma mapM_join_item_strings (parts : list string) :
  mapM Store.join_item (map Store.VStr parts) = Ok parts.
Proof.
  induction parts as [|x parts IH]; [reflexivity|].
  cbn [map mapM Store.join_item bind]. rewrite IH. reflexivity.
Qed.

(** *** The loop of [generate_graphql_schema] *)

Lemma schema_step_sim (limit d fuel : nat) (m : pydict) (s : Store.store)
    (tm t : Store.value) (lp : Store.loc) (tj : json) (parts : list string) :
  S d <= limit ->
  Store.decode limit s t = Some tj ->
  Store.decodes_map d s tm (Some m) ->
  nth_error s lp = Some (Store.OList (map Store.VStr parts)) ->
  Store.sim (Store.writes_only lp)
    (fun s' (_ : unit) parts' =>
       nth_error s' lp = Some (Store.OList (map Store.VStr parts')))
    s (Store.schema_step limit fuel tm (Store.VRef lp) t)
    (schema_step fuel (Some m) parts tj).
Proof.
  intros Hlim Ht Htm Hlp.
  assert (Hlimit : exists limit', limit = S limit').
  { destruct limit; [lia | eexists; reflexivity]. }
  assert (Hkeep : Store.sim (Store.writes_only lp)
            (fun s' (_ : unit) parts' =>
               nth_error s' lp = Some (Store.OList (map Store.VStr parts')))
            s (Store.ret tt) (Ok parts)).
  { apply sim_ret; [apply writes_only_refl | exact Hlp]. }
  assert (Happend :
    forall s1 name namej (keyword : string) (lines : list string),
      Store.unchanged s s1 ->
      Store.decode limit s name = Some namej ->
      Store.sim (Store.writes_only lp)
        (fun s' (_ : unit) parts' =>
           nth_error s' lp = Some (Store.OList (map Store.VStr parts')))
        s1
        (Store.bindM (Store.read (Store.str limit name)) (fun name_text =>
           Store.list_append (Store.VRef lp)
             (Store.VStr (block keyword name_text (join (nl ++ "  ") lines)))))
        (Ok (append parts (block keyword (py_str namej)
                                 (join (nl ++ "  ") lines))))).
  { intros s1 name namej keyword lines Hu1 Hname.
    eapply sim_read_ok;
      [apply (str_decode _ _ _ _ (decode_unchanged _ _ _ Hu1 _ _ Hname))|].
    apply sim_append. apply Hu1, Hlp. }
  unfold Store.schema_step, schema_step.
  eapply sim_read;
    [apply (get_decode _ _ _ _ "name" Ht) | apply writes_only_refl |].
  intros name namej _ _ Hname. cbv beta in Hname.
  apply sim_test. rewrite (truthy_decode _ _ _ _ Hname).
  eapply (sim_bind (fun s s' => s' = s) _ (fun _ a b => a = b)).
  { destruct (truthy namej); cbn [negb].
    - unfold Store.sim, Store.read. cbn [fst snd]. split; [reflexivity|].
      rewrite (py_startswith_decode _ _ _ _ "__" Hname). apply agree_eq.
    - split; reflexivity. }
  { intros s' ->. apply writes_only_refl. }
  { intros s' s'' -> H. exact H. }
  intros s' skip skip' -> <-. destruct skip; [exact Hkeep|].
  eapply sim_read;
    [apply (get_decode _ _ _ _ "fields" Ht) | apply writes_only_refl |].
  intros fields0 fieldsj0 _ _ Hfields0. cbv beta in Hfields0.
  rewrite (is_None_decode _ _ _ _ Hfields0).
  destruct (is_None fieldsj0); cbn [negb].
  2:{ (* object type *)
    eapply sim_read;
      [apply (index_decode _ _ _ _ "fields" Ht) | apply writes_only_refl |].
    intros fields fieldsj Hfields_eq _ Hfields. cbv beta in Hfields.
    apply sim_test. rewrite (truthy_decode _ _ _ _ Hfields).
    destruct (truthy fieldsj); cbn [negb]; [|exact Hkeep].
    eapply sim_read_ok; [exact Hfields_eq|].
    eapply sim_read;
      [apply (iter_decode _ _ _ _ Hfields) | apply writes_only_refl |].
    intros fs fsj _ _ Hfs.
    eapply sim_bind_writes.
    - apply (traverse_sim limit d (Some m) tm
               (fun f => Store.convert_field limit fuel f tm)
               (fun f => convert_field fuel f (Some m))).
      + intros s1 v j Hv Htm1.
        apply (convert_field_sim limit d fuel (Some m) s1 v tm j Hlim Hv Htm1).
      + apply filter_decode, Hfs.
      + exact Htm.
    - intros s1 lines lines' Hu1 <-.
      apply (Happend s1 name namej "type" lines Hu1 Hname). }
  eapply sim_read;
    [apply (get_decode _ _ _ _ "inputFields" Ht) | apply writes_only_refl |].
  intros input0 inputj0 _ _ Hinput0. cbv beta in Hinput0.
  rewrite (is_None_decode _ _ _ _ Hinput0).
  destruct (is_None inputj0); cbn [negb].
  2:{ (* input type *)
    apply sim_alloc_writes.
    set (s1 := (s ++ [Store.OList []])%list).
    assert (Hu1 : Store.unchanged s s1) by apply unchanged_alloc.
    assert (Hempty : Store.decode limit s1 (Store.VRef (List.length s))
                     = Some (JArr [])).
    { destruct Hlimit as [limit' ->]. rewrite decode_VRef.
      unfold s1. rewrite nth_error_alloc. reflexivity. }
    eapply sim_read;
      [apply (get_default_decode _ _ _ _ _ _ "inputFields"
                (decode_unchanged _ _ _ Hu1 _ _ Ht) Hempty)
      | apply writes_only_refl |].
    intros input inputj _ _ Hinput. cbv beta in Hinput.
    eapply sim_read;
      [apply (iter_decode _ _ _ _ Hinput) | apply writes_only_refl |].
    intros fs fsj _ _ Hfs.
    eapply sim_bind_writes.
    - apply (traverse_sim limit d (Some m) tm
               (fun f => Store.convert_input_field limit fuel f tm)
               (fun f => convert_input_field fuel f (Some m))).
      + intros s2 v j Hv Htm2.
        apply (convert_input_field_sim limit d fuel (Some m) s2 v tm j
                 Hlim Hv Htm2).
      + exact Hfs.
      + apply (decodes_map_unchanged _ _ _ _ _ Hu1 Htm).
    - intros s2 lines lines' Hu2 <-.
      apply (Happend s2 name namej "input" lines
               (unchanged_trans _ _ _ Hu1 Hu2) Hname). }
  eapply sim_read;
    [apply (get_decode _ _ _ _ "enumValues" Ht) | apply writes_only_refl |].
  intros enum0 enumj0 _ _ Henum0. cbv beta in Henum0.
  rewrite (is_None_decode _ _ _ _ Henum0).
  destruct (is_None enumj0); cbn [negb].
  2:{ (* enum type *)
    eapply sim_read;
      [apply (index_decode _ _ _ _ "enumValues" Ht) | apply writes_only_refl |].
    intros enum1 enumj1 _ _ Henum1. cbv beta in Henum1.
    apply sim_test. rewrite (truthy_decode _ _ _ _ Henum1).
    destruct (truthy enumj1); cbn [negb]; [|exact Hkeep].
    apply sim_alloc_writes.
    set (s1 := (s ++ [Store.OList []])%list).
    assert (Hu1 : Store.unchanged s s1) by apply unchanged_alloc.
    assert (Hempty : Store.decode limit s1 (Store.VRef (List.length s))
                     = Some (JArr [])).
    { destruct Hlimit as [limit' ->]. rewrite decode_VRef.
      unfold s1. rewrite nth_error_alloc. reflexivity. }
    eapply sim_read;
      [apply (get_default_decode _ _ _ _ _ _ "enumValues"
                (decode_unchanged _ _ _ Hu1 _ _ Ht) Hempty)
      | apply writes_only_refl |].
    intros enum enumj _ _ Henum. cbv beta in Henum.
    eapply sim_read;
      [apply (iter_decode _ _ _ _ Henum) | apply writes_only_refl |].
    intros evs evsj _ _ Hevs.
    eapply sim_read;
      [apply (mapM_index_decode _ _ "name" _ _ Hevs) | apply writes_only_refl |].
    intros names namesj _ _ Hnames.
    eapply (sim_read _ eq);
      [rewrite (mapM_join_item_decode _ _ _ _ Hnames); apply agree_eq
      | apply writes_only_refl |].
    intros vals vals' _ _ <-.
    apply (Happend s1 name namej "enum" vals Hu1 Hname). }
  (* scalar type *)
  eapply sim_read_ok; [apply (str_decode _ _ _ _ Hname)|].
  apply sim_append. exact Hlp.
Qed.

Lemma unchanged_length (s s' : Store.store) :
  Store.unchanged s s' -> List.length s <= List.length s'.
Proof.
  intros Hu. destruct (Nat.le_gt_cases (List.length s) (List.length s'))
    as [H|H]; [exact H|].
  destruct (nth_error s (List.length s')) as [o|] eqn:Ho.
  - apply Hu in Ho. apply nth_error_Some in H.
    assert (Hnone : nth_error s' (List.length s') = None)
      by (apply nth_error_None, Nat.le_refl).
    rewrite Hnone in Ho. discriminate Ho.
  - apply nth_error_None in Ho. lia.
Qed.

Lemma unchanged_fresh (s s' : Store.store) :
  Store.unchanged s s' -> nth_error s (List.length s') = None.
Proof.
  intros Hu. apply nth_error_None, unchanged_length, Hu.
Qed.

Lemma iter_unchanged (n : nat) (s s' : Store.store) (v : Store.value)
    (j : json) :
  Store.decode n s v = Some j ->
  Store.unchanged s s' ->
  Store.iter v s' = Store.iter v s.
Proof.
  intros H Hu. apply decode_decoded in H.
  destruct H as [| | | |l items js Hl _|l entries kvs Hl _];
    try reflexivity;
    unfold Store.iter, Store.deref; rewrite Hl, (Hu _ _ Hl); reflexivity.
Qed.

Lemma set_entry_dict_set (n : nat) (s : Store.store) (k : pykey)
    (v : Store.value) (j : json)
    (entries : list (pykey * Store.value)) (d : pydict) :
  Store.decode n s v = Some j ->
  Forall2 (fun e b => fst e = fst b /\ Store.decode n s (snd e) = Some (snd b))
          entries d ->
  Forall2 (fun e b => fst e = fst b /\ Store.decode n s (snd e) = Some (snd b))
          (Store.set_entry k v entries) (dict_set k j d).
Proof.
  intros Hv. induction 1 as [|[k1 v1] [k2 j2] es d' [Hk Hv1] Hrest IH].
  - constructor; [split; [reflexivity | exact Hv] | constructor].
  - cbn [fst snd] in Hk, Hv1. subst k1. cbn [Store.set_entry dict_set].
    destruct (pykey_eqb k k2).
    + constructor; [split; [reflexivity | exact Hv] | exact Hrest].
    + constructor; [split; [reflexivity | exact Hv1] | exact IH].
Qed.

(** The dict comprehension fills the new dict and nothing else. *)
Lemma build_type_map_sim (d : nat) (s0 : Store.store) (lm : Store.loc) :
  nth_error s0 lm = None ->
  forall (ts : list Store.value) (tjs : list json) (s : Store.store)
         (entries : list (pykey * Store.value)) (acc : pydict),
    Forall2 (fun v j => Store.decode d s0 v = Some j) ts tjs ->
    Store.unchanged s0 s ->
    nth_error s lm = Some (Store.ODict entries) ->
    Forall2 (fun e b => fst e = fst b
                        /\ Store.decode d s0 (snd e) = Some (snd b))
            entries acc ->
    Store.sim (fun _ s' => Store.unchanged s0 s')
      (fun s' (_ : unit) m =>
         exists entries',
           nth_error s' lm = Some (Store.ODict entries')
           /\ Forall2 (fun e b => fst e = fst b
                                  /\ Store.decode d s0 (snd e) = Some (snd b))
                      entries' m)
      s (Store.build_type_map ts (Store.VRef lm)) (build_type_map tjs acc).
Proof.
  intros Hfresh ts. induction ts as [|t ts IH];
    intros tjs s entries acc Hall Hu Hlm Hacc.
  - inversion Hall; subst. apply sim_ret; [exact Hu|].
    exists entries. split; assumption.
  - inversion Hall as [|t' tj ts' tjs' Ht Hrest]; subst.
    cbn [Store.build_type_map build_type_map].
    eapply sim_read;
      [apply (get_decode _ _ _ _ "name" (decode_unchanged _ _ _ Hu _ _ Ht))
      | exact Hu |].
    intros name namej Hname_eq _ Hname. cbv beta in Hname.
    apply sim_test. rewrite (truthy_decode _ _ _ _ Hname).
    destruct (truthy namej); [|apply (IH tjs' s entries acc); assumption].
    eapply sim_read_ok; [exact Hname_eq|].
    eapply (sim_read _ eq);
      [rewrite (hashable_decode _ _ _ _ Hname); apply agree_eq | exact Hu |].
    intros k k' _ _ <-.
    unfold Store.sim, Store.bindM, Store.setitem, Store.deref. rewrite Hlm.
    apply (IH tjs' _ (Store.set_entry k t entries) (dict_set k tj acc)).
    + exact Hrest.
    + apply (writes_only_fresh lm s0 s _ Hfresh Hu), writes_only_update.
    + apply (update_same _ _ _ _ Hlm).
    + apply set_entry_dict_set; assumption.
Qed.

(** The loop appends to the new list and changes nothing else. *)
Lemma schema_loop_sim (limit d fuel : nat) (m : pydict) (s0 : Store.store)
    (lm lp : Store.loc) (entries : list (pykey * Store.value)) :
  S d <= limit ->
  nth_error s0 lp = None ->
  lm <> lp ->
  Forall2 (fun e b => fst e = fst b /\ Store.decode d s0 (snd e) = Some (snd b))
          entries m ->
  forall (ts : list Store.value) (tjs : list json) (s : Store.store)
         (parts : list string),
    Forall2 (fun v j => Store.decode d s0 v = Some j) ts tjs ->
    Store.unchanged s0 s ->
    nth_error s lm = Some (Store.ODict entries) ->
    nth_error s lp = Some (Store.OList (map Store.VStr parts)) ->
    Store.sim (fun _ s' => Store.unchanged s0 s')
      (fun s' (_ : unit) parts' =>
         nth_error s' lp = Some (Store.OList (map Store.VStr parts')))
      s (Store.schema_loop limit fuel (Store.VRef lm) (Store.VRef lp) ts)
      (schema_loop fuel (Some m) tjs parts).
Proof.
  intros Hlim Hfresh Hne Hm ts. induction ts as [|t ts IH];
    intros tjs s parts Hall Hu Hlm Hlp.
  - inversion Hall; subst. apply sim_ret; [exact Hu | exact Hlp].
  - inversion Hall as [|t' tj ts' tjs' Ht Hrest]; subst.
    cbn [Store.schema_loop schema_loop].
    assert (Hd : d <= limit) by lia.
    eapply (sim_bind (fun s1 s1' =>
                        Store.writes_only lp s1 s1'
                        /\ (Store.unchanged s0 s1 -> Store.unchanged s0 s1'))
                     _
                     (fun s' (_ : unit) parts' =>
                        nth_error s' lp
                        = Some (Store.OList (map Store.VStr parts')))).
    + pose proof (schema_step_sim limit d fuel m s (Store.VRef lm) t lp tj parts
                    Hlim) as Hstep.
      destruct Hstep as [HT Hag].
      * apply (decode_unchanged _ _ _ Hu), (decode_le _ _ _ _ _ Hd), Ht.
      * exists entries. split; [exact Hlm|].
        eapply Forall2_impl; [|exact Hm].
        intros e b [Hk Hv]. split; [exact Hk|].
        apply (decode_unchanged _ _ _ Hu _ _ Hv).
      * exact Hlp.
      * split; [|exact Hag]. split; [exact HT|].
        intros Hu0. apply (writes_only_fresh lp s0 s _ Hfresh Hu0 HT).
    + intros s1 [_ H]. apply H, Hu.
    + intros s1 s2 _ H. exact H.
    + intros s1 [] parts1 [Hw Hu1] Hlp1.
      apply (IH tjs' s1 parts1 Hrest (Hu1 Hu)); [|exact Hlp1].
      apply (Hw _ _ Hne Hlm).
Qed.

(** A run of [generate_graphql_schema]: the outcome of the function on
    JSON values, in a store with every object it found as it was. *)
Lemma generate_graphql_schema_sim (limit d fuel : nat) (s : Store.store)
    (v : Store.value) (doc : json) :
  d < limit ->
  Store.decode d s v = Some doc ->
  Store.sim (fun _ s' => Store.unchanged s s') (fun _ a b => a = b) s
            (Store.generate_graphql_schema limit fuel v)
            (generate_graphql_schema fuel doc).
Proof.
  intros Hlim Hv.
  unfold Store.generate_graphql_schema, generate_graphql_schema.
  pose proof (unchanged_refl s) as Hrefl.
  eapply sim_read; [apply (index_decode _ _ _ _ "data" Hv) | exact Hrefl |].
  intros data dataj _ _ Hdata. cbv beta in Hdata.
  eapply sim_read;
    [apply (index_decode _ _ _ _ "__schema" Hdata) | exact Hrefl |].
  intros schema schemaj _ _ Hschema. cbv beta in Hschema.
  eapply sim_read;
    [apply (index_decode _ _ _ _ "types" Hschema) | exact Hrefl |].
  intros types typesj _ _ Htypes. cbv beta in Htypes.
  eapply sim_read; [apply (iter_decode _ _ _ _ Htypes) | exact Hrefl |].
  intros ts tjs Hiter _ Hts.
  apply sim_alloc; [intros s' H; exact H|].
  set (lm := List.length s). set (s1 := (s ++ [Store.ODict []])%list).
  assert (Hu1 : Store.unchanged s s1) by apply unchanged_alloc.
  assert (Hfresh_lm : nth_error s lm = None)
    by (apply nth_error_None, Nat.le_refl).
  eapply sim_bind.
  - apply (build_type_map_sim d s lm Hfresh_lm ts tjs s1 [] [] Hts Hu1).
    + apply nth_error_alloc.
    + constructor.
  - intros s' H. exact H.
  - intros s' s'' _ H. exact H.
  - intros s2 [] m Hu2 (entries & Hlm & Hm).
    apply sim_alloc; [intros s' H; exact H|].
    set (lp := List.length s2). set (s3 := (s2 ++ [Store.OList []])%list).
    assert (Hu3 : Store.unchanged s s3)
      by apply (unchanged_trans _ _ _ Hu2), unchanged_alloc.
    eapply sim_read_ok.
    { rewrite (iter_unchanged _ _ _ _ _ Htypes Hu3). exact Hiter. }
    eapply sim_bind.
    + apply (schema_loop_sim limit d fuel m s lm lp entries Hlim
               (unchanged_fresh _ _ Hu2)).
      * intros Heq. assert (Hlt : lm < List.length s2)
          by (apply nth_error_Some; rewrite Hlm; discriminate).
        unfold lp in Heq. lia.
      * exact Hm.
      * exact Hts.
      * exact Hu3.
      * apply (unchanged_alloc s2), Hlm.
      * apply (nth_error_alloc s2).
    + intros s' H. exact H.
    + intros s' s'' _ H. exact H.
    + intros s4 [] parts Hu4 Hlp.
      eapply sim_read_ok.
      { unfold Store.iter, Store.deref. rewrite Hlp. reflexivity. }
      eapply sim_read_ok; [apply mapM_join_item_strings|].
      apply sim_ret; [exact Hu4 | reflexivity].
Qed.

(** *** Loading a document *)

Lemma json_induction (P : json -> Prop) :
  P JNull ->
  (forall b, P (JBool b)) ->
  (forall n, P (JNum n)) ->
  (forall x, P (JStr x)) ->
  (forall xs, Forall P xs -> P (JArr xs)) ->
  (forall kvs, Forall (fun kv => P (snd kv)) kvs -> P (JObj kvs)) ->
  forall j, P j.
Proof.
  intros Hnull Hbool Hnum Hstr Harr Hobj.
  fix IH 1. intros [|b|n|x|xs|kvs].
  - exact Hnull.
  - apply Hbool.
  - apply Hnum.
  - apply Hstr.
  - apply Harr. induction xs as [|x xs IHxs]; constructor; [apply IH | exact IHxs].
  - apply Hobj. induction kvs as [|[k v] kvs IHkvs]; constructor;
      [apply IH | exact IHkvs].
Qed.

Lemma load_all_spec {A B : Type} (f : A -> Store.store -> Store.store * B)
    (ok : Store.store -> B -> A -> Prop) (xs : list A) :
  (forall s s' b a, Store.unchanged s s' -> ok s b a -> ok s' b a) ->
  Forall (fun x => forall s, Store.unchanged s (fst (f x s))
                             /\ ok (fst (f x s)) (snd (f x s)) x) xs ->
  forall s,
    Store.unchanged s (fst (Store.load_all f xs s))
    /\ Forall2 (ok (fst (Store.load_all f xs s)))
               (snd (Store.load_all f xs s)) xs.
Proof.
  intros Hstable. induction 1 as [|x xs Hx _ IH]; intros s.
  - split; [apply unchanged_refl | constructor].
  - cbn [Store.load_all]. destruct (Hx s) as [Hu1 Hok1].
    destruct (f x s) as [s1 v]. cbn [fst snd] in *.
    destruct (IH s1) as [Hu2 Hok2].
    destruct (Store.load_all f xs s1) as [s2 vs]. cbn [fst snd] in *.
    split; [apply (unchanged_trans _ _ _ Hu1 Hu2)|].
    constructor; [apply (Hstable _ _ _ _ Hu2 Hok1) | exact Hok2].
Qed.

(** What [json.load] has put into the store stands for the document, and
    what was there before is as it was. *)
Lemma load_decode (j : json) :
  forall s,
    Store.unchanged s (fst (Store.load j s))
    /\ forall n, Store.height j <= n ->
                 Store.decode n (fst (Store.load j s)) (snd (Store.load j s))
                 = Some j.
Proof.
  induction j as [|b|z|x|xs IH|kvs IH] using json_induction; intros s;
    try (split; [apply unchanged_refl | intros [|n] _; reflexivity]).
  - cbn [Store.load].
    destruct (load_all_spec Store.load
                (fun s v x => forall n, Store.height x <= n ->
                                        Store.decode n s v = Some x)
                xs) with (s := s) as [Hu Hall].
    { intros s1 s2 v x Hu12 H n Hn.
      apply (decode_unchanged _ _ _ Hu12 _ _ (H n Hn)). }
    { exact IH. }
    destruct (Store.load_all Store.load xs s) as [s' items].
    cbn [fst snd] in *. split.
    + apply (unchanged_trans _ _ _ Hu), unchanged_alloc.
    + intros [|n] Hn; [cbn [Store.height] in Hn; lia|].
      rewrite decode_VRef, nth_error_alloc.
      cbn [Store.height] in Hn. apply le_S_n in Hn.
      assert (Hm : forall s'', Store.unchanged s' s'' ->
                               Store.mapO (Store.decode n s'') items = Some xs).
      { intros s'' Hu''. apply mapO_Forall2. clear IH Hu.
        induction Hall as [|v x vs xs' Hv _ IHall]; [constructor|].
        cbn [fold_right] in Hn. constructor.
        - apply (decode_unchanged _ _ _ Hu''), Hv. lia.
        - apply IHall. lia. }
      rewrite (Hm _ (unchanged_alloc s' _)). reflexivity.
  - cbn [Store.load].
    destruct (load_all_spec
                (fun kv s => let '(s1, v) := Store.load (snd kv) s in
                             (s1, (KStr (fst kv), v)))
                (fun s e kv => fst e = KStr (fst kv)
                               /\ forall n, Store.height (snd kv) <= n ->
                                            Store.decode n s (snd e)
                                            = Some (snd kv))
                kvs) with (s := s) as [Hu Hall].
    { intros s1 s2 e kv Hu12 [Hk H]. split; [exact Hk|]. intros n Hn.
      apply (decode_unchanged _ _ _ Hu12 _ _ (H n Hn)). }
    { eapply Forall_impl; [|exact IH]. intros kv Hkv s0.
      destruct (Hkv s0) as [Hu0 Hd0].
      destruct (Store.load (snd kv) s0) as [s1 v]. cbn [fst snd] in *.
      split; [exact Hu0|]. split; [reflexivity | exact Hd0]. }
    destruct (Store.load_all _ kvs s) as [s' entries].
    cbn [fst snd] in *. split.
    + apply (unchanged_trans _ _ _ Hu), unchanged_alloc.
    + intros [|n] Hn; [cbn [Store.height] in Hn; lia|].
      rewrite decode_VRef, nth_error_alloc.
      cbn [Store.height] in Hn. apply le_S_n in Hn.
      assert (Hm : forall s'', Store.unchanged s' s'' ->
                Store.mapO (fun e =>
                              match Store.key_str (fst e),
                                    Store.decode n s'' (snd e) with
                              | Some k, Some j => Some (k, j)
                              | _, _ => None
                              end) entries = Some kvs).
      { intros s'' Hu''. apply mapO_Forall2. clear IH Hu.
        induction Hall as [|e kv es kvs' [Hk Hv] _ IHall]; [constructor|].
        cbn [fold_right] in Hn. constructor.
        - rewrite Hk. cbn [Store.key_str].
          rewrite (decode_unchanged _ _ _ Hu'' _ _ (Hv n ltac:(lia))).
          destruct kv; reflexivity.
        - apply IHall. lia. }
      rewrite (Hm _ (unchanged_alloc s' _)). reflexivity.
Qed.

Lemma agree_eq_inv {A : Type} (r p : result A) :
  Store.agree (fun a b => a = b) r p -> r = p.
Proof.
  destruct r, p; cbn [Store.agree]; intros H; try contradiction;
    rewrite H; reflexivity.
Qed.

Lemma rendered_reads (n : nat) (s : Store.store) (r : result Store.value)
    (p : result json) :
  Store.reads n s r p ->
  Store.rendered n r s = (j <- p ;; Ok (py_str j)).
Proof.
  destruct r as [v|e], p as [j|e']; cbn [Store.reads Store.agree];
    intros H; try contradiction.
  - apply (str_decode _ _ _ _ H).
  - rewrite H. reflexivity.
Qed.

(** A document that [json.load] has put into the store is converted as
    the function on JSON values converts it. *)
Lemma generate_graphql_schema_loaded (fuel : nat) (doc : json)
    (s : Store.store) :
  snd (Store.generate_graphql_schema (S (Store.height doc)) fuel
         (snd (Store.load doc s)) (fst (Store.load doc s)))
  = generate_graphql_schema fuel doc.
Proof.
  destruct (load_decode doc s) as [_ Hd].
  destruct (generate_graphql_schema_sim (S (Store.height doc))
              (Store.height doc) fuel (fst (Store.load doc s))
              (snd (Store.load doc s)) doc (Nat.lt_succ_diag_r _)
              (Hd _ (Nat.le_refl _))) as [_ Hr].
  apply agree_eq_inv, Hr.
Qed.

(** C7.  Conversion is deterministic and has no side effects.  Run on the
    object store, from any store [s] that holds the document,
    [generate_graphql_schema] leaves every object of [s] as it was (what
    it changes are the dict [type_map] and the list [schema_parts] it
    has created itself), so the document is still there after the runs;
    a second run on the same document, from the store the first run has
    left, gives the same outcome as the first, the same SDL text or the
    same exception, and this outcome is the one of the function on JSON
    values.  Likewise [convert_type], run twice on the same TypeRef,
    fallback name and type map, leaves every object it found as it was
    and gives both times the value that stands for the outcome of the
    function on JSON values, so that the text the callers make of it is
    the same text. *)
Theorem conversion_deterministic :
  forall (limit fuel d : nat) (s : Store.store),
    d < limit ->
    (forall (introspection_data : Store.value) (doc : json),
        Store.decode d s introspection_data = Some doc ->
        let run1 := Store.generate_graphql_schema limit fuel introspection_data s in
        let run2 :=
          Store.generate_graphql_schema limit fuel introspection_data (fst run1) in
        snd run2 = snd run1
        /\ snd run1 = generate_graphql_schema fuel doc
        /\ Store.unchanged s (fst run1)
        /\ Store.unchanged (fst run1) (fst run2)
        /\ Store.decode d (fst run2) introspection_data = Some doc)
    /\ (forall (graphql_type fallback_field_name type_map : Store.value)
               (type_ref name : json) (types : option pydict),
        Store.decode d s graphql_type = Some type_ref ->
        Store.decode d s fallback_field_name = Some name ->
        Store.decodes_map d s type_map types ->
        let run1 :=
          Store.convert_type limit fuel graphql_type fallback_field_name
            type_map s in
        let run2 :=
          Store.convert_type limit fuel graphql_type fallback_field_name
            type_map (fst run1) in
        Store.rendered limit (snd run2) (fst run2)
        = Store.rendered limit (snd run1) (fst run1)
        /\ Store.reads limit (fst run1) (snd run1)
             (convert_type fuel type_ref name types)
        /\ Store.reads limit (fst run2) (snd run2)
             (convert_type fuel type_ref name types)
        /\ Store.unchanged s (fst run1)
        /\ Store.unchanged (fst run1) (fst run2)
        /\ Store.decode d (fst run2) graphql_type = Some type_ref).
Proof.
  intros limit fuel d s Hlim. split.
  - intros v doc Hv run1 run2.
    destruct (generate_graphql_schema_sim limit d fuel s v doc Hlim Hv)
      as [Hu1 Hr1].
    fold run1 in Hu1, Hr1.
    destruct (generate_graphql_schema_sim limit d fuel (fst run1) v doc Hlim
                (decode_unchanged _ _ _ Hu1 _ _ Hv)) as [Hu2 Hr2].
    fold run2 in Hu2, Hr2.
    apply agree_eq_inv in Hr1. apply agree_eq_inv in Hr2.
    repeat split; try assumption.
    + rewrite Hr1. exact Hr2.
    + apply (decode_unchanged _ _ _ (unchanged_trans _ _ _ Hu1 Hu2) _ _ Hv).
  - intros gt fb tm j fbj tmj Hgt Hfb Htm run1 run2.
    assert (Hd : d <= limit) by lia.
    destruct (convert_type_sim limit d tmj fuel Hlim s gt fb tm j fbj
                (decode_le _ _ _ _ _ Hd Hgt) (decode_le _ _ _ _ _ Hd Hfb) Htm)
      as [Hu1 Hr1].
    fold run1 in Hu1, Hr1.
    destruct (convert_type_sim limit d tmj fuel Hlim (fst run1) gt fb tm j fbj
                (decode_unchanged _ _ _ Hu1 _ _ (decode_le _ _ _ _ _ Hd Hgt))
                (decode_unchanged _ _ _ Hu1 _ _ (decode_le _ _ _ _ _ Hd Hfb))
                (decodes_map_unchanged _ _ _ _ _ Hu1 Htm))
      as [Hu2 Hr2].
    fold run2 in Hu2, Hr2.
    repeat split; try assumption.
    + rewrite (rendered_reads _ _ _ _ Hr1), (rendered_reads _ _ _ _ Hr2).
      reflexivity.
    + apply (decode_unchanged _ _ _ (unchanged_trans _ _ _ Hu1 Hu2) _ _ Hgt).
Qed.

Lemma conversion_deterministic_witness :
  8 < 9
  /\ Store.decode 8 heap (Store.VRef 16) = Some blog_doc
  /\ Store.decode 8 heap (Store.VRef 19) = Some nested_cut
  /\ Store.decode 8 heap (Store.VStr "posts") = Some (JStr "posts")
  /\ Store.decodes_map 8 heap (Store.VRef 21) (Some heap_types)
  /\ snd (Store.generate_graphql_schema 9 3 (Store.VRef 16) heap) = Ok blog_sdl
  /\ snd (Store.generate_graphql_schema 9 3 (Store.VRef 16)
            (fst (Store.generate_graphql_schema 9 3 (Store.VRef 16) heap)))
     = snd (Store.generate_graphql_schema 9 3 (Store.VRef 16) heap)
  /\ Store.unchanged heap
       (fst (Store.generate_graphql_schema 9 3 (Store.VRef 16) heap))
  /\ snd (Store.convert_type 9 4 (Store.VRef 19) (Store.VStr "posts")
            (Store.VRef 21) heap) = Ok (Store.VStr "[Post!]!")
  /\ Store.rendered 9
       (snd (Store.convert_type 9 4 (Store.VRef 19) (Store.VStr "posts")
               (Store.VRef 21)
               (fst (Store.convert_type 9 4 (Store.VRef 19) (Store.VStr "posts")
                       (Store.VRef 21) heap))))
       (fst (Store.convert_type 9 4 (Store.VRef 19) (Store.VStr "posts")
               (Store.VRef 21)
               (fst (Store.convert_type 9 4 (Store.VRef 19) (Store.VStr "posts")
                       (Store.VRef 21) heap))))
     = Ok "[Post!]!"
  /\ Store.unchanged heap
       (fst (Store.convert_type 9 4 (Store.VRef 19) (Store.VStr "posts")
               (Store.VRef 21) heap)).
Proof.
  assert (Hlim : 8 < 9) by lia.
  assert (Hmap : Store.decodes_map 8 heap (Store.VRef 21) (Some heap_types)).
  { eexists. split; [reflexivity|]. repeat constructor. }
  destruct (conversion_deterministic 9 3 8 heap Hlim) as [Hdoc _].
  destruct (conversion_deterministic 9 4 8 heap Hlim) as [_ Href].
  specialize (Hdoc (Store.VRef 16) blog_doc eq_refl).
  specialize (Href (Store.VRef 19) (Store.VStr "posts") (Store.VRef 21)
                nested_cut (JStr "posts") (Some heap_types)
                eq_refl eq_refl Hmap).
  cbv zeta in Hdoc, Href.
  destruct Hdoc as (Hsame & _ & Hkept & _).
  destruct Href as (_ & _ & _ & Hkept' & _).
  repeat split; try assumption; try reflexivity.
Defined.

(** ** Structural errors *)

Lemma py_index_lookup (doc : json) (k : string) :
  match py_index doc k with
  | Ok v => lookup_path [k] doc = Some v
  | Err e => (e = KeyError \/ e = TypeError) /\ lookup_path [k] doc = None
  end.
Proof.
  destruct doc as [| | | | |kvs]; simpl; auto.
  destruct (assoc k kvs); simpl; auto.
Qed.

(** C8.  A document without the path [data.__schema.types] makes
    [generate_graphql_schema] raise ([KeyError] where a key is missing,
    [TypeError] where a step is not an object) whatever the budget; no SDL
    text is returned, and [main] exits with the exception instead of
    writing a file. *)
Theorem generate_graphql_schema_missing_path :
  forall (fuel : nat) (introspection_data : json),
    lookup_path ["data"; "__schema"; "types"] introspection_data = None ->
    exists e,
      (e = KeyError \/ e = TypeError)
      /\ generate_graphql_schema fuel introspection_data = Err e
      /\ main_convert fuel introspection_data
         = Exited "Error generating GraphQL schema: " e.
Proof.
  intros fuel doc Hpath.
  assert (Hgen : exists e, (e = KeyError \/ e = TypeError)
                           /\ generate_graphql_schema fuel doc = Err e).
  { unfold generate_graphql_schema.
    pose proof (py_index_lookup doc "data") as Hdata.
    destruct (py_index doc "data") as [data|e]; cbn [bind];
      [|exists e; split; [apply Hdata | reflexivity]].
    pose proof (py_index_lookup data "__schema") as Hschema.
    destruct (py_index data "__schema") as [schema|e]; cbn [bind];
      [|exists e; split; [apply Hschema | reflexivity]].
    pose proof (py_index_lookup schema "types") as Htypes.
    destruct (py_index schema "types") as [types|e]; cbn [bind];
      [|exists e; split; [apply Htypes | reflexivity]].
    exfalso.
    destruct doc as [| | | | |kvs]; try discriminate.
    simpl in Hpath, Hdata. destruct (assoc "data" kvs); [|discriminate].
    injection Hdata as ->.
    destruct data as [| | | | |kvs1]; try discriminate.
    simpl in Hschema. destruct (assoc "__schema" kvs1); [|discriminate].
    injection Hschema as ->.
    destruct schema as [| | | | |kvs2]; try discriminate.
    simpl in Htypes. destruct (assoc "types" kvs2); discriminate. }
  destruct Hgen as (e & He & Hgen).
  exists e. repeat split; [exact He | exact Hgen |].
  unfold main_convert. rewrite Hgen. reflexivity.
Qed.

(** The empty document [{}] raises [KeyError]. *)
Lemma generate_graphql_schema_missing_path_witness :
  lookup_path ["data"; "__schema"; "types"] (JObj []) = None
  /\ generate_graphql_schema 5 (JObj []) = Err KeyError
  /\ exists e,
      (e = KeyError \/ e = TypeError)
      /\ generate_graphql_schema 5 (JObj []) = Err e
      /\ main_convert 5 (JObj [])
         = Exited "Error generating GraphQL schema: " e.
Proof.
  split; [reflexivity|]. split; [reflexivity|].
  apply (generate_graphql_schema_missing_path 5 (JObj [])). reflexivity.
Defined.

(** ** Empty field and value lists *)

Lemma py_get_present (t : json) (k : string) (v d : json) :
  py_get t k = Ok v ->
  is_None v = false ->
  py_index t k = Ok v /\ py_get_default t k d = Ok v.
Proof.
  destruct t as [| | | | |kvs]; try discriminate.
  unfold py_get, py_get_default, py_index.
  destruct (assoc k kvs) as [w|]; intros H Hv; injection H as <-;
    [split; reflexivity | discriminate].
Qed.

(** How the loop starts on a type with a proper name. *)
Lemma schema_step_named (fuel : nat) (type_map : option pydict)
    (schema_parts : list string) (t : json) (name : string) :
  py_get t "name" = Ok (JStr name) ->
  name <> "" ->
  startswith name "__" = false ->
  schema_step fuel type_map schema_parts t
  = (fields <- py_get t "fields" ;;
     if negb (is_None fields) then
       fields <- py_index t "fields" ;;
       if negb (truthy fields) then Ok schema_parts
       else
         fs <- py_iter fields ;;
         lines <- mapM (fun f => convert_field fuel f type_map)
                       (filter (fun f => negb (is_None f)) fs) ;;
         Ok (append schema_parts (block "type" name (join (nl ++ "  ") lines)))
     else
       input_fields <- py_get t "inputFields" ;;
       if negb (is_None input_fields) then
         input_fields <- py_get_default t "inputFields" (JArr []) ;;
         fs <- py_iter input_fields ;;
         lines <- mapM (fun f => convert_input_field fuel f type_map) fs ;;
         Ok (append schema_parts (block "input" name (join (nl ++ "  ") lines)))
       else
         enum_values <- py_get t "enumValues" ;;
         if negb (is_None enum_values) then
           enum_values <- py_index t "enumValues" ;;
           if negb (truthy enum_values) then Ok schema_parts
           else
             enum_values <- py_get_default t "enumValues" (JArr []) ;;
             evs <- py_iter enum_values ;;
             names <- mapM (fun ev => py_index ev "name") evs ;;
             vals <- mapM join_item names ;;
             Ok (append schema_parts (block "enum" name (join (nl ++ "  ") vals)))
         else
           Ok (append schema_parts ("scalar " ++ name))).
Proof.
  intros Hname Hne Hint. unfold schema_step. rewrite Hname.
  cbn [bind truthy py_startswith py_str].
  destruct (String.eqb_spec name ""); [contradiction|].
  cbn [negb bind]. rewrite Hint. reflexivity.
Qed.

(** An object type whose field list is present and empty adds nothing. *)
Lemma schema_step_empty_fields (fuel : nat) (type_map : option pydict)
    (schema_parts : list string) (t : json) (name : string) :
  py_get t "name" = Ok (JStr name) ->
  name <> "" ->
  startswith name "__" = false ->
  py_get t "fields" = Ok (JArr []) ->
  schema_step fuel type_map schema_parts t = Ok schema_parts.
Proof.
  intros Hname Hne Hint Hfields.
  rewrite (schema_step_named _ _ _ _ name Hname Hne Hint), Hfields.
  destruct (py_get_present t "fields" (JArr []) JNull Hfields eq_refl) as [-> _].
  reflexivity.
Qed.

(** An enum type whose value list is present and empty adds nothing. *)
Lemma schema_step_empty_enumValues (fuel : nat) (type_map : option pydict)
    (schema_parts : list string) (t : json) (name : string) :
  py_get t "name" = Ok (JStr name) ->
  name <> "" ->
  startswith name "__" = false ->
  py_get t "fields" = Ok JNull ->
  py_get t "inputFields" = Ok JNull ->
  py_get t "enumValues" = Ok (JArr []) ->
  schema_step fuel type_map schema_parts t = Ok schema_parts.
Proof.
  intros Hname Hne Hint Hfields Hinput Henum.
  rewrite (schema_step_named _ _ _ _ name Hname Hne Hint), Hfields.
  cbn [bind is_None negb]. rewrite Hinput. cbn [bind is_None negb].
  rewrite Henum.
  destruct (py_get_present t "enumValues" (JArr []) JNull Henum eq_refl) as [-> _].
  reflexivity.
Qed.

(** An input type whose field list is present and empty adds a block with
    an empty body: the [inputFields] branch has no test for emptiness. *)
Lemma schema_step_empty_inputFields (fuel : nat) (type_map : option pydict)
    (schema_parts : list string) (t : json) (name : string) :
  py_get t "name" = Ok (JStr name) ->
  name <> "" ->
  startswith name "__" = false ->
  py_get t "fields" = Ok JNull ->
  py_get t "inputFields" = Ok (JArr []) ->
  schema_step fuel type_map schema_parts t
  = Ok (append schema_parts (block "input" name "")).
Proof.
  intros Hname Hne Hint Hfields Hinput.
  rewrite (schema_step_named _ _ _ _ name Hname Hne Hint), Hfields.
  cbn [bind is_None negb]. rewrite Hinput.
  destruct (py_get_present t "inputFields" (JArr []) (JArr []) Hinput eq_refl)
    as [_ ->].
  reflexivity.
Qed.

Example generate_graphql_schema_empty_object :
  forall fuel, generate_graphql_schema fuel empty_object_doc = Ok nl.
Proof. reflexivity. Qed.

Example generate_graphql_schema_empty_enum :
  forall fuel, generate_graphql_schema fuel empty_enum_doc = Ok nl.
Proof. reflexivity. Qed.

(** C1 at its failing input.  For the document whose one type is
    [{"name": "Empty", "inputFields": []}] the output is not the empty
    document that the object and the enum case give, but the block
    [input Empty {], an indented empty line, [}]. *)
Theorem generate_graphql_schema_empty_input :
  forall fuel,
    generate_graphql_schema fuel empty_input_doc
    = Ok ("input Empty {" ++ nl ++ "  " ++ nl ++ "}" ++ nl)
    /\ generate_graphql_schema fuel empty_input_doc
       <> generate_graphql_schema fuel empty_object_doc.
Proof. intros fuel. split; [reflexivity | discriminate]. Qed.

(** ** The name heuristic *)

Lemma is_upper_to_upper (c : ascii) :
  is_letter c = true -> is_upper (to_upper c) = true.
Proof.
  destruct c as [b0 b1 b2 b3 b4 b5 b6 b7].
  destruct b0, b1, b2, b3, b4, b5, b6, b7;
    intros H; vm_compute in H; try discriminate H; reflexivity.
Qed.

Lemma starts_upper_capitalize (c : ascii) (rest : string) :
  is_letter c = true -> starts_upper (capitalize (String c rest)) = true.
Proof. intros H. simpl. apply is_upper_to_upper. exact H. Qed.

Lemma drop_last_1_cons (c d : ascii) (rest : string) :
  drop_last 1 (String c (String d rest))
  = String c (drop_last 1 (String d rest)).
Proof.
  unfold drop_last. cbn [length].
  replace (S (S (length rest)) - 1) with (S (length rest)) by lia.
  replace (S (length rest) - 1) with (length rest) by lia.
  reflexivity.
Qed.

Lemma endswith_single (c : ascii) (p : string) :
  length p = 1 -> endswith (String c "") p = true -> String c "" = p.
Proof.
  intros Hlen H. unfold endswith in H. rewrite Hlen in H.
  apply andb_prop in H. destruct H as [_ H]. simpl in H.
  apply String.eqb_eq. exact H.
Qed.

(** C2, as the code has it.  For a name that starts with an ASCII letter,
    does not end in [ies] and is not the single letter [s], [singularize]
    returns a string that starts with an upper-case letter; in particular
    [posts] gives [Post] and [data] gives [Data].  (Nothing is said here
    of the names that end in [ies].) *)
Theorem singularize_capitalized :
  forall (c : ascii) (rest : string),
    is_letter c = true ->
    endswith (String c rest) "ies" = false ->
    String c rest <> "s" ->
    starts_upper (singularize (String c rest)) = true
    /\ singularize "posts" = "Post"
    /\ singularize "data" = "Data".
Proof.
  intros c rest Hc Hies Hs.
  split; [|split; reflexivity].
  unfold singularize. rewrite Hies.
  destruct (endswith (String c rest) "s") eqn:Hends.
  - destruct rest as [|d rest].
    + exfalso. apply Hs. apply endswith_single; [reflexivity | exact Hends].
    + rewrite drop_last_1_cons. apply starts_upper_capitalize. exact Hc.
  - apply starts_upper_capitalize. exact Hc.
Qed.

Lemma singularize_capitalized_witness :
  is_letter "p" = true
  /\ starts_upper (singularize "posts") = true
  /\ singularize "posts" = "Post"
  /\ singularize "data" = "Data".
Proof.
  split; [reflexivity|].
  apply (singularize_capitalized "p" "osts"); [reflexivity | reflexivity |].
  discriminate.
Defined.

(** C2 as stated fails: [categories] gives [category], in lower case; a
    name that starts with an underscore keeps it; and [s] gives the empty
    string. *)
Lemma singularize_capitalized_counterexample :
  singularize "categories" = "category"
  /\ starts_upper (singularize "categories") = false
  /\ singularize "_posts" = "_post"
  /\ starts_upper (singularize "_posts") = false
  /\ singularize "s" = "".
Proof. repeat split. Qed.

(** ** Order of the declarations *)

Lemma append_empty (s : string) : s ++ "" = s.
Proof. induction s as [|c s IH]; simpl; [|rewrite IH]; reflexivity. Qed.

Lemma block_declares (keyword name body : string) :
  In keyword ["type"; "input"; "enum"; "scalar"] ->
  declares (block keyword name body) name.
Proof.
  intros Hin. exists keyword, (" {" ++ nl ++ "  " ++ body ++ nl ++ "}").
  split; [exact Hin | reflexivity].
Qed.

Lemma scalar_declares (name : string) : declares ("scalar " ++ name) name.
Proof.
  exists "scalar", "". split; [simpl; auto|].
  rewrite append_empty. reflexivity.
Qed.

Ltac split_run H :=
  repeat match type of H with
    | bind ?m _ = Ok _ =>
        let E := fresh "E" in
        destruct m eqn:E; cbn [bind] in H; [|discriminate H]
    | (if ?b then _ else _) = Ok _ =>
        let E := fresh "E" in destruct b eqn:E
    end.

(** One iteration leaves [schema_parts] alone or appends one declaration of
    the type it looked at. *)
Lemma schema_step_appends (fuel : nat) (type_map : option pydict)
    (schema_parts parts : list string) (t : json) :
  schema_step fuel type_map schema_parts t = Ok parts ->
  parts = schema_parts
  \/ exists b, parts = append schema_parts b /\ declaration_of t b.
Proof.
  intros H. unfold schema_step in H.
  destruct (py_get t "name") as [name|] eqn:Hname; cbn [bind] in H;
    [|discriminate H].
  destruct (negb (truthy name)) eqn:Htruthy; cbn [bind] in H.
  { left. injection H as <-. reflexivity. }
  destruct name as [| | |s| |]; try discriminate H.
  cbn [py_startswith bind py_str] in H.
  destruct (startswith s "__") eqn:Hint.
  { left. injection H as <-. reflexivity. }
  assert (Hs : s <> "").
  { intros ->. discriminate Htruthy. }
  assert (Hdecl : forall b, declares b s -> declaration_of t b).
  { intros b Hb. exists s. repeat split; assumption. }
  split_run H; injection H as <-;
    first
      [ left; reflexivity
      | right; eexists; split; [reflexivity|];
        apply Hdecl;
        first [ apply scalar_declares
              | apply block_declares; simpl; auto ] ].
Qed.

(** What an iteration appends does not depend on what [schema_parts]
    holds already. *)
Lemma schema_step_acc (fuel : nat) (type_map : option pydict)
    (schema_parts : list string) (t : json) :
  schema_step fuel type_map schema_parts t
  = (bs <- schema_step fuel type_map [] t ;; Ok (schema_parts ++ bs)%list).
Proof.
  unfold schema_step.
  repeat match goal with
    | |- context [bind ?m _] =>
        lazymatch m with
        | bind _ _ => fail
        | Ok _ => fail
        | (if _ then _ else _) => fail
        | _ => destruct m; cbn [bind]
        end
    | |- context [if ?b then _ else _] => destruct b; cbn [bind]
    end;
    unfold append; rewrite ?app_nil_r; reflexivity.
Qed.

Lemma schema_loop_order (fuel : nat) (type_map : pydict) (types : list json) :
  forall schema_parts parts,
    schema_loop fuel (Some type_map) types schema_parts = Ok parts ->
    exists per_type,
      Forall2 (own_blocks fuel type_map) types per_type
      /\ parts = (schema_parts ++ List.concat per_type)%list.
Proof.
  induction types as [|t rest IH]; intros acc parts H; simpl in H.
  - injection H as <-. exists []. split; [constructor|].
    simpl. rewrite app_nil_r. reflexivity.
  - rewrite schema_step_acc in H.
    destruct (schema_step fuel (Some type_map) [] t) as [bs|] eqn:Hstep;
      cbn [bind] in H; [|discriminate H].
    destruct (IH _ _ H) as (per_type & Hall & ->).
    exists (bs :: per_type). split.
    + constructor; [|exact Hall]. split; [exact Hstep|].
      destruct (schema_step_appends _ _ _ _ _ Hstep) as [-> | (b0 & -> & Hb)].
      * left. reflexivity.
      * right. exists b0. split; [reflexivity | exact Hb].
    + simpl. rewrite app_assoc. reflexivity.
Qed.

(** C6.  Whenever [generate_graphql_schema] returns an SDL text, the
    declarations in it stand in the order of the input [types] array: the
    text is the join of what the elements of the array contribute, element
    after element, where an element contributes by itself nothing (it is
    skipped) or one declaration of its own, non-internal name.  The
    declarations are so those of a subsequence of the array, in its
    order. *)
Theorem generate_graphql_schema_order :
  forall (fuel : nat) (introspection_data : json) (sdl : string),
    generate_graphql_schema fuel introspection_data = Ok sdl ->
    exists types_value types type_map per_type,
      lookup_path ["data"; "__schema"; "types"] introspection_data
      = Some types_value
      /\ py_iter types_value = Ok types
      /\ build_type_map types [] = Ok type_map
      /\ Forall2 (own_blocks fuel type_map) types per_type
      /\ sdl = join (nl ++ nl) (List.concat per_type) ++ nl.
Proof.
  intros fuel doc sdl H. unfold generate_graphql_schema in H.
  pose proof (py_index_lookup doc "data") as Hdata.
  destruct (py_index doc "data") as [data|]; cbn [bind] in H; [|discriminate H].
  pose proof (py_index_lookup data "__schema") as Hschema.
  destruct (py_index data "__schema") as [schema|]; cbn [bind] in H;
    [|discriminate H].
  pose proof (py_index_lookup schema "types") as Htypes.
  destruct (py_index schema "types") as [types_value|]; cbn [bind] in H;
    [|discriminate H].
  destruct (py_iter types_value) as [types|] eqn:Hiter; cbn [bind] in H;
    [|discriminate H].
  destruct (build_type_map types []) as [type_map|] eqn:Hmap; cbn [bind] in H;
    [|discriminate H].
  destruct (schema_loop fuel (Some type_map) types []) as [parts|] eqn:Hloop;
    cbn [bind] in H; [|discriminate H].
  injection H as <-.
  destruct (schema_loop_order _ _ _ _ _ Hloop) as (per_type & Hall & ->).
  exists types_value, types, type_map, per_type.
  repeat split; try assumption; try reflexivity.
  destruct doc as [| | | | |kvs]; try discriminate.
  simpl in Hdata |- *. destruct (assoc "data" kvs); [|discriminate].
  injection Hdata as ->.
  destruct data as [| | | | |kvs1]; try discriminate.
  simpl in Hschema |- *. destruct (assoc "__schema" kvs1); [|discriminate].
  injection Hschema as ->.
  destruct schema as [| | | | |kvs2]; try discriminate.
  simpl in Htypes |- *. destruct (assoc "types" kvs2); [|discriminate].
  exact Htypes.
Qed.

Lemma generate_graphql_schema_order_witness :
  generate_graphql_schema 3 blog_doc = Ok blog_sdl
  /\ exists types_value types type_map per_type,
      lookup_path ["data"; "__schema"; "types"] blog_doc = Some types_value
      /\ py_iter types_value = Ok types
      /\ build_type_map types [] = Ok type_map
      /\ Forall2 (own_blocks 3 type_map) types per_type
      /\ blog_sdl = join (nl ++ nl) (List.concat per_type) ++ nl.
Proof.
  split; [reflexivity|].
  apply (generate_graphql_schema_order 3 blog_doc blog_sdl). reflexivity.
Defined.

(** * Further properties *)

(** ** Base type name and multiplicity *)

Lemma introspected_represents (t : TypeRef) (j : json) :
  introspected t j -> represents t j.
Proof.
  induction 1.
  - eapply rep_named; eassumption.
  - eapply rep_non_null; eassumption.
  - eapply rep_list; eassumption.
Qed.

Lemma introspected_truthy (t : TypeRef) (j : json) :
  introspected t j -> truthy j = true /\ is_None j = false.
Proof.
  intros H. destruct H as [kvs ? ? ? Hk| kvs ? ? Hk|kvs ? ? Hk];
    (destruct kvs; [discriminate Hk | split; reflexivity]).
Qed.

Lemma py_get_py_index (j : json) (k : string) (v : json) :
  py_get j k = Ok v -> truthy v = true -> py_index j k = Ok v.
Proof.
  intros Hget Hv. apply (py_get_present j k v JNull Hget).
  destruct v; try reflexivity. discriminate Hv.
Qed.

Lemma get_base_type_name_introspected :
  forall (t : TypeRef) (j : json) (fuel : nat),
    introspected t j ->
    depth t < fuel ->
    get_base_type_name fuel j = Ok (name_value (leaf_name t)).
Proof.
  induction t as [name|t IH|t IH]; intros j fuel Hj Hfuel;
    inversion Hj; subst; clear Hj;
    (destruct fuel as [|fuel]; [lia|]); cbn [get_base_type_name is_None].
  - match goal with H : py_get _ "ofType" = _ |- _ => rewrite H end.
    cbn [bind].
    match goal with H : truthy _ = false |- _ => rewrite H end.
    assumption.
  - match goal with H : py_get _ "ofType" = _ |- _ =>
      rewrite H; cbn [bind];
      match goal with Hi : introspected _ _ |- _ =>
        destruct (introspected_truthy _ _ Hi) as [Ht _];
        rewrite Ht, (py_get_py_index _ _ _ H Ht); cbn [bind];
        apply IH; [exact Hi | simpl in Hfuel; lia]
      end
    end.
  - match goal with H : py_get _ "ofType" = _ |- _ =>
      rewrite H; cbn [bind];
      match goal with Hi : introspected _ _ |- _ =>
        destruct (introspected_truthy _ _ Hi) as [Ht _];
        rewrite Ht, (py_get_py_index _ _ _ H Ht); cbn [bind];
        apply IH; [exact Hi | simpl in Hfuel; lia]
      end
    end.
Qed.

(** X1.  On a chain as an introspection result has it,
    [get_base_type_name] returns the name of the innermost type ([None]
    when that type has no name), for every budget above the depth. *)
Theorem get_base_type_name_leaf :
  forall (t : TypeRef) (j : json) (fuel : nat),
    introspected t j ->
    depth t < fuel ->
    get_base_type_name fuel j = Ok (name_value (leaf_name t)).
Proof.
  intros t j fuel Hj Hfuel.
  apply get_base_type_name_introspected; [exact Hj | exact Hfuel].
Qed.

Lemma user_list_ref_introspected : introspected user_list_shape user_list_ref.
Proof.
  eapply intro_non_null; [reflexivity | reflexivity |].
  eapply intro_list; [reflexivity | reflexivity |].
  eapply intro_non_null; [reflexivity | reflexivity |].
  eapply intro_named with (kind := "OBJECT") (v := JNull);
    [reflexivity | reflexivity | reflexivity | discriminate
    | reflexivity | reflexivity].
Defined.

Lemma get_base_type_name_leaf_witness :
  depth user_list_shape < 4
  /\ get_base_type_name 4 user_list_ref = Ok (JStr "User").
Proof.
  split; [simpl; lia|].
  apply (get_base_type_name_leaf user_list_shape user_list_ref 4
           user_list_ref_introspected).
  simpl; lia.
Defined.

Lemma is_list_type_introspected :
  forall (t : TypeRef) (j : json) (fuel : nat),
    introspected t j ->
    depth t < fuel ->
    is_list_type fuel j = Ok (has_list t).
Proof.
  induction t as [name|t IH|t IH]; intros j fuel Hj Hfuel;
    inversion Hj; subst; clear Hj;
    (destruct fuel as [|fuel]; [lia|]); cbn [is_list_type is_None].
  - match goal with H : py_get _ "kind" = _ |- _ => rewrite H end.
    cbn [bind].
    match goal with H : is_wrapper_kind _ = false |- _ =>
      apply orb_false_elim in H; destruct H as [_ Hl]; rewrite Hl end.
    match goal with H : py_get _ "ofType" = _ |- _ => rewrite H end.
    cbn [bind].
    match goal with H : truthy _ = false |- _ => rewrite H end.
    reflexivity.
  - match goal with H : py_get _ "kind" = _ |- _ => rewrite H end.
    cbn [bind eq_str].
    replace ("NON_NULL" =? "LIST") with false by reflexivity.
    match goal with H : py_get _ "ofType" = _ |- _ =>
      rewrite H; cbn [bind];
      match goal with Hi : introspected _ _ |- _ =>
        destruct (introspected_truthy _ _ Hi) as [Ht _];
        rewrite Ht, (py_get_py_index _ _ _ H Ht); cbn [bind];
        apply IH; [exact Hi | simpl in Hfuel; lia]
      end
    end.
  - match goal with H : py_get _ "kind" = _ |- _ => rewrite H end.
    reflexivity.
Qed.

(** X2.  On a chain as an introspection result has it, [is_list_type]
    says whether a [LIST] wrapper occurs in the chain. *)
Theorem is_list_type_has_list :
  forall (t : TypeRef) (j : json) (fuel : nat),
    introspected t j ->
    depth t < fuel ->
    is_list_type fuel j = Ok (has_list t).
Proof.
  intros t j fuel Hj Hfuel.
  apply is_list_type_introspected; [exact Hj | exact Hfuel].
Qed.

Lemma is_list_type_has_list_witness :
  depth user_list_shape < 4 /\ is_list_type 4 user_list_ref = Ok true.
Proof.
  split; [simpl; lia|].
  apply (is_list_type_has_list user_list_shape user_list_ref 4
           user_list_ref_introspected).
  simpl; lia.
Defined.

Lemma introspected_leaf_name (t : TypeRef) (j : json) :
  introspected t j -> leaf_name t <> Some "".
Proof. induction 1; simpl; assumption. Qed.

Lemma resolve_decorations (t : TypeRef) :
  leaf_name t <> Some "" ->
  resolve t = decorations t (base_text (name_value (leaf_name t))).
Proof.
  induction t as [name|t IH|t IH]; simpl; intros Hname.
  - destruct name as [s|]; [|reflexivity].
    unfold base_text. simpl. destruct (String.eqb s "") eqn:E; [|reflexivity].
    apply String.eqb_eq in E. subst. contradiction.
  - rewrite IH by assumption. reflexivity.
  - rewrite IH by assumption. reflexivity.
Qed.

(** X3.  The resolver and the diagram helper agree on a chain: the SDL
    text of [convert_type] is the base type name that
    [get_base_type_name] returns ([UNKNOWN] when it returns nothing), with
    one [!] for each [NON_NULL] and one pair of brackets for each [LIST]
    of the chain. *)
Theorem convert_type_decorates_base :
  forall (t : TypeRef) (j fallback_field_name : json)
         (type_map : option pydict) (fuel : nat),
    introspected t j ->
    depth t < fuel ->
    exists base,
      get_base_type_name fuel j = Ok base
      /\ convert_type fuel j fallback_field_name type_map
         = Ok (JStr (decorations t (base_text base))).
Proof.
  intros t j fb tm fuel Hj Hfuel.
  exists (name_value (leaf_name t)). split.
  - apply get_base_type_name_introspected; assumption.
  - rewrite <- (resolve_decorations t (introspected_leaf_name t j Hj)).
    apply convert_type_represents; [apply introspected_represents|]; assumption.
Qed.

Lemma convert_type_decorates_base_witness :
  depth user_list_shape < 4
  /\ exists base,
      get_base_type_name 4 user_list_ref = Ok base
      /\ convert_type 4 user_list_ref (JStr "users") None
         = Ok (JStr (decorations user_list_shape (base_text base))).
Proof.
  split; [simpl; lia|].
  apply (convert_type_decorates_base user_list_shape user_list_ref
           (JStr "users") None 4 user_list_ref_introspected).
  simpl; lia.
Defined.

Lemma assoc_truthy_depth (kvs : list (string * json)) (k : string) (v : json) :
  py_get (JObj kvs) k = Ok v ->
  truthy v = true ->
  assoc k kvs = Some v.
Proof.
  unfold py_get, py_get_default. destruct (assoc k kvs) as [w|].
  - intros H _. injection H as ->. reflexivity.
  - intros H Hv. injection H as <-. discriminate Hv.
Qed.

(** X4.  The two helpers of the diagram terminate on every value,
    whatever it is: with a budget above the number of [ofType] links each
    ends with a value or with an exception of the program.  (No type map
    is involved, and no dict is made up.) *)
Theorem diagram_helpers_terminate :
  forall (fuel : nat) (graphql_type : json),
    chain_depth graphql_type < fuel ->
    completes (get_base_type_name fuel graphql_type)
    /\ completes (is_list_type fuel graphql_type).
Proof.
  induction fuel as [|fuel IH]; intros ty Hfuel; [lia|].
  cbn [get_base_type_name is_list_type].
  destruct (is_None ty) eqn:HNone; [split; apply completes_Ok|].
  destruct ty as [| | | | |kvs];
    try (split; apply completes_Err; discriminate).
  assert (Hrec : forall of_type,
             py_get (JObj kvs) "ofType" = Ok of_type ->
             truthy of_type = true ->
             py_index (JObj kvs) "ofType" = Ok of_type
             /\ chain_depth of_type < fuel).
  { intros v Hget Hv. split; [apply py_get_py_index; assumption|].
    pose proof (chain_depth_ofType _ _ (assoc_truthy_depth _ _ _ Hget Hv)).
    lia. }
  destruct (py_get (JObj kvs) "ofType") as [of_type|e] eqn:Hof;
    [|discriminate Hof].
  split.
  - cbn [bind]. destruct (truthy of_type) eqn:Hv.
    + destruct (Hrec _ eq_refl Hv) as [-> Hd]. cbn [bind].
      apply (IH _ Hd).
    + apply py_get_completes.
  - apply completes_bind_intro; [apply py_get_completes|]. intros kind.
    destruct (eq_str kind "LIST"); [apply completes_Ok|].
    cbn [bind]. destruct (truthy of_type) eqn:Hv.
    + destruct (Hrec _ eq_refl Hv) as [-> Hd]. cbn [bind].
      apply (IH _ Hd).
    + apply completes_Ok.
Qed.

Lemma diagram_helpers_terminate_witness :
  chain_depth list_cut < 2
  /\ completes (get_base_type_name 2 list_cut)
  /\ completes (is_list_type 2 list_cut).
Proof.
  split; [simpl; lia|].
  apply (diagram_helpers_terminate 2 list_cut). simpl; lia.
Defined.

(** ** The text of a type *)

Lemma append_not_empty (s t : string) : t <> "" -> s ++ t <> "".
Proof.
  intros Ht. destruct s as [|c s]; simpl; [exact Ht | discriminate].
Qed.

(** X6.  Whatever [convert_type] returns is not empty (and not [None]):
    a field line of the SDL always has something after the colon. *)
Theorem convert_type_not_empty :
  forall (fuel : nat) (graphql_type fallback_field_name r : json)
         (type_map : option pydict),
    convert_type fuel graphql_type fallback_field_name type_map = Ok r ->
    truthy r = true /\ py_str r <> "".
Proof.
  intros fuel ty fb r tm H.
  assert (Hstr : forall s, s <> "" ->
                           truthy (JStr s) = true /\ py_str (JStr s) <> "").
  { intros s Hs. split; [|exact Hs]. simpl.
    destruct (String.eqb_spec s ""); [contradiction|reflexivity]. }
  destruct fuel as [|fuel]; [discriminate H|].
  cbn [convert_type] in H.
  destruct (is_None ty).
  { injection H as <-. apply Hstr. discriminate. }
  destruct (py_get ty "kind") as [kind|]; cbn [bind] in H; [|discriminate H].
  destruct (eq_str kind "NON_NULL"); [|destruct (eq_str kind "LIST")].
  - split_run H. injection H as <-. apply Hstr.
    apply append_not_empty. discriminate.
  - split_run H. injection H as <-. apply Hstr. discriminate.
  - destruct (py_get ty "name") as [name|]; cbn [bind] in H; [|discriminate H].
    injection H as <-. destruct (truthy name) eqn:Hname.
    + split; [exact Hname|].
      destruct name as [|b|n|s|xs|kvs]; simpl in *; try discriminate.
      * destruct b; [discriminate | discriminate Hname].
      * unfold string_of_Z. destruct n; simpl; try discriminate.
        destruct (Pos.to_uint p); discriminate.
      * destruct (String.eqb_spec s ""); [discriminate Hname|assumption].
    + apply Hstr. discriminate.
Qed.

Lemma convert_type_not_empty_witness :
  convert_type 2 non_null_cut JNull None = Ok (JStr "UNKNOWN!")
  /\ truthy (JStr "UNKNOWN!") = true
  /\ py_str (JStr "UNKNOWN!") <> "".
Proof.
  split; [reflexivity|].
  apply (convert_type_not_empty 2 non_null_cut JNull (JStr "UNKNOWN!") None).
  reflexivity.
Defined.

(** ** What the type map is used for *)

Lemma fallback_inner_same_text (fallback_field_name : json) (d1 d2 : pydict) :
  d1 <> [] -> d2 <> [] ->
  named_types_only (Some d1) = true ->
  named_types_only (Some d2) = true ->
  (exists e, fallback_inner fallback_field_name (Some d1) = Err e
             /\ fallback_inner fallback_field_name (Some d2) = Err e)
  \/ (exists kind1 kind2 name,
         fallback_inner fallback_field_name (Some d1) = Ok (made_up kind1 name)
         /\ fallback_inner fallback_field_name (Some d2) = Ok (made_up kind2 name)
         /\ is_wrapper_kind kind1 = false
         /\ is_wrapper_kind kind2 = false).
Proof.
  intros Hd1 Hd2 Hn1 Hn2.
  assert (Ht1 : truthy_map (Some d1) = true)
    by (destruct d1; [contradiction|reflexivity]).
  assert (Ht2 : truthy_map (Some d2) = true)
    by (destruct d2; [contradiction|reflexivity]).
  destruct (truthy fallback_field_name) eqn:Hfb.
  - destruct fallback_field_name as [| | |s| |];
      try (left; exists AttributeError; unfold fallback_inner;
           rewrite Hfb, Ht1, Ht2; split; reflexivity).
    assert (Hguess : forall d, truthy_map (Some d) = true ->
                               negb (String.eqb s "") && truthy_map (Some d) = true).
    { intros d ->. simpl in Hfb. rewrite Hfb. reflexivity. }
    destruct (fallback_inner_guess s d1 (Hguess d1 Ht1) Hn1)
      as (k1 & E1 & L1 & _).
    destruct (fallback_inner_guess s d2 (Hguess d2 Ht2) Hn2)
      as (k2 & E2 & L2 & _).
    right. exists k1, k2, (singularize s). repeat split; assumption.
  - right. exists (JStr "OBJECT"), (JStr "OBJECT"), "UNKNOWN".
    unfold fallback_inner. rewrite Hfb. repeat split.
Qed.

(** X10.  The type map reaches the result of [convert_type] only through
    being empty or not: over two non-empty type maps of named types the
    outcome is the same, whether or not they have the type the field name
    suggests and whatever kind they record for it. *)
Theorem convert_type_ignores_type_map :
  forall (fuel : nat) (graphql_type fallback_field_name : json) (d1 d2 : pydict),
    d1 <> [] -> d2 <> [] ->
    named_types_only (Some d1) = true ->
    named_types_only (Some d2) = true ->
    convert_type fuel graphql_type fallback_field_name (Some d1)
    = convert_type fuel graphql_type fallback_field_name (Some d2).
Proof.
  intros fuel ty fb d1 d2 Hd1 Hd2 Hn1 Hn2. revert ty.
  induction fuel as [|fuel IH]; intros ty; [reflexivity|].
  assert (Hwrapper :
            forall k : json -> result json,
              (inner <- py_get ty "ofType" ;;
               inner <- (if is_None inner then fallback_inner fb (Some d1)
                         else Ok inner) ;;
               r <- convert_type fuel inner fb (Some d1) ;; k r)
              = (inner <- py_get ty "ofType" ;;
                 inner <- (if is_None inner then fallback_inner fb (Some d2)
                           else Ok inner) ;;
                 r <- convert_type fuel inner fb (Some d2) ;; k r)).
  { intros k.
    destruct (py_get ty "ofType") as [inner|e]; cbn [bind]; [|reflexivity].
    destruct (is_None inner).
    - destruct (fallback_inner_same_text fb d1 d2 Hd1 Hd2 Hn1 Hn2)
        as [(e & -> & ->) | (k1 & k2 & name & -> & -> & L1 & L2)];
        [reflexivity|].
      cbn [bind]. destruct fuel as [|fuel']; [reflexivity|].
      rewrite (convert_type_made_up fuel' _ _ _ _ L1).
      rewrite (convert_type_made_up fuel' _ _ _ _ L2). reflexivity.
    - cbn [bind]. rewrite IH. reflexivity. }
  cbn [convert_type].
  destruct (is_None ty); [reflexivity|].
  destruct (py_get ty "kind") as [kind|e]; cbn [bind]; [|reflexivity].
  destruct (eq_str kind "NON_NULL"); [|destruct (eq_str kind "LIST")].
  - apply Hwrapper.
  - apply Hwrapper.
  - reflexivity.
Qed.

Lemma convert_type_ignores_type_map_witness :
  named_types_only (Some user_map) = true
  /\ convert_type 3 nested_cut (JStr "posts") (Some user_map)
     = convert_type 3 nested_cut (JStr "posts")
         (Some [(KStr "Post", JObj [("name", JStr "Post"); ("kind", JStr "ENUM")])]).
Proof.
  split; [reflexivity|].
  apply (convert_type_ignores_type_map 3 nested_cut (JStr "posts") user_map
           [(KStr "Post", JObj [("name", JStr "Post"); ("kind", JStr "ENUM")])]);
    try reflexivity; discriminate.
Defined.

(** ** More on the name heuristic *)

Lemma is_upper_to_lower (c : ascii) : is_upper (to_lower c) = false.
Proof.
  destruct c as [b0 b1 b2 b3 b4 b5 b6 b7].
  destruct b0, b1, b2, b3, b4, b5, b6, b7; reflexivity.
Qed.

Lemma has_upper_lower (s : string) : has_upper (lower s) = false.
Proof.
  induction s as [|c s IH]; simpl; [reflexivity|].
  rewrite is_upper_to_lower, IH. reflexivity.
Qed.

Lemma capitalize_tail (s : string) (c : ascii) (rest : string) :
  capitalize s = String c rest -> has_upper rest = false.
Proof.
  destruct s as [|c0 s0]; simpl; [discriminate|].
  intros H. injection H as _ <-. apply has_upper_lower.
Qed.

(** X11.  For an ASCII name that does not end in [ies], everything after
    the first character of [singularize]'s result is in lower case: the
    capitals inside a camel-case field name are gone ([userPosts] gives
    [Userpost]).  The name is ASCII text: outside ASCII,
    [str.capitalize] can put a capital after the first character. *)
Theorem singularize_lowers_tail :
  forall (name : string) (c : ascii) (rest : string),
    is_ascii name = true ->
    endswith name "ies" = false ->
    singularize name = String c rest ->
    has_upper rest = false.
Proof.
  intros name c rest _ Hies H. unfold singularize in H. rewrite Hies in H.
  destruct (endswith name "s"); apply (capitalize_tail _ _ _ H).
Qed.

Lemma singularize_lowers_tail_witness :
  is_ascii "userPosts" = true
  /\ singularize "userPosts" = "Userpost" /\ has_upper "serpost" = false.
Proof.
  split; [reflexivity|]. split; [reflexivity|].
  apply (singularize_lowers_tail "userPosts" "U" "serpost"); reflexivity.
Defined.

(** ** The type map *)

Lemma pykey_eqb_eq (a b : pykey) : pykey_eqb a b = true <-> a = b.
Proof.
  destruct a as [|m|s], b as [|n|t]; simpl; split; intros H;
    try discriminate H; try reflexivity.
  - apply Z.eqb_eq in H. subst. reflexivity.
  - injection H as ->. apply Z.eqb_refl.
  - apply String.eqb_eq in H. subst. reflexivity.
  - injection H as ->. apply String.eqb_refl.
Qed.

(** Lookup after an assignment. *)
Lemma dict_lookup_set (q k : pykey) (v : json) (d : pydict) :
  dict_lookup q (dict_set k v d)
  = if pykey_eqb q k then Some v else dict_lookup q d.
Proof.
  induction d as [|[k' v'] d IH]; simpl.
  - reflexivity.
  - destruct (pykey_eqb k k') eqn:Hkk; simpl.
    + apply pykey_eqb_eq in Hkk. subst k'.
      destruct (pykey_eqb q k); reflexivity.
    + rewrite IH. destruct (pykey_eqb q k') eqn:Hqk'; [|reflexivity].
      apply pykey_eqb_eq in Hqk'. subst k'.
      destruct (pykey_eqb q k) eqn:Hqk; [|reflexivity].
      apply pykey_eqb_eq in Hqk. subst k.
      assert (pykey_eqb q q = true) by (apply pykey_eqb_eq; reflexivity).
      congruence.
Qed.

Lemma build_type_map_lookup (name : string) (types : list json) :
  forall acc d,
    build_type_map types acc = Ok d ->
    dict_lookup (KStr name) d
    = match last_named name types with
      | Some t => Some t
      | None => dict_lookup (KStr name) acc
      end.
Proof.
  induction types as [|t rest IH]; intros acc d H; simpl in H.
  - injection H as <-. reflexivity.
  - destruct (py_get t "name") as [nm|] eqn:Hnm; cbn [bind] in H;
      [|discriminate H].
    cbn [last_named]. rewrite Hnm.
    destruct (truthy nm) eqn:Htruthy.
    + destruct (hashable nm) as [k|] eqn:Hk; cbn [bind] in H; [|discriminate H].
      rewrite (IH _ _ H), dict_lookup_set.
      destruct (last_named name rest); [reflexivity|].
      destruct nm as [|b|n|s| |]; simpl in Hk; try discriminate Hk;
        injection Hk as <-; simpl; try reflexivity.
      simpl in Htruthy. rewrite Htruthy, andb_true_r.
      rewrite (String.eqb_sym name s). destruct (String.eqb s name); reflexivity.
    + rewrite (IH _ _ H).
      destruct (last_named name rest); [reflexivity|].
      destruct nm as [| | |s| |]; try reflexivity.
      simpl in Htruthy. apply negb_false_iff in Htruthy. rewrite Htruthy.
      rewrite andb_false_r. reflexivity.
Qed.

Lemma build_type_map_last_named_lookup (types : list json) (d : pydict)
    (name : string) :
  build_type_map types [] = Ok d ->
  dict_lookup (KStr name) d = last_named name types.
Proof.
  intros H. rewrite (build_type_map_lookup name types [] d H).
  destruct (last_named name types); reflexivity.
Qed.

(** X7.  The type map that [generate_graphql_schema] and
    [generate_graphviz_diagram] build maps a name to the last element of
    the [types] array that has it: of two types with one name the later
    one is looked up, and a name no type has is not in the map. *)
Theorem build_type_map_last_named :
  forall (types : list json) (d : pydict) (name : string),
    build_type_map types [] = Ok d ->
    dict_lookup (KStr name) d = last_named name types.
Proof.
  intros types d name H.
  apply build_type_map_last_named_lookup. exact H.
Qed.

Lemma build_type_map_last_named_witness :
  build_type_map [user_type; list_named_post;
                  JObj [("name", JStr "User"); ("kind", JStr "ENUM")]] []
  = Ok [(KStr "User", JObj [("name", JStr "User"); ("kind", JStr "ENUM")]);
        (KStr "Post", list_named_post)]
  /\ dict_lookup (KStr "User")
       [(KStr "User", JObj [("name", JStr "User"); ("kind", JStr "ENUM")]);
        (KStr "Post", list_named_post)]
     = last_named "User"
         [user_type; list_named_post;
          JObj [("name", JStr "User"); ("kind", JStr "ENUM")]].
Proof.
  split; [reflexivity|].
  apply (build_type_map_last_named
           [user_type; list_named_post;
            JObj [("name", JStr "User"); ("kind", JStr "ENUM")]]).
  reflexivity.
Defined.

(** ** Documents that are rejected as a whole *)

Lemma lookup_path_types (doc types_value : json) :
  lookup_path ["data"; "__schema"; "types"] doc = Some types_value ->
  (data <- py_index doc "data" ;;
   schema <- py_index data "__schema" ;;
   py_index schema "types") = Ok types_value.
Proof.
  intros H.
  destruct doc as [| | | | |kvs]; try discriminate H. simpl in H |- *.
  destruct (assoc "data" kvs) as [data|]; [|discriminate H]. cbn [bind].
  destruct data as [| | | | |kvs1]; try discriminate H. simpl in H |- *.
  destruct (assoc "__schema" kvs1) as [schema|]; [|discriminate H]. cbn [bind].
  destruct schema as [| | | | |kvs2]; try discriminate H. simpl in H |- *.
  destruct (assoc "types" kvs2); [|discriminate H].
  injection H as ->. reflexivity.
Qed.

(** The two generators, from the elements of the [types] array on. *)
Lemma generate_graphql_schema_from_types (fuel : nat)
    (doc types_value : json) (types : list json) :
  lookup_path ["data"; "__schema"; "types"] doc = Some types_value ->
  py_iter types_value = Ok types ->
  generate_graphql_schema fuel doc
  = (type_map <- build_type_map types [] ;;
     schema_parts <- schema_loop fuel (Some type_map) types [] ;;
     Ok (join (nl ++ nl) schema_parts ++ nl)).
Proof.
  intros Hpath Hiter. apply lookup_path_types in Hpath.
  unfold generate_graphql_schema.
  destruct (py_index doc "data") as [data|]; cbn [bind] in *; [|discriminate].
  destruct (py_index data "__schema") as [schema|]; cbn [bind] in *;
    [|discriminate].
  rewrite Hpath. cbn [bind]. rewrite Hiter. reflexivity.
Qed.

Lemma generate_graphviz_diagram_from_types (fuel : nat)
    (doc types_value : json) (types : list json) :
  lookup_path ["data"; "__schema"; "types"] doc = Some types_value ->
  py_iter types_value = Ok types ->
  generate_graphviz_diagram fuel doc
  = (type_map <- build_type_map types [] ;;
     nodes <- foldM (node_step fuel (Some type_map)) types [] ;;
     edges <- foldM (edge_step fuel type_map) types [] ;;
     Ok {| graph_nodes := nodes; graph_edges := edges |}).
Proof.
  intros Hpath Hiter. apply lookup_path_types in Hpath.
  unfold generate_graphviz_diagram.
  destruct (py_index doc "data") as [data|]; cbn [bind] in *; [|discriminate].
  destruct (py_index data "__schema") as [schema|]; cbn [bind] in *;
    [|discriminate].
  rewrite Hpath. cbn [bind]. rewrite Hiter. reflexivity.
Qed.

Lemma build_type_map_rejects (x : json) (types : list json) :
  In x types ->
  (forall kvs, x <> JObj kvs) ->
  forall acc,
    exists e, (e = AttributeError \/ e = TypeError)
              /\ build_type_map types acc = Err e.
Proof.
  intros Hin Hx. induction types as [|t rest IH]; [contradiction|].
  intros acc. simpl.
  destruct (py_get t "name") as [nm|e] eqn:Hnm; cbn [bind].
  - assert (Hrest : In x rest).
    { destruct Hin as [->|Hin]; [|exact Hin].
      destruct x; try discriminate Hnm. exfalso. eapply Hx. reflexivity. }
    destruct (truthy nm); [|apply IH; exact Hrest].
    destruct (hashable nm) as [k|e] eqn:Hk; cbn [bind].
    + apply IH. exact Hrest.
    + exists e. split; [|reflexivity].
      destruct nm; simpl in Hk; try discriminate Hk;
        injection Hk as <-; right; reflexivity.
  - exists e. split; [|reflexivity].
    destruct t; simpl in Hnm; try discriminate Hnm;
      injection Hnm as <-; left; reflexivity.
Qed.

(** X8.  An element of the [types] array that is not an object makes both
    generators raise, [AttributeError] or [TypeError], wherever it stands
    in the array and whatever the other elements are: no SDL text and no
    diagram comes out of such a document. *)
Theorem generators_reject_non_object :
  forall (fuel : nat) (doc types_value x : json) (types : list json),
    lookup_path ["data"; "__schema"; "types"] doc = Some types_value ->
    py_iter types_value = Ok types ->
    In x types ->
    (forall kvs, x <> JObj kvs) ->
    exists e,
      (e = AttributeError \/ e = TypeError)
      /\ generate_graphql_schema fuel doc = Err e
      /\ generate_graphviz_diagram fuel doc = Err e.
Proof.
  intros fuel doc tv x types Hpath Hiter Hin Hx.
  destruct (build_type_map_rejects x types Hin Hx []) as (e & He & Hbuild).
  exists e. split; [exact He|]. split.
  - rewrite (generate_graphql_schema_from_types fuel doc tv types Hpath Hiter).
    rewrite Hbuild. reflexivity.
  - rewrite (generate_graphviz_diagram_from_types fuel doc tv types Hpath Hiter).
    rewrite Hbuild. reflexivity.
Qed.

Lemma generators_reject_non_object_witness :
  In (JStr "Tag") [user_type; JStr "Tag"]
  /\ exists e,
      (e = AttributeError \/ e = TypeError)
      /\ generate_graphql_schema 3 (doc_of_types [user_type; JStr "Tag"]) = Err e
      /\ generate_graphviz_diagram 3 (doc_of_types [user_type; JStr "Tag"]) = Err e.
Proof.
  split; [simpl; auto|].
  apply (generators_reject_non_object 3 (doc_of_types [user_type; JStr "Tag"])
           (JArr [user_type; JStr "Tag"]) (JStr "Tag") [user_type; JStr "Tag"]).
  - reflexivity.
  - reflexivity.
  - simpl; auto.
  - discriminate.
Defined.

(** ** Which types are declared, and how *)

Lemma proper_name_get (t : json) (name : string) :
  proper_name t = Some name ->
  py_get t "name" = Ok (JStr name)
  /\ name <> ""
  /\ startswith name "__" = false.
Proof.
  unfold proper_name. intros H.
  destruct (py_get t "name") as [[| | |s| |]|]; try discriminate H.
  destruct (String.eqb_spec s ""); [discriminate H|]. simpl in H.
  destruct (startswith s "__") eqn:Hint; [discriminate H|].
  injection H as <-. repeat split; assumption.
Qed.

Lemma schema_step_improper (fuel : nat) (type_map : option pydict)
    (schema_parts parts : list string) (t : json) :
  proper_name t = None ->
  schema_step fuel type_map schema_parts t = Ok parts ->
  parts = schema_parts.
Proof.
  unfold proper_name, schema_step. intros Hp H.
  destruct (py_get t "name") as [name|]; cbn [bind] in H; [|discriminate H].
  destruct (negb (truthy name)) eqn:Htruthy; cbn [bind] in H.
  { injection H as <-. reflexivity. }
  destruct name as [| | |s| |]; try discriminate H.
  cbn [py_startswith bind] in H.
  destruct (String.eqb_spec s ""); [subst; discriminate Htruthy|].
  simpl in Hp. destruct (startswith s "__"); [|discriminate Hp].
  injection H as <-. reflexivity.
Qed.

(** One iteration appends a declaration exactly for an [emitted] type, with
    the keyword of its category. *)
Lemma schema_step_classifies (fuel : nat) (type_map : option pydict)
    (schema_parts parts : list string) (t : json) :
  schema_step fuel type_map schema_parts t = Ok parts ->
  if emitted t
  then exists b, parts = append schema_parts b /\ declared_as t b
  else parts = schema_parts.
Proof.
  intros H. unfold emitted.
  destruct (proper_name t) as [name|] eqn:Hp;
    [|apply (schema_step_improper _ _ _ _ _ Hp H)].
  destruct (proper_name_get _ _ Hp) as (Hname & Hne & Hint).
  rewrite (schema_step_named _ _ _ _ name Hname Hne Hint) in H.
  assert (Hblock : forall keyword body,
             sdl_keyword t = keyword ->
             String.eqb keyword "scalar" = false ->
             exists b', append schema_parts (block keyword name body)
                        = append schema_parts b'
                        /\ declared_as t b').
  { intros keyword body Hk Hns. eexists. split; [reflexivity|].
    exists name. rewrite Hk, Hns. split; [exact Hp|].
    exists body. reflexivity. }
  assert (Hscalar :
            sdl_keyword t = "scalar" ->
            exists b', append schema_parts ("scalar " ++ name)
                       = append schema_parts b'
                       /\ declared_as t b').
  { intros Hk. eexists. split; [reflexivity|].
    exists name. rewrite Hk. split; [exact Hp | reflexivity]. }
  destruct t as [| | | | |kvs]; try discriminate Hname.
  unfold sdl_keyword, present, value_of, py_get, py_get_default, py_index in *.
  cbn [bind] in H.
  destruct (assoc "fields" kvs) as [fields|]; cbn [is_None negb bind] in *.
  - destruct (is_None fields) eqn:HN; cbn [negb bind] in *.
    + destruct fields; try discriminate HN.
      destruct (assoc "inputFields" kvs) as [ifs|]; cbn [bind is_None negb] in *.
      * destruct (is_None ifs) eqn:HI; cbn [negb bind] in *.
        -- destruct ifs; try discriminate HI.
           destruct (assoc "enumValues" kvs) as [evs|];
             cbn [bind is_None negb] in *.
           ++ destruct (is_None evs) eqn:HE; cbn [negb bind] in *.
              ** injection H as <-. apply Hscalar; reflexivity.
              ** destruct (truthy evs); cbn [negb] in H.
                 --- split_run H. injection H as <-.
                     apply (Hblock "enum"); reflexivity.
                 --- injection H as <-. reflexivity.
           ++ injection H as <-. apply Hscalar; reflexivity.
        -- split_run H. injection H as <-. apply (Hblock "input"); reflexivity.
      * destruct (assoc "enumValues" kvs) as [evs|];
          cbn [bind is_None negb] in *.
        -- destruct (is_None evs) eqn:HE; cbn [negb bind] in *.
           ++ injection H as <-. apply Hscalar; reflexivity.
           ++ destruct (truthy evs); cbn [negb] in H.
              ** split_run H. injection H as <-.
                 apply (Hblock "enum"); reflexivity.
              ** injection H as <-. reflexivity.
        -- injection H as <-. apply Hscalar; reflexivity.
    + destruct (truthy fields); cbn [negb] in H.
      * split_run H. injection H as <-. apply (Hblock "type"); reflexivity.
      * injection H as <-. reflexivity.
  - destruct (assoc "inputFields" kvs) as [ifs|]; cbn [bind is_None negb] in *.
    + destruct (is_None ifs) eqn:HI; cbn [negb bind] in *.
      * destruct ifs; try discriminate HI.
        destruct (assoc "enumValues" kvs) as [evs|];
          cbn [bind is_None negb] in *.
        -- destruct (is_None evs) eqn:HE; cbn [negb bind] in *.
           ++ injection H as <-. apply Hscalar; reflexivity.
           ++ destruct (truthy evs); cbn [negb] in H.
              ** split_run H. injection H as <-.
                 apply (Hblock "enum"); reflexivity.
              ** injection H as <-. reflexivity.
        -- injection H as <-. apply Hscalar; reflexivity.
      * split_run H. injection H as <-. apply (Hblock "input"); reflexivity.
    + destruct (assoc "enumValues" kvs) as [evs|];
        cbn [bind is_None negb] in *.
      * destruct (is_None evs) eqn:HE; cbn [negb bind] in *.
        -- injection H as <-. apply Hscalar; reflexivity.
        -- destruct (truthy evs); cbn [negb] in H.
           ++ split_run H. injection H as <-.
              apply (Hblock "enum"); reflexivity.
           ++ injection H as <-. reflexivity.
      * injection H as <-. apply Hscalar; reflexivity.
Qed.

Lemma schema_loop_classifies (fuel : nat) (type_map : pydict)
    (types : list json) :
  forall schema_parts parts,
    schema_loop fuel (Some type_map) types schema_parts = Ok parts ->
    exists blocks,
      Forall2 (own_declaration fuel type_map) (filter emitted types) blocks
      /\ (forall t, In t types -> emitted t = false ->
                    schema_step fuel (Some type_map) [] t = Ok [])
      /\ parts = (schema_parts ++ blocks)%list.
Proof.
  induction types as [|t rest IH]; intros acc parts H; simpl in H.
  - injection H as <-. exists []. split; [constructor|]. split.
    + intros t [].
    + rewrite app_nil_r. reflexivity.
  - rewrite schema_step_acc in H.
    destruct (schema_step fuel (Some type_map) [] t) as [bs|] eqn:Hstep;
      cbn [bind] in H; [|discriminate H].
    destruct (IH _ _ H) as (blocks & Hall & Hskip & ->).
    pose proof (schema_step_classifies _ _ _ _ _ Hstep) as Hc.
    cbn [filter]. destruct (emitted t) eqn:Hem.
    + destruct Hc as (b & -> & Hb). exists (b :: blocks). split; [|split].
      * constructor; [|exact Hall]. split; [exact Hstep | exact Hb].
      * intros t' [<-|Hin] Ht'; [congruence | apply Hskip; assumption].
      * unfold append. rewrite <- app_assoc. reflexivity.
    + subst bs. exists blocks. split; [exact Hall|]. split.
      * intros t' [<-|Hin] Ht'; [exact Hstep | apply Hskip; assumption].
      * rewrite app_nil_r. reflexivity.
Qed.

(** X9.  When [generate_graphql_schema] returns an SDL text, the text is
    the join, in the order of the array, of one declaration for each
    element of [types] that has a proper name (a string, not empty, not
    starting with [__]) and is not an object type or an enum type with
    nothing in it; each is the declaration the element yields by itself,
    in the form of its category, the first of [fields] ([type] block),
    [inputFields] ([input] block) and [enumValues] ([enum] block) that the
    element has, or the line [scalar Name] when it has none; and every
    other element of the array yields nothing. *)
Theorem generate_graphql_schema_classifies :
  forall (fuel : nat) (doc types_value : json) (types : list json)
         (sdl : string),
    lookup_path ["data"; "__schema"; "types"] doc = Some types_value ->
    py_iter types_value = Ok types ->
    generate_graphql_schema fuel doc = Ok sdl ->
    exists type_map blocks,
      build_type_map types [] = Ok type_map
      /\ Forall2 (own_declaration fuel type_map) (filter emitted types) blocks
      /\ (forall t, In t types -> emitted t = false ->
                    schema_step fuel (Some type_map) [] t = Ok [])
      /\ sdl = join (nl ++ nl) blocks ++ nl.
Proof.
  intros fuel doc tv types sdl Hpath Hiter H.
  rewrite (generate_graphql_schema_from_types fuel doc tv types Hpath Hiter) in H.
  destruct (build_type_map types []) as [type_map|]; cbn [bind] in H;
    [|discriminate H].
  destruct (schema_loop fuel (Some type_map) types []) as [parts|] eqn:Hloop;
    cbn [bind] in H; [|discriminate H].
  injection H as <-.
  destruct (schema_loop_classifies _ _ _ _ _ Hloop)
    as (blocks & Hall & Hskip & ->).
  exists type_map, blocks. repeat split; assumption || reflexivity.
Qed.

Lemma generate_graphql_schema_classifies_witness :
  generate_graphql_schema 3 shop_doc = Ok shop_sdl
  /\ List.length (filter emitted shop_types) = 4
  /\ exists type_map blocks,
      build_type_map shop_types [] = Ok type_map
      /\ Forall2 (own_declaration 3 type_map) (filter emitted shop_types) blocks
      /\ (forall t, In t shop_types -> emitted t = false ->
                    schema_step 3 (Some type_map) [] t = Ok [])
      /\ shop_sdl = join (nl ++ nl) blocks ++ nl.
Proof.
  split; [reflexivity|]. split; [reflexivity|].
  apply (generate_graphql_schema_classifies 3 shop_doc (JArr shop_types)
           shop_types shop_sdl); reflexivity.
Defined.

(** ** The nodes of the diagram *)

(** One iteration adds a node exactly for a type with a proper name. *)
Lemma node_step_proper (fuel : nat) (type_map : option pydict)
    (nodes nodes' : list (string * string)) (t : json) :
  node_step fuel type_map nodes t = Ok nodes' ->
  match proper_name t with
  | Some name => exists label, nodes' = (nodes ++ [(name, label)])%list
  | None => nodes' = nodes
  end.
Proof.
  unfold node_step, proper_name. intros H.
  destruct (py_get t "name") as [name|]; cbn [bind] in H; [|discriminate H].
  destruct (negb (truthy name)) eqn:Htruthy; cbn [bind] in H.
  { injection H as <-. destruct name as [| | |s| |]; try reflexivity.
    simpl in Htruthy. apply negb_true_iff, negb_false_iff in Htruthy.
    rewrite Htruthy. reflexivity. }
  destruct name as [| | |s| |]; try discriminate H.
  cbn [py_startswith bind py_str] in H.
  simpl in Htruthy. apply negb_false_iff, negb_true_iff in Htruthy.
  rewrite Htruthy. simpl.
  destruct (startswith s "__").
  - injection H as <-. reflexivity.
  - destruct (node_label_lines fuel type_map t s) as [lines|];
      cbn [bind] in H; [|discriminate H].
    injection H as <-. eexists. reflexivity.
Qed.

Lemma node_loop_names (fuel : nat) (type_map : option pydict)
    (types : list json) :
  forall nodes nodes',
    foldM (node_step fuel type_map) types nodes = Ok nodes' ->
    map fst nodes' = (map fst nodes ++ proper_names types)%list.
Proof.
  induction types as [|t rest IH]; intros nodes nodes' H; simpl in H.
  - injection H as <-. simpl. rewrite app_nil_r. reflexivity.
  - destruct (node_step fuel type_map nodes t) as [mid|] eqn:Hstep;
      cbn [bind] in H; [|discriminate H].
    rewrite (IH _ _ H). pose proof (node_step_proper _ _ _ _ _ Hstep) as Hp.
    unfold proper_names. cbn [flat_map].
    destruct (proper_name t) as [name|].
    + destruct Hp as (label & ->). rewrite map_app, <- app_assoc. reflexivity.
    + subst mid. reflexivity.
Qed.

Lemma emitted_proper (t : json) :
  emitted t = true -> exists name, proper_name t = Some name.
Proof.
  unfold emitted. destruct (proper_name t) as [name|]; [|discriminate].
  intros _. exists name. reflexivity.
Qed.

Lemma proper_names_In (types : list json) (t : json) (name : string) :
  In t types -> proper_name t = Some name -> In name (proper_names types).
Proof.
  intros Hin Hp. unfold proper_names. apply in_flat_map.
  exists t. split; [exact Hin|]. rewrite Hp. simpl. auto.
Qed.

(** X13.  When [generate_graphviz_diagram] returns a diagram, its nodes
    are, in the order of the [types] array, the types with a proper name,
    one node each.  A type that has a declaration in the SDL has a node;
    so has an object or enum type with nothing in it, which has no
    declaration. *)
Theorem generate_graphviz_diagram_nodes :
  forall (fuel : nat) (doc types_value : json) (types : list json)
         (g : digraph),
    lookup_path ["data"; "__schema"; "types"] doc = Some types_value ->
    py_iter types_value = Ok types ->
    generate_graphviz_diagram fuel doc = Ok g ->
    map fst (graph_nodes g) = proper_names types
    /\ forall t, In t types -> emitted t = true ->
                 exists name, proper_name t = Some name
                              /\ In name (map fst (graph_nodes g)).
Proof.
  intros fuel doc tv types g Hpath Hiter H.
  rewrite (generate_graphviz_diagram_from_types fuel doc tv types Hpath Hiter) in H.
  destruct (build_type_map types []) as [type_map|]; cbn [bind] in H;
    [|discriminate H].
  destruct (foldM (node_step fuel (Some type_map)) types []) as [nodes|] eqn:Hn;
    cbn [bind] in H; [|discriminate H].
  destruct (foldM (edge_step fuel type_map) types []) as [edges|];
    cbn [bind] in H; [|discriminate H].
  injection H as <-. cbn [graph_nodes].
  pose proof (node_loop_names _ _ _ _ _ Hn) as Hnames. simpl in Hnames.
  split; [exact Hnames|].
  intros t Hin Hem. destruct (emitted_proper t Hem) as (name & Hp).
  exists name. split; [exact Hp|]. rewrite Hnames.
  apply (proper_names_In types t name Hin Hp).
Qed.

Lemma generate_graphviz_diagram_nodes_witness :
  (exists g, generate_graphviz_diagram 3 shop_doc = Ok g
             /\ map fst (graph_nodes g)
                = ["Item"; "User"; "ItemInput"; "Size"; "Date"])
  /\ proper_names shop_types = ["Item"; "User"; "ItemInput"; "Size"; "Date"].
Proof.
  destruct (generate_graphviz_diagram 3 shop_doc) as [g|e] eqn:Hg;
    [|vm_compute in Hg; discriminate Hg].
  destruct (generate_graphviz_diagram_nodes 3 shop_doc (JArr shop_types)
              shop_types g eq_refl eq_refl Hg) as [Hnames _].
  split; [|reflexivity].
  exists g. split; [reflexivity|]. rewrite Hnames. reflexivity.
Defined.

(** ** The label of a node *)

Lemma mapM_length {A B : Type} (f : A -> result B) (xs : list A) :
  forall ys, mapM f xs = Ok ys -> List.length ys = List.length xs.
Proof.
  induction xs as [|x xs IH]; intros ys H; simpl in H.
  - injection H as <-. reflexivity.
  - destruct (f x) as [y|]; cbn [bind] in H; [|discriminate H].
    destruct (mapM f xs) as [ys'|]; cbn [bind] in H; [|discriminate H].
    injection H as <-. simpl. rewrite (IH ys' eq_refl). reflexivity.
Qed.

Lemma chars_length (s : string) : List.length (chars s) = String.length s.
Proof. induction s as [|c s IH]; simpl; [|rewrite IH]; reflexivity. Qed.

Lemma substring_0_length (n : nat) :
  forall s, String.length (substring 0 n s) = Nat.min n (String.length s).
Proof.
  induction n as [|n IH]; intros s.
  - destruct s; reflexivity.
  - destruct s as [|c s]; simpl; [reflexivity|]. rewrite IH. reflexivity.
Qed.

Lemma py_take_length (n count : nat) (j : json) (fs : list json) :
  py_len j = Ok count ->
  py_take n j = Ok fs ->
  List.length fs = Nat.min n count.
Proof.
  destruct j as [| | |s|xs|kvs]; simpl; intros Hc Ht;
    try discriminate Ht; injection Hc as <-; injection Ht as <-.
  - rewrite chars_length. apply substring_0_length.
  - apply List.length_firstn.
Qed.

(** X14.  The label of a node has at most nine rows, however many fields
    or values the type has.  For an object or input type with [count]
    fields it has the two head rows, one row for each of the first five
    fields, the closing row and, when [count] is above five, one row that
    says how many fields are left out: [... (count - 5 more)]. *)
Theorem node_label_lines_bounded :
  forall (fuel : nat) (type_map : option pydict) (t : json) (name : string)
         (lines : list string),
    node_label_lines fuel type_map t name = Ok lines ->
    List.length lines <= 9
    /\ forall category fields count,
        node_category t = Ok (category, fields) ->
        category = "object" \/ category = "input" ->
        py_len fields = Ok count ->
        List.length lines
        = 3 + Nat.min 5 count + (if (5 <? count)%nat then 1 else 0)
        /\ (5 < count ->
            In (left_row ("... (" ++ string_of_nat (count - 5) ++ " more)"))
               lines).
Proof.
  intros fuel tm t name lines H. unfold node_label_lines in H.
  destruct (node_category t) as [[category fields]|]; cbn [bind fst snd] in H;
    [|discriminate H].
  destruct (String.eqb category "object" || String.eqb category "input")
    eqn:Hcat.
  - destruct (py_len fields) as [count|] eqn:Hlen; cbn [bind] in H;
      [|discriminate H].
    destruct (py_take 5 fields) as [fs|] eqn:Htake; cbn [bind] in H;
      [|discriminate H].
    destruct (mapM _ fs) as [rows|] eqn:Hrows; cbn [bind] in H;
      [|discriminate H].
    pose proof (mapM_length _ _ _ Hrows) as Hl.
    rewrite (py_take_length 5 count fields fs Hlen Htake) in Hl.
    assert (Hsize : List.length lines
                    = 3 + Nat.min 5 count + (if (5 <? count)%nat then 1 else 0)
                    /\ (5 < count ->
                        In (left_row ("... (" ++ string_of_nat (count - 5)
                                      ++ " more)")) lines)).
    { destruct (5 <? count)%nat eqn:Hmore; cbn [bind] in H;
        injection H as <-; split.
      - cbn [List.length]. repeat rewrite length_app. cbn [List.length].
        rewrite Hl. lia.
      - intros _. right. right. apply in_or_app. left.
        apply in_or_app. right. left. reflexivity.
      - cbn [List.length]. repeat rewrite length_app. cbn [List.length].
        rewrite Hl. lia.
      - intros Hc. apply Nat.ltb_ge in Hmore. lia. }
    split.
    + destruct Hsize as [-> _]. destruct (5 <? count)%nat; lia.
    + intros c f n Hcf _ Hn. injection Hcf as <- <-.
      rewrite Hlen in Hn. injection Hn as <-. exact Hsize.
  - split.
    + destruct (String.eqb category "enum"); cbn [bind] in H.
      * destruct (py_iter fields) as [evs|]; cbn [bind] in H; [|discriminate H].
        destruct (mapM (fun ev => py_index ev "name") evs) as [enum_names|];
          cbn [bind] in H; [|discriminate H].
        match type of H with
        | bind (bind ?m _) _ = _ =>
            destruct m as [enum_text|]; cbn [bind] in H; [|discriminate H]
        end.
        injection H as <-. simpl. lia.
      * injection H as <-. simpl. lia.
    + intros c f n Hcf Hc _. injection Hcf as <- <-.
      destruct Hc as [-> | ->]; discriminate Hcat.
Qed.

Lemma node_label_lines_bounded_witness :
  (exists lines, node_label_lines 2 None wide_type "Wide" = Ok lines
                 /\ List.length lines = 9
                 /\ In (left_row "... (2 more)") lines)
  /\ py_len (value_of wide_type "fields") = Ok 7.
Proof.
  split; [|reflexivity].
  destruct (node_label_lines 2 None wide_type "Wide") as [lines|e] eqn:Hlines;
    [|vm_compute in Hlines; discriminate Hlines].
  destruct (node_label_lines_bounded 2 None wide_type "Wide" lines Hlines)
    as [_ Hobj].
  destruct (Hobj "object" (value_of wide_type "fields") 7 eq_refl
              (or_introl eq_refl) eq_refl) as [Hlen Hin].
  exists lines. split; [reflexivity|]. split; [exact Hlen|].
  apply Hin. lia.
Defined.

(** ** The edges of the diagram *)

Lemma foldM_Forall {A B : Type} (step : list B -> A -> result (list B))
    (P : B -> Prop) (xs : list A) :
  (forall acc acc' x,
      In x xs -> step acc x = Ok acc' -> Forall P acc -> Forall P acc') ->
  forall acc out,
    foldM step xs acc = Ok out -> Forall P acc -> Forall P out.
Proof.
  induction xs as [|x xs IH]; intros Hstep acc out H Hacc; simpl in H.
  - injection H as <-. exact Hacc.
  - destruct (step acc x) as [acc'|] eqn:Hx; cbn [bind] in H; [|discriminate H].
    apply (IH (fun a a' y Hy => Hstep a a' y (or_intror Hy)) acc' out H).
    apply (Hstep acc acc' x (or_introl eq_refl) Hx Hacc).
Qed.

(** One field adds no edge, or one edge that passed the test of the
    source. *)
Lemma edge_field_step_drawn (fuel : nat) (type_map : pydict) (src_name : string)
    (edges edges' : list (string * json * string)) (f : json) :
  edge_field_step fuel type_map src_name edges f = Ok edges' ->
  edges' = edges
  \/ exists head label,
      edges' = (edges ++ [(src_name, head, label)])%list
      /\ edge_drawn type_map (src_name, head, label).
Proof.
  unfold edge_field_step. intros H.
  destruct (py_index f "type") as [ty|]; cbn [bind] in H; [|discriminate H].
  destruct (get_base_type_name fuel ty) as [base|]; cbn [bind] in H;
    [|discriminate H].
  destruct (truthy base) eqn:Hbase; cbn [bind] in H.
  - destruct (hashable base) as [k|] eqn:Hk; cbn [bind] in H; [|discriminate H].
    destruct (negb (existsb (pykey_eqb k) BUILT_IN_SCALARS)
              && dict_mem k type_map
              && negb (pykey_eqb k (KStr src_name))) eqn:Hdraw.
    + destruct (is_list_type fuel ty) as [is_list|]; cbn [bind] in H;
        [|discriminate H].
      destruct (py_index f "name") as [name|]; cbn [bind] in H;
        [|discriminate H].
      injection H as <-. right. eexists. eexists. split; [reflexivity|].
      apply andb_prop in Hdraw. destruct Hdraw as [Hdraw Hself].
      apply andb_prop in Hdraw. destruct Hdraw as [Hbuiltin Hmem].
      split.
      * exists k. repeat split.
        -- exact Hk.
        -- apply negb_true_iff. exact Hbuiltin.
        -- exact Hmem.
        -- apply negb_true_iff. exact Hself.
      * exists (py_str name). destruct is_list; [right | left]; reflexivity.
    + left. injection H as <-. reflexivity.
  - left. injection H as <-. reflexivity.
Qed.

Lemma edge_step_drawn (fuel : nat) (type_map : pydict) (types : list json)
    (edges edges' : list (string * json * string)) (t : json) :
  In t types ->
  edge_step fuel type_map edges t = Ok edges' ->
  let P := fun e : string * json * string =>
             edge_drawn type_map e
             /\ exists t', In t' types /\ proper_name t' = Some (fst (fst e)) in
  Forall P edges -> Forall P edges'.
Proof.
  intros Hin H P Hedges. unfold edge_step in H.
  destruct (py_get t "name") as [name|] eqn:Hname; cbn [bind] in H;
    [|discriminate H].
  destruct (negb (truthy name)) eqn:Htruthy; cbn [bind] in H.
  { injection H as <-. exact Hedges. }
  destruct name as [| | |s| |]; try discriminate H.
  cbn [py_startswith bind py_str] in H.
  destruct (startswith s "__") eqn:Hint.
  { injection H as <-. exact Hedges. }
  assert (Hp : proper_name t = Some s).
  { unfold proper_name. rewrite Hname. simpl in Htruthy.
    apply negb_false_iff, negb_true_iff in Htruthy.
    rewrite Htruthy, Hint. reflexivity. }
  destruct (py_get t "fields") as [fields|]; cbn [bind] in H; [|discriminate H].
  match type of H with
  | bind ?m _ = _ => destruct m as [fields'|]; cbn [bind] in H; [|discriminate H]
  end.
  destruct (truthy fields'); [|injection H as <-; exact Hedges].
  destruct (py_iter fields') as [fs|]; cbn [bind] in H; [|discriminate H].
  apply (foldM_Forall (edge_field_step fuel type_map s) P fs)
    with (acc := edges) (out := edges'); [|exact H | exact Hedges].
  intros acc acc' f _ Hf Hacc.
  destruct (edge_field_step_drawn _ _ _ _ _ _ Hf)
    as [-> | (head & label & -> & Hdrawn)]; [exact Hacc|].
  apply Forall_app. split; [exact Hacc|].
  constructor; [|constructor]. split; [exact Hdrawn|].
  exists t. split; [exact Hin | exact Hp].
Qed.

(** When the loop of the nodes has passed, every name that counts as true
    is a string. *)
Lemma node_loop_names_are_strings (fuel : nat) (type_map : option pydict)
    (types : list json) :
  forall nodes nodes',
    foldM (node_step fuel type_map) types nodes = Ok nodes' ->
    forall t name,
      In t types -> py_get t "name" = Ok name -> truthy name = true ->
      exists s, name = JStr s.
Proof.
  induction types as [|t0 rest IH]; intros nodes nodes' H t name Hin Hname Ht;
    [contradiction|].
  simpl in H.
  destruct (node_step fuel type_map nodes t0) as [mid|] eqn:Hstep;
    cbn [bind] in H; [|discriminate H].
  destruct Hin as [->|Hin]; [|apply (IH _ _ H t name Hin Hname Ht)].
  unfold node_step in Hstep. rewrite Hname in Hstep. cbn [bind] in Hstep.
  rewrite Ht in Hstep. cbn [negb bind] in Hstep.
  destruct name as [| | |s| |]; try discriminate Hstep.
  exists s. reflexivity.
Qed.

Lemma dict_set_keys (k : pykey) (v : json) (d : pydict) :
  (exists s, k = KStr s) -> keys_are_strings d ->
  keys_are_strings (dict_set k v d).
Proof.
  intros Hk Hd. induction d as [|[k' v'] d IH]; simpl.
  - constructor; [exact Hk | constructor].
  - inversion Hd as [|? ? Hhead Htail]; subst.
    destruct (pykey_eqb k k'); constructor.
    + exact Hhead.
    + exact Htail.
    + exact Hhead.
    + apply IH. exact Htail.
Qed.

Lemma build_type_map_keys (types : list json) :
  (forall t name, In t types -> py_get t "name" = Ok name ->
                  truthy name = true -> exists s, name = JStr s) ->
  forall acc d,
    keys_are_strings acc ->
    build_type_map types acc = Ok d ->
    keys_are_strings d.
Proof.
  induction types as [|t rest IH]; intros Hnames acc d Hacc H; simpl in H.
  - injection H as <-. exact Hacc.
  - destruct (py_get t "name") as [name|] eqn:Hname; cbn [bind] in H;
      [|discriminate H].
    assert (Hrest : forall t' n, In t' rest -> py_get t' "name" = Ok n ->
                                 truthy n = true -> exists s, n = JStr s)
      by (intros t' n Hin; apply Hnames; right; exact Hin).
    destruct (truthy name) eqn:Ht.
    + destruct (Hnames t name (or_introl eq_refl) Hname Ht) as (s & ->).
      cbn [hashable bind] in H.
      apply (IH Hrest _ _ (dict_set_keys _ _ _ (ex_intro _ s eq_refl) Hacc) H).
    + apply (IH Hrest _ _ Hacc H).
Qed.

Lemma dict_mem_key (k : pykey) (d : pydict) :
  keys_are_strings d -> dict_mem k d = true -> exists s, k = KStr s.
Proof.
  unfold dict_mem. intros Hd. induction d as [|[k' v'] d IH]; simpl;
    [discriminate|].
  inversion Hd as [|? ? [s Hs] Htail]; subst. simpl in Hs. subst k'.
  destruct (pykey_eqb k (KStr s)) eqn:Hk.
  - intros _. apply pykey_eqb_eq in Hk. exists s. exact Hk.
  - apply IH. exact Htail.
Qed.

Lemma last_named_In (name : string) (types : list json) (t : json) :
  last_named name types = Some t ->
  In t types /\ py_get t "name" = Ok (JStr name).
Proof.
  induction types as [|t0 rest IH]; simpl; [discriminate|].
  destruct (last_named name rest) as [t'|].
  - intros H. injection H as ->. destruct (IH eq_refl) as [Hin Hn].
    split; [right; exact Hin | exact Hn].
  - destruct (py_get t0 "name") as [[| | |s| |]|] eqn:Hn; try discriminate.
    destruct (String.eqb s name && negb (String.eqb s "")) eqn:E;
      [|discriminate].
    intros H. injection H as <-. apply andb_prop in E. destruct E as [E _].
    apply String.eqb_eq in E. subst s. split; [left; reflexivity | exact Hn].
Qed.

(** X15.  When [generate_graphviz_diagram] returns a diagram, every edge
    starts at a type of the [types] array that has a proper name and ends
    at the name of a type of the array; no edge ends at a built-in scalar
    ([ID], [String], [Int], [Float], [Boolean], [Date]), none is a loop
    from a type to itself, the head handed to [dot.edge] is always a
    string, and every label ends in [[1]] or [[*]]. *)
Theorem generate_graphviz_diagram_edges :
  forall (fuel : nat) (doc types_value : json) (types : list json)
         (g : digraph),
    lookup_path ["data"; "__schema"; "types"] doc = Some types_value ->
    py_iter types_value = Ok types ->
    generate_graphviz_diagram fuel doc = Ok g ->
    Forall (edge_ok types) (graph_edges g).
Proof.
  intros fuel doc tv types g Hpath Hiter H.
  rewrite (generate_graphviz_diagram_from_types fuel doc tv types Hpath Hiter) in H.
  destruct (build_type_map types []) as [type_map|] eqn:Hmap; cbn [bind] in H;
    [|discriminate H].
  destruct (foldM (node_step fuel (Some type_map)) types []) as [nodes|] eqn:Hn;
    cbn [bind] in H; [|discriminate H].
  destruct (foldM (edge_step fuel type_map) types []) as [edges|] eqn:He;
    cbn [bind] in H; [|discriminate H].
  injection H as <-. cbn [graph_edges].
  assert (Hkeys : keys_are_strings type_map).
  { apply (build_type_map_keys types
             (node_loop_names_are_strings _ _ _ _ _ Hn) [] type_map);
      [constructor | exact Hmap]. }
  assert (Hraw : Forall (fun e : string * json * string =>
                           edge_drawn type_map e
                           /\ exists t', In t' types
                                         /\ proper_name t' = Some (fst (fst e)))
                        edges).
  { apply (foldM_Forall (edge_step fuel type_map) _ types)
      with (acc := []) (out := edges); [|exact He | constructor].
    intros acc acc' t Hin Hstep Hacc.
    apply (edge_step_drawn fuel type_map types acc acc' t Hin Hstep Hacc). }
  clear He Hn.
  eapply Forall_impl; [|exact Hraw].
  intros [[tail head] label] [Hdrawn Htail]. simpl in Htail.
  destruct Hdrawn as [(k & Hk & Hbuiltin & Hmem & Hself) Hlabel].
  destruct (dict_mem_key k type_map Hkeys Hmem) as (b & ->).
  assert (Hhead : head = JStr b).
  { destruct head as [|flag|n|s|xs|kvs]; simpl in Hk; try discriminate Hk.
    injection Hk as ->. reflexivity. }
  subst head.
  unfold dict_mem in Hmem.
  rewrite (build_type_map_last_named_lookup types type_map b Hmap) in Hmem.
  destruct (last_named b types) as [t'|] eqn:Hlast; [|discriminate Hmem].
  destruct (last_named_In b types t' Hlast) as [Hin' Hname'].
  split; [exact Htail|]. split; [|exact Hlabel].
  exists b, t'. repeat split; try assumption.
  - intros ->. simpl in Hself. rewrite String.eqb_refl in Hself.
    discriminate Hself.
  - intros Hin.
    assert (Htrue : existsb (pykey_eqb (KStr b)) BUILT_IN_SCALARS = true).
    { apply existsb_exists. exists (KStr b). split; [exact Hin|].
      apply pykey_eqb_eq. reflexivity. }
    rewrite Htrue in Hbuiltin. discriminate Hbuiltin.
Qed.

Lemma generate_graphviz_diagram_edges_witness :
  (generate_graphviz_diagram 3 shop_doc = Ok shop_graph
   /\ graph_edges shop_graph = [("Item", JStr "User", "owner [1]")])
  /\ Forall (edge_ok shop_types) (graph_edges shop_graph).
Proof.
  split; [split; reflexivity|].
  apply (generate_graphviz_diagram_edges 3 shop_doc (JArr shop_types)
           shop_types shop_graph); reflexivity.
Defined.

(** ** Edges that are drawn *)

(** X16.  A field whose type is a chain with a named innermost type gets
    its edge: when that name is in the type map, is not a built-in scalar
    and is not the type the field belongs to, the loop adds one edge from
    the type to that name, labelled with the field name and [[*]] when a
    [LIST] occurs in the chain, [[1]] otherwise. *)
Theorem edge_field_step_draws :
  forall (fuel : nat) (type_map : pydict) (src_name base : string)
         (edges : list (string * json * string)) (f field_name ty : json)
         (t : TypeRef),
    py_index f "type" = Ok ty ->
    py_index f "name" = Ok field_name ->
    introspected t ty ->
    depth t < fuel ->
    leaf_name t = Some base ->
    dict_mem (KStr base) type_map = true ->
    ~ In (KStr base) BUILT_IN_SCALARS ->
    base <> src_name ->
    let label := py_str field_name ++ " "
                 ++ (if has_list t then "[*]" else "[1]") in
    edge_field_step fuel type_map src_name edges f
    = Ok (edges ++ [(src_name, JStr base, label)])%list.
Proof.
  intros fuel tm src base edges f fname ty t Hty Hname Hchain Hfuel Hleaf
         Hmem Hbuiltin Hself label.
  unfold label, edge_field_step. rewrite Hty. cbn [bind].
  rewrite (get_base_type_name_introspected t ty fuel Hchain Hfuel), Hleaf.
  cbn [name_value bind truthy].
  assert (Hne : base <> "").
  { pose proof (introspected_leaf_name t ty Hchain) as H. rewrite Hleaf in H.
    intros ->. apply H. reflexivity. }
  destruct (String.eqb_spec base ""); [contradiction|].
  cbn [negb hashable bind]. rewrite Hmem.
  assert (Hb : existsb (pykey_eqb (KStr base)) BUILT_IN_SCALARS = false).
  { destruct (existsb (pykey_eqb (KStr base)) BUILT_IN_SCALARS) eqn:E;
      [|reflexivity].
    apply existsb_exists in E. destruct E as (k & Hin & Hk).
    apply pykey_eqb_eq in Hk. subst k. contradiction. }
  rewrite Hb.
  assert (Hs : pykey_eqb (KStr base) (KStr src) = false).
  { simpl. destruct (String.eqb_spec base src); [contradiction|reflexivity]. }
  rewrite Hs. cbn [negb andb bind].
  rewrite (is_list_type_introspected t ty fuel Hchain Hfuel). cbn [bind].
  rewrite Hname. cbn [bind]. destruct (has_list t); reflexivity.
Qed.

Lemma edge_field_step_draws_witness :
  dict_mem (KStr "User") user_map = true
  /\ edge_field_step 4 user_map "Item" []
       (JObj [("name", JStr "owners"); ("type", user_list_ref)])
     = Ok [("Item", JStr "User", "owners [*]")].
Proof.
  split; [reflexivity|].
  apply (edge_field_step_draws 4 user_map "Item" "User" []
           (JObj [("name", JStr "owners"); ("type", user_list_ref)])
           (JStr "owners") user_list_ref user_list_shape eq_refl eq_refl
           user_list_ref_introspected).
  - simpl; lia.
  - reflexivity.
  - reflexivity.
  - simpl. intros H. repeat (destruct H as [H|H]; [discriminate H|]). exact H.
  - discriminate.
Defined.

(** ** Well-formed documents are converted *)

Lemma mapM_succeeds {A B : Type} (f : A -> result B) (xs : list A) :
  Forall (fun x => exists y, f x = Ok y) xs -> exists ys, mapM f xs = Ok ys.
Proof.
  induction 1 as [|x xs [y Hy] _ [ys Hys]]; simpl.
  - exists []. reflexivity.
  - rewrite Hy, Hys. exists (y :: ys). reflexivity.
Qed.

Lemma convert_field_succeeds (fuel d : nat) (type_map : option pydict) (f : json) :
  field_ok d f -> d <= fuel ->
  exists line, convert_field fuel f type_map = Ok line.
Proof.
  intros (name & ty & t & Hname & Hty & Hrep & Hdepth) Hfuel.
  unfold convert_field. rewrite Hname, Hty. cbn [bind].
  rewrite (convert_type_represents t ty name type_map fuel Hrep) by lia.
  eexists. reflexivity.
Qed.

Lemma convert_input_field_succeeds (fuel d : nat) (type_map : option pydict)
    (f : json) :
  field_ok d f -> d <= fuel ->
  exists line, convert_input_field fuel f type_map = Ok line.
Proof.
  intros Hf Hfuel.
  destruct (convert_field_succeeds fuel d type_map f Hf Hfuel) as (base & Hbase).
  unfold convert_input_field. rewrite Hbase. cbn [bind].
  destruct Hf as (name & _ & _ & Hname & _).
  destruct f as [| | | | |kvs]; try discriminate Hname.
  unfold py_get, py_get_default. cbn [bind].
  destruct (negb _); eexists; reflexivity.
Qed.

Lemma enum_values_succeed (evs : list json) :
  Forall enum_value_ok evs ->
  exists vals,
    (names <- mapM (fun ev => py_index ev "name") evs ;; mapM join_item names)
    = Ok vals.
Proof.
  induction 1 as [|ev evs [s Hs] _ [vals Hvals]]; simpl.
  - exists []. reflexivity.
  - rewrite Hs. cbn [bind].
    destruct (mapM (fun ev => py_index ev "name") evs) as [names|];
      cbn [bind] in *; [|discriminate Hvals].
    simpl. rewrite Hvals. exists (s :: vals). reflexivity.
Qed.

Lemma type_ok_name (d : nat) (t : json) : type_ok d t -> name_ok t.
Proof. destruct 1; assumption. Qed.

Lemma build_type_map_succeeds (d : nat) (types : list json) :
  Forall (type_ok d) types ->
  forall acc, exists type_map, build_type_map types acc = Ok type_map.
Proof.
  induction 1 as [|t types Ht _ IH]; intros acc; simpl.
  - exists acc. reflexivity.
  - destruct (type_ok_name d t Ht) as [-> | [s ->]]; cbn [bind truthy].
    + apply IH.
    + destruct (negb (String.eqb s "")); [cbn [hashable bind]|]; apply IH.
Qed.

Lemma schema_step_succeeds (fuel d : nat) (type_map : option pydict)
    (schema_parts : list string) (t : json) :
  type_ok d t -> d <= fuel ->
  exists parts, schema_step fuel type_map schema_parts t = Ok parts.
Proof.
  intros Ht Hfuel.
  destruct (proper_name t) as [name|] eqn:Hp.
  - destruct (proper_name_get _ _ Hp) as (Hname & Hne & Hint).
    rewrite (schema_step_named _ _ _ _ name Hname Hne Hint).
    destruct Ht as [t fs _ Hfields Hfs | t fs _ Hfields Hinput Hfs
                   | t evs _ Hfields Hinput Henum Hevs
                   | t _ Hfields Hinput Henum];
      rewrite Hfields; cbn [bind is_None negb].
    + destruct (py_get_present t "fields" (JArr fs) JNull Hfields eq_refl)
        as [-> _].
      cbn [bind]. destruct fs as [|f fs']; [eexists; reflexivity|].
      cbn [truthy negb py_iter bind].
      destruct (mapM_succeeds (fun f => convert_field fuel f type_map)
                  (filter (fun f => negb (is_None f)) (f :: fs')))
        as (lines & ->); [|eexists; reflexivity].
      apply Forall_forall. intros x Hx. apply filter_In in Hx.
      destruct Hx as [Hx Hnn].
      destruct (proj1 (Forall_forall _ _) Hfs x Hx) as [-> | Hok];
        [discriminate Hnn|].
      apply (convert_field_succeeds fuel d type_map x Hok Hfuel).
    + rewrite Hinput. cbn [bind is_None negb].
      destruct (py_get_present t "inputFields" (JArr fs) (JArr []) Hinput eq_refl)
        as [_ ->].
      cbn [bind py_iter].
      destruct (mapM_succeeds (fun f => convert_input_field fuel f type_map) fs)
        as (lines & ->); [|eexists; reflexivity].
      eapply Forall_impl; [|exact Hfs].
      intros x Hok. apply (convert_input_field_succeeds fuel d type_map x Hok Hfuel).
    + rewrite Hinput. cbn [bind is_None negb]. rewrite Henum.
      cbn [bind is_None negb].
      destruct (py_get_present t "enumValues" (JArr evs) (JArr []) Henum eq_refl)
        as [-> ->].
      cbn [bind]. destruct evs as [|ev evs']; [eexists; reflexivity|].
      cbn [truthy negb py_iter bind].
      destruct (enum_values_succeed (ev :: evs') Hevs) as (vals & Hvals).
      destruct (mapM (fun ev => py_index ev "name") (ev :: evs')) as [names|];
        cbn [bind] in *; [|discriminate Hvals].
      rewrite Hvals. eexists. reflexivity.
    + rewrite Hinput. cbn [bind is_None negb]. rewrite Henum.
      eexists. reflexivity.
  - unfold schema_step. unfold proper_name in Hp.
    destruct (type_ok_name d t Ht) as [Hn | [s Hn]]; rewrite Hn in *;
      cbn [bind truthy negb].
    + eexists. reflexivity.
    + destruct (String.eqb s ""); cbn [negb bind orb] in *;
        [eexists; reflexivity|].
      cbn [py_startswith bind].
      destruct (startswith s "__"); [eexists; reflexivity | discriminate Hp].
Qed.

Lemma schema_loop_succeeds (fuel d : nat) (type_map : option pydict)
    (types : list json) :
  Forall (type_ok d) types -> d <= fuel ->
  forall schema_parts,
    exists parts, schema_loop fuel type_map types schema_parts = Ok parts.
Proof.
  intros Htypes Hfuel.
  induction Htypes as [|t types Ht _ IH]; intros acc; simpl.
  - exists acc. reflexivity.
  - destruct (schema_step_succeeds fuel d type_map acc t Ht Hfuel) as (mid & ->).
    cbn [bind]. apply IH.
Qed.

(** X12.  On a well-formed document [generate_graphql_schema] does not
    fail.  Let [types] be an array of types of the four categories, each
    with a name that is a string or null: an object type with a list of
    fields (null entries allowed), an input type with a list of fields, an
    enum type with a list of values that have a string name, or a scalar
    type; and let every field have a name and a type that is a
    well-formed chain.  Then an SDL text is returned, for every budget
    that is not below the depth of the deepest chain plus one. *)
Theorem generate_graphql_schema_succeeds :
  forall (fuel d : nat) (doc : json) (types : list json),
    lookup_path ["data"; "__schema"; "types"] doc = Some (JArr types) ->
    Forall (type_ok d) types ->
    d <= fuel ->
    exists sdl, generate_graphql_schema fuel doc = Ok sdl.
Proof.
  intros fuel d doc types Hpath Htypes Hfuel.
  rewrite (generate_graphql_schema_from_types fuel doc (JArr types) types
             Hpath eq_refl).
  destruct (build_type_map_succeeds d types Htypes []) as (type_map & ->).
  cbn [bind].
  destruct (schema_loop_succeeds fuel d (Some type_map) types Htypes Hfuel [])
    as (parts & ->).
  eexists. reflexivity.
Qed.

Lemma post_doc_type_ok :
  Forall (type_ok 2)
    [JObj [("name", JStr "Post");
           ("fields",
            JArr [JObj [("name", JStr "id");
                        ("type", JObj [("kind", JStr "NON_NULL");
                                       ("ofType", JObj [("kind", JStr "SCALAR");
                                                        ("name", JStr "ID")])])]])]].
Proof.
  constructor; [|constructor].
  eapply ok_object.
  - right. exists "Post". reflexivity.
  - reflexivity.
  - constructor; [|constructor]. right.
    exists (JStr "id"), (JObj [("kind", JStr "NON_NULL");
                               ("ofType", JObj [("kind", JStr "SCALAR");
                                                ("name", JStr "ID")])]),
      (NonNull (Named (Some "ID"))).
    repeat split.
    + eapply rep_non_null; [reflexivity | reflexivity |].
      eapply rep_named with (kind := JStr "SCALAR");
        [reflexivity | reflexivity | reflexivity | discriminate].
    + simpl. lia.
Defined.

Lemma generate_graphql_schema_succeeds_witness :
  exists sdl, generate_graphql_schema 2 post_doc = Ok sdl.
Proof.
  apply (generate_graphql_schema_succeeds 2 2 post_doc _ eq_refl
           post_doc_type_ok).
  lia.
Defined.

